(** * Shopify orders/paid webhook: NFC plate generation pipeline

    A shallow embedding of the TypeScript sources
    - [src/utils/getPackSize.ts]        (getPackSize)
    - [src/utils/extractGroups.ts]      (extractGroups, findReviewUrlInProperties)
    - [src/lib/buildEmailtml.ts]        (escapeHtml)
    - [src/jobs/purgeWebhookEvents.ts]  (purgeOnce, startWebhookEventsPurge)
    - [src/utils/verifyShopifyHmac.ts]  (checkShopifySignature)
    - [src/utils/isDuplicateKeyError.ts](isDuplicateKeyError)
    - [src/utils/getShopifyHeader.ts]   (getShopifyHeader)
    - [src/webhook/orders-paid.endpoint.ts] (shopifyOrdersPaidWebhook)
    - the three Payload collection configurations
    together with the properties of the pipeline that are proved about them.

    Conventions of the embedding.
    - A JavaScript value that comes out of [JSON.parse] is a [JSON] tree;
      [undefined] (the result of reading a missing property) is [None] in
      [option JSON].
    - JavaScript numbers are modelled on the integers ([Z]), which is exact
      for the integers that a double holds exactly; strings are modelled on
      the ASCII range, where [toLowerCase], [trim], [\d], [\s] and [\w]
      have the usual tables.  Numeric strings are read by [Number] as signed
      decimal integers; fractional, exponent and radix-prefixed literals are
      outside the modelled range and read as [NaN].
    - A thrown value is the [JSON] tree of its own data properties.
    - Storage calls take their non-deterministic part (an injected failure,
      a random slug, a clock reading) from an explicit environment. *)

From Stdlib Require Import ZArith String Ascii List Bool Lia.
From stdpp Require Import base list strings pretty gmap.

Open Scope string_scope.
Open Scope Z_scope.

(* ====================================================================== *)
(** ** JavaScript values                                                    *)
(* ====================================================================== *)

#[warnings="-register-all"]
Inductive JSON : Type :=
| JNull
| JBool (b : bool)
| JNum (z : Z)
| JStr (s : string)
| JArr (l : list JSON)
| JObj (kv : list (string * JSON)).

(** Result of [Number(...)]. *)
Inductive number : Type :=
| NaN
| Num (z : Z).

(** Own-property lookup in an object literal. *)
Fixpoint assoc (k : string) (kv : list (string * JSON)) : option JSON :=
  match kv with
  | [] => None
  | (k', v) :: kv' => if String.eqb k k' then Some v else assoc k kv'
  end.

(** [v?.k]: property [k] of [v]; [undefined] on [null], [undefined] and on
    every value that has no own property [k]. *)
Definition get (k : string) (v : option JSON) : option JSON :=
  match v with
  | Some (JObj kv) => assoc k kv
  | _ => None
  end.

(** [v?.[0]]. *)
Definition get0 (v : option JSON) : option JSON :=
  match v with
  | Some (JArr l) => head l
  | Some (JObj kv) => assoc "0" kv
  | Some (JStr (String c _)) => Some (JStr (String c EmptyString))
  | _ => None
  end.

(** [a ?? b]. *)
Definition nullish (a b : option JSON) : option JSON :=
  match a with
  | None | Some JNull => b
  | Some _ => a
  end.

Infix "??" := nullish (at level 61, left associativity).

(** Truthiness, as tested by [!v], [v || w] and [if (v)]. *)
Definition truthy (v : option JSON) : bool :=
  match v with
  | None | Some JNull => false
  | Some (JBool b) => b
  | Some (JNum z) => negb (z =? 0)
  | Some (JStr s) => negb (String.eqb s "")
  | Some (JArr _) | Some (JObj _) => true
  end.

Definition isArray (v : option JSON) : bool :=
  match v with
  | Some (JArr _) => true
  | _ => false
  end.

(** [String(v)] for a defined value. *)
Fixpoint to_string (v : JSON) : string :=
  match v with
  | JNull => "null"
  | JBool true => "true"
  | JBool false => "false"
  | JNum z => pretty z
  | JStr s => s
  | JArr l =>
      (fix join (l : list JSON) : string :=
         match l with
         | [] => ""
         | x :: rest =>
             (match x with JNull => "" | _ => to_string x end)
             +:+ (match rest with [] => "" | _ => "," +:+ join rest end)
         end) l
  | JObj _ => "[object Object]"
  end.

(** [String(v)], where [v] may be [undefined]. *)
Definition String_ (v : option JSON) : string :=
  match v with
  | None => "undefined"
  | Some v => to_string v
  end.

(** *** Characters and strings *)

Definition code (c : ascii) : N := N_of_ascii c.

Definition is_digit (c : ascii) : bool := ((48 <=? code c) && (code c <=? 57))%N.

(** White space and line terminators of the ASCII range (the [\s] class,
    also what [trim] removes). *)
Definition is_space (c : ascii) : bool :=
  ((9 <=? code c) && (code c <=? 13) || (code c =? 32))%N.

(** The [\w] class. *)
Definition is_word (c : ascii) : bool :=
  ((97 <=? code c) && (code c <=? 122)
   || (65 <=? code c) && (code c <=? 90)
   || is_digit c || (code c =? 95))%N.

Definition lower_ascii (c : ascii) : ascii :=
  if ((65 <=? code c) && (code c <=? 90))%N then ascii_of_N (code c + 32) else c.

Fixpoint toLowerCase (s : string) : string :=
  match s with
  | EmptyString => EmptyString
  | String c s' => String (lower_ascii c) (toLowerCase s')
  end.

Fixpoint trimStart (s : string) : string :=
  match s with
  | String c s' => if is_space c then trimStart s' else s
  | EmptyString => EmptyString
  end.

(** [trimEnd] keeps a character when it is not a space or when something
    is kept after it. *)
Fixpoint trimEnd (s : string) : string :=
  match s with
  | EmptyString => EmptyString
  | String c s' =>
      match trimEnd s' with
      | EmptyString => if is_space c then EmptyString else String c EmptyString
      | t => String c t
      end
  end.

Definition trim (s : string) : string := trimEnd (trimStart s).

Fixpoint startsWith (p s : string) : bool :=
  match p, s with
  | EmptyString, _ => true
  | String a p', String b s' => Ascii.eqb a b && startsWith p' s'
  | String _ _, EmptyString => false
  end.

(** [s.includes(needle)]. *)
Fixpoint includes (needle s : string) : bool :=
  startsWith needle s
  || match s with
     | EmptyString => false
     | String _ s' => includes needle s'
     end.

(** *** [Number(...)] *)

Definition digit_value (c : ascii) : Z := Z.of_N (code c - 48).

(** Value of a string of decimal digits read after the prefix value [acc];
    [None] when a character is not a digit. *)
Fixpoint digits_from (acc : Z) (s : string) : option Z :=
  match s with
  | EmptyString => Some acc
  | String c s' =>
      if is_digit c then digits_from (10 * acc + digit_value c) s' else None
  end.

Definition unsigned_decimal (s : string) : option Z :=
  match s with
  | EmptyString => None
  | _ => digits_from 0 s
  end.

Definition string_to_number (s : string) : number :=
  match trim s with
  | EmptyString => Num 0
  | String "-" t => match unsigned_decimal t with Some z => Num (- z) | None => NaN end
  | String "+" t => match unsigned_decimal t with Some z => Num z | None => NaN end
  | t => match unsigned_decimal t with Some z => Num z | None => NaN end
  end.

Definition Number_ (v : option JSON) : number :=
  match v with
  | None => NaN
  | Some JNull => Num 0
  | Some (JBool b) => Num (if b then 1 else 0)
  | Some (JNum z) => Num z
  | Some (JStr s) => string_to_number s
  | Some (JArr l) => string_to_number (to_string (JArr l))
  | Some (JObj _) => NaN
  end.

(** [Number.isFinite(x) && x > 0]. *)
Definition finite_positive (x : number) : bool :=
  match x with
  | NaN => false
  | Num z => 0 <? z
  end.

(* ====================================================================== *)
(** ** Regular expressions (backtracking matcher)                           *)
(* ====================================================================== *)

(** The fragment of the pattern language that [getPackSize] uses.  The
    matcher follows the backtracking semantics of [RegExp.prototype.exec]:
    alternatives left to right, greedy repetition, first success wins. *)
Inductive regex : Type :=
| REps
| RChar (c : ascii)                    (* a literal character *)
| RClass (neg : bool) (cls : ascii -> bool) (* a class, [neg] for [^...] *)
| RBol                                 (* ^ *)
| RWordB                               (* \b *)
| RSeq (r1 r2 : regex)
| RAlt (r1 r2 : regex)
| RStar (r : regex)                    (* r*, greedy *)
| RCap (i : nat) (r : regex).          (* capturing group number i *)

Definition RPlus (r : regex) : regex := RSeq r (RStar r).
Definition ROpt (r : regex) : regex := RAlt r REps.

Fixpoint RLit (s : string) : regex :=
  match s with
  | EmptyString => REps
  | String c s' => RSeq (RChar c) (RLit s')
  end.

(** Matcher state: the character before the current position (none at the
    start of the input), the input that remains, the number of characters
    consumed since the match started, the groups captured. *)
Record mstate : Type := MState {
  m_prev : option ascii;
  m_rest : string;
  m_pos : nat;
  m_caps : list (nat * string)
}.

Fixpoint take_string (n : nat) (s : string) : string :=
  match n, s with
  | S n', String c s' => String c (take_string n' s')
  | _, _ => EmptyString
  end.

Definition word_before (s : mstate) : bool :=
  match m_prev s with Some c => is_word c | None => false end.

Definition word_after (s : mstate) : bool :=
  match m_rest s with String c _ => is_word c | EmptyString => false end.

(** Greedy iteration of [step]; an iteration that consumes nothing is
    rejected, so [String.length (m_rest s)] iterations are enough. *)
Fixpoint star_loop {R : Type}
  (step : (mstate -> option R) -> mstate -> option R)
  (fuel : nat) (k : mstate -> option R) (s : mstate) : option R :=
  match fuel with
  | O => k s
  | S fuel' =>
      match step (fun s' =>
                    if (m_pos s <? m_pos s')%nat
                    then star_loop step fuel' k s'
                    else None) s with
      | Some x => Some x
      | None => k s
      end
  end.

(** [rmatch ci r k s]: match [r] at [s] and continue with [k]; [ci] is the
    [i] flag. *)
Fixpoint rmatch {R : Type} (ci : bool) (r : regex)
  (k : mstate -> option R) (s : mstate) : option R :=
  match r with
  | REps => k s
  | RChar c =>
      match m_rest s with
      | String d rest =>
          if (if ci then Ascii.eqb (lower_ascii c) (lower_ascii d) else Ascii.eqb c d)
          then k (MState (Some d) rest (S (m_pos s)) (m_caps s))
          else None
      | EmptyString => None
      end
  | RClass neg cls =>
      match m_rest s with
      | String d rest =>
          if xorb neg (cls d) then k (MState (Some d) rest (S (m_pos s)) (m_caps s))
          else None
      | EmptyString => None
      end
  | RBol => match m_prev s with None => k s | Some _ => None end
  | RWordB => if xorb (word_before s) (word_after s) then k s else None
  | RSeq r1 r2 => rmatch ci r1 (rmatch ci r2 k) s
  | RAlt r1 r2 =>
      match rmatch ci r1 k s with
      | Some x => Some x
      | None => rmatch ci r2 k s
      end
  | RStar r => star_loop (rmatch ci r) (String.length (m_rest s)) k s
  | RCap i r =>
      rmatch ci r
        (fun s' =>
           k (MState (m_prev s') (m_rest s') (m_pos s')
                ((i, take_string (m_pos s' - m_pos s) (m_rest s)) :: m_caps s')))
        s
  end.

(** Try every start position from the left. *)
Fixpoint search_from (ci : bool) (r : regex) (prev : option ascii) (rest : string)
  : option (list (nat * string)) :=
  match rmatch ci r (fun s => Some (m_caps s)) (MState prev rest 0 []) with
  | Some caps => Some caps
  | None =>
      match rest with
      | EmptyString => None
      | String c rest' => search_from ci r (Some c) rest'
      end
  end.

Fixpoint cap (i : nat) (caps : list (nat * string)) : option string :=
  match caps with
  | [] => None
  | (j, s) :: caps' => if (i =? j)%nat then Some s else cap i caps'
  end.

(** [s.match(r)] for a pattern without the [g] flag: the captures of the
    leftmost match, [None] for [null]. *)
Definition string_match (ci : bool) (r : regex) (s : string)
  : option (list (nat * string)) :=
  search_from ci r None s.

(* ====================================================================== *)
(** ** getPackSize                                                          *)
(* ====================================================================== *)

(** [/(?:^|[^\d])(\d+)\s*plaque(?:s)?\b/i] *)
Definition packRegex : regex :=
  RSeq (RAlt RBol (RClass true is_digit))
    (RSeq (RCap 1 (RPlus (RClass false is_digit)))
       (RSeq (RStar (RClass false is_space))
          (RSeq (RLit "plaque")
             (RSeq (ROpt (RChar "s")) RWordB)))).

(** The haystack [`${variant} ${name}`]. *)
Definition packLabel (item : option JSON) : string :=
  let variant := toLowerCase (String_ (get "variant_title" item ?? Some (JStr ""))) in
  let name := toLowerCase (String_ (get "name" item ?? Some (JStr ""))) in
  variant +:+ " " +:+ name.

Definition getPackSize (item : option JSON) : option Z :=
  let hay := packLabel item in
  match string_match true packRegex hay with
  | None => None
  | Some m =>
      match Number_ (JStr <$> cap 1 m) with
      | NaN => None
      | Num n =>
          if (n =? 1) || (n =? 2) || (n =? 5) then Some n else None
      end
  end.

(* ====================================================================== *)
(** ** Exceptions                                                           *)
(* ====================================================================== *)

(** A computation that returns or throws; the thrown value is a [JSON]
    tree. *)
Inductive result (A : Type) : Type :=
| Ok (a : A)
| Throw (e : JSON).

Arguments Ok {A} a.
Arguments Throw {A} e.

(** [new Error(msg)], by its own data property. *)
Definition Error_ (msg : string) : JSON := JObj [("message", JStr msg)].

(* ====================================================================== *)
(** ** extractGroups                                                        *)
(* ====================================================================== *)

Record Group : Type := MkGroup {
  reviewUrl : string;
  units : Z;
  lineItemId : string
}.

(** [properties.find(pred)]: the first element that satisfies [pred],
    [undefined] when there is none. *)
Fixpoint find_ (pred : JSON -> bool) (l : list JSON) : option JSON :=
  match l with
  | [] => None
  | x :: l' => if pred x then Some x else find_ pred l'
  end.

Definition findReviewUrlInProperties (properties : list JSON) : option string :=
  let exact :=
    find_ (fun p =>
             String.eqb
               (toLowerCase (trim (String_ (get "name" (Some p) ?? Some (JStr "")))))
               "google_business_url")
          properties in
  if truthy (get "value" exact) then Some (trim (String_ (get "value" exact)))
  else
    let loose :=
      find_ (fun p =>
               includes "google"
                 (toLowerCase (String_ (get "name" (Some p) ?? Some (JStr "")))))
            properties in
    if truthy (get "value" loose) then Some (trim (String_ (get "value" loose)))
    else None.

(** The quantity of a line item: [Number(quantity ?? current_quantity ?? 1)],
    replaced by 1 unless finite and positive. *)
Definition itemQuantity (item : option JSON) : Z :=
  let quantityRaw :=
    Number_ (get "quantity" item ?? get "current_quantity" item ?? Some (JNum 1)) in
  match quantityRaw with
  | Num z => if finite_positive quantityRaw then z else 1
  | NaN => 1
  end.

(** What one iteration of the loop over [line_items] does. *)
Inductive ItemStep : Type :=
| Skip                      (* continue *)
| Push (g : Group)          (* groups.push(...) *)
| Raise (e : JSON).         (* throw *)

Definition extractItem (item : JSON) : ItemStep :=
  let props := get "properties" (Some item) in
  let reviewUrl :=
    match props with
    | Some (JArr l) => findReviewUrlInProperties l
    | _ => None
    end in
  match reviewUrl with
  | None => Skip
  | Some url =>
      if String.eqb url "" then Skip
      else
        let quantity := itemQuantity (Some item) in
        match getPackSize (Some item) with
        | None => Raise (Error_ "NO PACK SIZE")
        | Some packSize =>
            if packSize =? 0 then Raise (Error_ "NO PACK SIZE")
            else if negb (truthy (get "id" (Some item)))
                    && negb (truthy (get "admin_graphql_api_id" (Some item)))
            then Skip
            else
              let lineItemId :=
                String_ (get "id" (Some item) ?? get "admin_graphql_api_id" (Some item)) in
              Push (MkGroup url (quantity * packSize) lineItemId)
        end
  end.

Fixpoint extractLoop (lineItems : list JSON) (groups : list Group)
  : result (list Group) :=
  match lineItems with
  | [] => Ok groups
  | item :: rest =>
      match extractItem item with
      | Skip => extractLoop rest groups
      | Push g => extractLoop rest (groups ++ [g])
      | Raise e => Throw e
      end
  end.

Definition extractGroups (body : option JSON) : result (list Group) :=
  let lineItems :=
    match get "line_items" body with
    | Some (JArr l) => l
    | _ => []
    end in
  extractLoop lineItems [].

(* ====================================================================== *)
(** ** isDuplicateKeyError                                                  *)
(* ====================================================================== *)

(** The text that is searched: the first non-nullish of [err.message],
    [err.data.message], [err.data.errors[0].message],
    [err.errors[0].message] and [err] itself, as a lower-case string. *)
Definition errorText (err : option JSON) : string :=
  toLowerCase
    (String_
       (get "message" err
        ?? get "message" (get "data" err)
        ?? get "message" (get0 (get "errors" (get "data" err)))
        ?? get "message" (get0 (get "errors" err))
        ?? err)).

(** [err?.code === 11000] *)
Definition hasCode11000 (err : option JSON) : bool :=
  match get "code" err with
  | Some (JNum z) => z =? 11000
  | _ => false
  end.

Definition isDuplicateKeyError (err : option JSON) : bool :=
  let s := errorText err in
  hasCode11000 err
  || includes "e11000" s
  || includes "duplicate" s
  || includes "unique" s
  || includes "already exists" s
  || includes "has already been taken" s.

(* ====================================================================== *)
(** ** getShopifyHeader and checkShopifySignature                           *)
(* ====================================================================== *)

Record Request : Type := MkRequest {
  rawBody : string;
  headers : list (string * string)
}.

Fixpoint header (key : string) (hs : list (string * string)) : option string :=
  match hs with
  | [] => None
  | (k, v) :: hs' => if String.eqb k key then Some v else header key hs'
  end.

(** [a || b] on header values: an absent or empty value is falsy. *)
Definition or_else (a b : option string) : option string :=
  match a with
  | Some (String _ _) => a
  | _ => b
  end.

(** Both accessors of the source ([headers.get(key)] and [headers[key]])
    read the same table here. *)
Definition getShopifyHeader (req : Request) (key : string) : option string :=
  or_else (header key (headers req))
    (or_else (header (toLowerCase key) (headers req))
       (or_else (header key (headers req))
          (or_else (header (toLowerCase key) (headers req)) None))).

(** [process.env] as far as the pipeline reads it. *)
Record ProcessEnv : Type := MkEnv {
  SHOPIFY_WEBHOOK_VERIFY_SIGNATURE : option string;
  SHOPIFY_WEBHOOK_SECRET : option string;
  PLATES_NOTIFICATION_EMAIL : option string;
  PUBLIC_APP_URL : option string
}.

Section Signature.

(** [crypto.createHmac('sha256', secret).update(body, 'utf8').digest('base64')] *)
Variable hmacSha256Base64 : string -> string -> string.

Definition checkShopifySignature (env : ProcessEnv)
  (rawBody : string) (hmacHeader : option string) : result bool :=
  match or_else hmacHeader None with
  | None => Ok false
  | Some hmacHeader =>
      match or_else (SHOPIFY_WEBHOOK_SECRET env) None with
      | None => Throw (Error_ "SHOPIFY_WEBHOOK_SECRET missing")
      | Some secret =>
          let digest := hmacSha256Base64 secret rawBody in
          if negb (String.length digest =? String.length hmacHeader)%nat
          then Ok false
          else Ok (String.eqb digest hmacHeader)
      end
  end.

End Signature.

(* ====================================================================== *)
(** ** Collections                                                          *)
(* ====================================================================== *)

(** Field names of the [webhook-events] collection configuration. *)
Definition WebhookEvents_fields : list string :=
  ["provider"; "webhookId"; "topic"; "orderNumber"; "status"; "error"].

(** Field names of the [plates] collection configuration. *)
Definition Plates_fields : list string :=
  ["slug"; "order"; "googleReviewUrl"; "status"; "sourceKey"; "activatedAt"].

(** Field names of the [orders] collection configuration. *)
Definition Orders_fields : list string :=
  ["orderNumber"; "customerEmail"; "status"; "plates"; "activated"].

(** Fields declared [unique: true]. *)
Definition WebhookEvents_unique : list string := ["webhookId"].
Definition Plates_unique : list string := ["slug"; "sourceKey"].
Definition Orders_unique : list string := ["orderNumber"].

Record WebhookEvent : Type := MkEvent {
  ev_id : nat;
  ev_provider : string;
  ev_webhookId : string;
  ev_topic : string;
  ev_orderNumber : option string;
  ev_status : string;
  ev_error : option string
}.

Record Order : Type := MkOrder {
  or_id : nat;
  or_orderNumber : string;
  or_customerEmail : string;
  or_status : string;
  or_plates : list nat;
  or_activated : bool
}.

Record Plate : Type := MkPlate {
  pl_id : nat;
  pl_slug : string;
  pl_order : nat;
  pl_googleReviewUrl : string;
  pl_status : string;
  pl_sourceKey : string;
  pl_activatedAt : option string
}.

Record Store : Type := MkStore {
  events : list WebhookEvent;
  orders : list Order;
  plates : list Plate;
  next_id : nat
}.

(* ====================================================================== *)
(** ** Storage                                                              *)
(* ====================================================================== *)

(** The persistent storage engine behind [req.payload.create / find /
    update] is an external collaborator of the pipeline.  It is modelled by
    the contract the pipeline relies on: three independently keyed
    collections; writes that are refused when the submitted data fails the
    validation of a declared field or when a field declared [unique: true]
    already holds the value; reads that return the newest documents first
    (the default sort of a collection with timestamps); updates that
    persist the declared fields; and calls that may fail for reasons of
    the infrastructure.  Every call takes an optional injected failure;
    [None] lets the call run against the store. *)

(** The error with which Payload refuses a write: a [ValidationError]
    whose own message names the field, the reason being held under
    [data.errors] only. *)
Definition ValidationError (collection path reason : string) : JSON :=
  JObj [("name", JStr "ValidationError");
        ("message", JStr ("The following field is invalid: " +:+ path));
        ("status", JNum 400);
        ("data",
         JObj [("collection", JStr collection);
               ("errors",
                JArr [JObj [("message", JStr reason); ("path", JStr path)]])])].

(** The refusal of a value that a unique field already holds. *)
Definition uniqueViolation (collection field : string) : JSON :=
  ValidationError collection field "Value must be unique".

(** The refusal of a customer e-mail that the validation of the [email]
    field rejects. *)
Definition invalidEmail : JSON :=
  ValidationError "orders" "customerEmail" "Please enter a valid email address.".

(** The validation of the data of a write to [orders]: [validEmail] is
    Payload's validator of fields of type [email], which is not part of
    the sources; [customerEmail] is the e-mail the data carries, if any. *)
Definition validateOrder (validEmail : string -> bool) (customerEmail : option string)
  : option JSON :=
  match customerEmail with
  | Some e => if validEmail e then None else Some invalidEmail
  | None => None
  end.

Definition notFoundError : JSON := Error_ "Not Found".

(** *** webhook-events *)

Definition createEvent (fault : option JSON) (webhookId topic : string) (st : Store)
  : result nat * Store :=
  match fault with
  | Some e => (Throw e, st)
  | None =>
      if existsb (fun ev => String.eqb (ev_webhookId ev) webhookId) (events st)
      then (Throw (uniqueViolation "webhook-events" "webhookId"), st)
      else
        let id := next_id st in
        (Ok id,
         MkStore
           (events st ++ [MkEvent id "shopify" webhookId topic None "received" None])
           (orders st) (plates st) (S id))
  end.

(** One entry of the [data] of an update.  A key that the collection
    configuration does not declare is not persisted. *)
Definition setEventField (ev : WebhookEvent) (kv : string * JSON) : WebhookEvent :=
  let (k, v) := kv in
  if negb (existsb (String.eqb k) WebhookEvents_fields) then ev
  else if String.eqb k "provider" then
    MkEvent (ev_id ev) (to_string v) (ev_webhookId ev) (ev_topic ev)
      (ev_orderNumber ev) (ev_status ev) (ev_error ev)
  else if String.eqb k "webhookId" then
    MkEvent (ev_id ev) (ev_provider ev) (to_string v) (ev_topic ev)
      (ev_orderNumber ev) (ev_status ev) (ev_error ev)
  else if String.eqb k "topic" then
    MkEvent (ev_id ev) (ev_provider ev) (ev_webhookId ev) (to_string v)
      (ev_orderNumber ev) (ev_status ev) (ev_error ev)
  else if String.eqb k "orderNumber" then
    MkEvent (ev_id ev) (ev_provider ev) (ev_webhookId ev) (ev_topic ev)
      (Some (to_string v)) (ev_status ev) (ev_error ev)
  else if String.eqb k "status" then
    MkEvent (ev_id ev) (ev_provider ev) (ev_webhookId ev) (ev_topic ev)
      (ev_orderNumber ev) (to_string v) (ev_error ev)
  else
    MkEvent (ev_id ev) (ev_provider ev) (ev_webhookId ev) (ev_topic ev)
      (ev_orderNumber ev) (ev_status ev) (Some (to_string v)).

Definition applyEventData (data : list (string * JSON)) (ev : WebhookEvent)
  : WebhookEvent :=
  fold_left setEventField data ev.

Definition updateEvent (fault : option JSON) (id : nat)
  (data : list (string * JSON)) (st : Store) : result unit * Store :=
  match fault with
  | Some e => (Throw e, st)
  | None =>
      if existsb (fun ev => (ev_id ev =? id)%nat) (events st)
      then
        (Ok tt,
         MkStore
           (map (fun ev => if (ev_id ev =? id)%nat then applyEventData data ev else ev)
                (events st))
           (orders st) (plates st) (next_id st))
      else (Throw notFoundError, st)
  end.

(** *** orders *)

(** [find({ where: { orderNumber: { equals } }, limit: 1 }).docs[0]]: the
    newest order of that number. *)
Definition findOrder (fault : option JSON) (orderNumber : string) (st : Store)
  : result (option Order) :=
  match fault with
  | Some e => Throw e
  | None =>
      Ok (head (rev (List.filter (fun o => String.eqb (or_orderNumber o) orderNumber)
                                 (orders st))))
  end.

(** [update({ collection: 'orders', id, data })]: [invalid] is the result
    of the validation of [data], [f] what [data] changes. *)
Definition updateOrder (fault invalid : option JSON) (id : nat) (f : Order -> Order)
  (st : Store) : result Order * Store :=
  match fault with
  | Some e => (Throw e, st)
  | None =>
      match head (List.filter (fun o => (or_id o =? id)%nat) (orders st)) with
      | None => (Throw notFoundError, st)
      | Some o =>
          match invalid with
          | Some e => (Throw e, st)
          | None =>
              (Ok (f o),
               MkStore (events st)
                 (map (fun o => if (or_id o =? id)%nat then f o else o) (orders st))
                 (plates st) (next_id st))
          end
      end
  end.

(** [create({ collection: 'orders', data })]: the data is validated, then
    inserted unless the order number is taken. *)
Definition createOrder (fault invalid : option JSON) (orderNumber customerEmail : string)
  (st : Store) : result Order * Store :=
  match fault with
  | Some e => (Throw e, st)
  | None =>
      match invalid with
      | Some e => (Throw e, st)
      | None =>
          if existsb (fun o => String.eqb (or_orderNumber o) orderNumber) (orders st)
          then (Throw (uniqueViolation "orders" "orderNumber"), st)
          else
            let o := MkOrder (next_id st) orderNumber customerEmail "paid" [] false in
            (Ok o, MkStore (events st) (orders st ++ [o]) (plates st) (S (next_id st)))
      end
  end.

(** *** plates *)

(** [find({ where: { order: { equals } }, limit: 500 }).docs]: the 500
    newest plates of the order, the newest first. *)
Definition findPlates (fault : option JSON) (orderId : nat) (st : Store)
  : result (list Plate) :=
  match fault with
  | Some e => Throw e
  | None =>
      Ok (take 500
            (rev (List.filter (fun p => (pl_order p =? orderId)%nat) (plates st))))
  end.

Definition createPlate (fault : option JSON)
  (slug : string) (orderId : nat) (sourceKey googleReviewUrl now : string)
  (st : Store) : result nat * Store :=
  match fault with
  | Some e => (Throw e, st)
  | None =>
      if existsb (fun p => String.eqb (pl_sourceKey p) sourceKey) (plates st)
      then (Throw (uniqueViolation "plates" "sourceKey"), st)
      else if existsb (fun p => String.eqb (pl_slug p) slug) (plates st)
      then (Throw (uniqueViolation "plates" "slug"), st)
      else
        let id := next_id st in
        (Ok id,
         MkStore (events st) (orders st)
           (plates st
            ++ [MkPlate id slug orderId googleReviewUrl "activated" sourceKey (Some now)])
           (S id))
  end.

(* ====================================================================== *)
(** ** The webhook handler                                                  *)
(* ====================================================================== *)

(** What the caller observes: a response with a status code, or the
    rejection of the handler's promise by an exception nothing caught. *)
Inductive Outcome : Type :=
| Responded (status : Z)
| Rejected (err : JSON).

(** An element of [createdPlates]. *)
Record CreatedPlate : Type := MkCreated {
  cp_slug : string;
  cp_reviewUrl : string;
  cp_publicUrl : string
}.

(** Observable actions of a run besides the store: updates issued on
    [webhook-events], lines logged, emails sent. *)
Inductive Effect : Type :=
| EventUpdate (id : nat) (data : list (string * JSON))
| Logged (msg : string) (e : JSON)
| EmailSent (to subject html : string).

(** What a creation attempt takes from outside: the random slug, the clock
    and a possible failure of the storage call. *)
Record Attempt : Type := MkAttempt {
  at_slug : string;
  at_now : string;
  at_fault : option JSON
}.

(** Injected failures of the storage and mail calls of one run, in the
    order of the calls, and the supply of creation attempts. *)
Record Faults : Type := MkFaults {
  f_register : option JSON;      (* create webhook-event *)
  f_mark : option JSON;          (* update webhook-event *)
  f_findOrder : option JSON;
  f_saveOrder : option JSON;     (* update or create order *)
  f_findPlates : option JSON;
  f_attempts : nat -> Attempt;   (* n-th plate creation attempt *)
  f_findFinal : option JSON;
  f_finalizeOrder : option JSON;
  f_sendEmail : option JSON
}.

(** State of the plate loop: the store, [existingSourceKeys],
    [createdPlates] and the number of creation attempts made. *)
Record GenState : Type := MkGen {
  g_store : Store;
  g_keys : gset string;
  g_created : list CreatedPlate;
  g_calls : nat
}.

(** How the loop over the units of one group ends. *)
Inductive UnitsOut : Type :=
| UContinue (g : GenState)
| UThrew (e : JSON) (g : GenState).

(** How the loop over the groups ends. *)
Inductive GroupsOut : Type :=
| GDone (g : GenState)
| GFailed (error : string) (g : GenState)   (* markEvent failed, return 200 *)
| GThrew (e : JSON) (g : GenState).

(** [`${orderNumber}|${lineItemId}|${i}`] *)
Definition sourceKey (orderNumber lineItemId : string) (i : Z) : string :=
  orderNumber +:+ "|" +:+ lineItemId +:+ "|" +:+ pretty i.

(** Body of [for (let i = 0; i < g.units; i++)]. *)
Definition createUnit (attempts : nat -> Attempt)
  (orderNumber : string) (orderId : nat) (lineItemId url : string)
  (i : Z) (g : GenState) : UnitsOut :=
  let key := sourceKey orderNumber lineItemId i in
  if bool_decide (key ∈ g_keys g) then UContinue g
  else
    let a := attempts (g_calls g) in
    let slug := at_slug a in
    match createPlate (at_fault a) slug orderId key url (at_now a) (g_store g) with
    | (Ok _, st') =>
        UContinue
          (MkGen st' ({[key]} ∪ g_keys g)
             (g_created g ++ [MkCreated slug url ("/p/" +:+ slug)])
             (S (g_calls g)))
    | (Throw e, st') =>
        if isDuplicateKeyError (Some e)
        then UContinue (MkGen st' (g_keys g) (g_created g) (S (g_calls g)))
        else UThrew e (MkGen st' (g_keys g) (g_created g) (S (g_calls g)))
    end.

(** The loop over [i = first, first + 1, ...], [count] iterations. *)
Fixpoint unitsLoop (attempts : nat -> Attempt)
  (orderNumber : string) (orderId : nat) (lineItemId url : string)
  (count : nat) (first : Z) (g : GenState) : UnitsOut :=
  match count with
  | O => UContinue g
  | S count' =>
      match createUnit attempts orderNumber orderId lineItemId url first g with
      | UContinue g' =>
          unitsLoop attempts orderNumber orderId lineItemId url count' (first + 1) g'
      | UThrew e g' => UThrew e g'
      end
  end.

Section Handler.

(** [JSON.parse]; [None] when it throws. *)
Variable JSON_parse : string -> option JSON.
Variable hmacSha256Base64 : string -> string -> string.
(** Imported by the handler, not part of the sources: the validated form
    of a destination URL, [None] for [null]. *)
Variable normalizeGoogleReviewLinkStrict : string -> option string.
(** The HTML of the notification (it reads the clock). *)
Variable buildEmailHtml :
  string -> string -> list CreatedPlate -> string -> string.
(** Payload's validator of fields of type [email], which is not part of
    the sources. *)
Variable validEmail : string -> bool.

(** [for (const g of groups) { ... }] *)
Fixpoint groupsLoop (attempts : nat -> Attempt)
  (orderNumber : string) (orderId : nat) (groups : list Group) (g : GenState)
  : GroupsOut :=
  match groups with
  | [] => GDone g
  | grp :: rest =>
      if String.eqb (lineItemId grp) ""
      then GFailed "Missing lineItemId (idempotence impossible)" g
      else
        match or_else (normalizeGoogleReviewLinkStrict (reviewUrl grp)) None with
        | None => GFailed ("Invalid Google review URL: " +:+ reviewUrl grp) g
        | Some url =>
            match unitsLoop attempts orderNumber orderId (lineItemId grp) url
                    (Z.to_nat (units grp)) 0 g with
            | UContinue g' => groupsLoop attempts orderNumber orderId rest g'
            | UThrew e g' => GThrew e g'
            end
        end
  end.

(** Section 6 of the handler: the snapshot of the order's plates, the
    set of their source keys, then the loop. *)
Definition generatePlates (fl : Faults)
  (orderNumber : string) (orderId : nat) (groups : list Group) (st : Store)
  : GroupsOut :=
  match findPlates (f_findPlates fl) orderId st with
  | Throw e => GThrew e (MkGen st ∅ [] 0)
  | Ok existingPlates =>
      let existingSourceKeys : gset string :=
        list_to_set
          (List.filter (fun k => negb (String.eqb k ""))
                       (map pl_sourceKey existingPlates)) in
      groupsLoop (f_attempts fl) orderNumber orderId groups
        (MkGen st existingSourceKeys [] 0)
  end.

(** [markEvent(data)]: never throws. *)
Definition markEvent (fault : option JSON) (eventId : option nat)
  (data : list (string * JSON)) (st : Store) : Store * list Effect :=
  match eventId with
  | None => (st, [])
  | Some id =>
      match updateEvent fault id data st with
      | (Ok _, st') => (st', [EventUpdate id data])
      | (Throw e, st') =>
          (st', [EventUpdate id data; Logged "Failed to update webhook-event" e])
      end
  end.

(** Section 1: the gates.  [Some r] is the early return of [r]. *)
Definition gates (env : ProcessEnv) (req : Request) : option Outcome :=
  let topic := getShopifyHeader req "x-shopify-topic" in
  let webhookId := getShopifyHeader req "x-shopify-webhook-id" in
  let hmac := getShopifyHeader req "x-shopify-hmac-sha256" in
  if negb (bool_decide (topic = Some "orders/paid")) then Some (Responded 401)
  else
    match webhookId with
    | None => Some (Responded 401)
    | Some _ =>
        let verifySignature :=
          negb (bool_decide (SHOPIFY_WEBHOOK_VERIFY_SIGNATURE env = Some "false")) in
        if verifySignature then
          match checkShopifySignature hmacSha256Base64 env (rawBody req) hmac with
          | Ok true => None
          | Ok false => Some (Responded 401)
          | Throw _ => Some (Responded 500)
          end
        else None
    end.

(** Sections 7 to 9: the final read, the order update, the ledger write
    and the notification. *)
Definition finalize (env : ProcessEnv) (fl : Faults) (eventId : nat)
  (orderNumber customerEmail : string) (orderId : nat) (g : GenState)
  : Outcome * Store * list Effect :=
  let st := g_store g in
  match findPlates (f_findFinal fl) orderId st with
  | Throw e => (Rejected e, st, [])
  | Ok finalPlates =>
      match updateOrder (f_finalizeOrder fl) None orderId
              (fun o => MkOrder (or_id o) (or_orderNumber o) (or_customerEmail o)
                          (or_status o) (map pl_id finalPlates) true) st with
      | (Throw e, st1) => (Rejected e, st1, [])
      | (Ok _, st1) =>
          let createdPlates := g_created g in
          let '(st2, fx) :=
            markEvent (f_mark fl) (Some eventId)
              [("status", JStr "processed");
               ("orderNumber", JStr orderNumber);
               ("createdPlatesCount", JNum (Z.of_nat (length createdPlates)))]
              st1 in
          let mail :=
            match or_else (PLATES_NOTIFICATION_EMAIL env) None with
            | Some notifyTo =>
                if (0 <? length createdPlates)%nat then
                  match f_sendEmail fl with
                  | None =>
                      [EmailSent notifyTo
                         ("Nouvelles plaques NFC — Commande " +:+ orderNumber)
                         (buildEmailHtml orderNumber customerEmail createdPlates
                            (default "" (or_else (PUBLIC_APP_URL env) None)))]
                  | Some e => [Logged "Admin email notification failed" e]
                  end
                else []
            | None => []
            end in
          (Responded 200, st2, (fx ++ mail)%list)
      end
  end.

(** Sections 3 to 6, after the delivery is registered under [eventId]. *)
Definition processEvent (env : ProcessEnv) (fl : Faults) (req : Request)
  (eventId : nat) (st : Store) : Outcome * Store * list Effect :=
  let failed (data : list (string * JSON)) (st : Store) :=
    let '(st', fx) := markEvent (f_mark fl) (Some eventId) data st in
    (Responded 200, st', fx) in
  match JSON_parse (rawBody req) with
  | None =>
      failed [("status", JStr "failed"); ("error", JStr "Invalid JSON body")] st
  | Some body =>
      let body := Some body in
      let orderNumber :=
        String_ (get "order_number" body ?? get "name" body ?? Some (JStr "")) in
      let customerEmail :=
        String_ (get "email" body ?? get "email" (get "customer" body)
                 ?? Some (JStr "")) in
      if String.eqb orderNumber "" || String.eqb customerEmail "" then
        failed [("status", JStr "failed");
                ("error", JStr "Missing orderNumber or customerEmail")] st
      else
        match extractGroups body with
        | Throw e => (Rejected e, st, [])
        | Ok groups =>
            match groups with
            | [] =>
                failed [("status", JStr "failed");
                        ("orderNumber", JStr orderNumber);
                        ("error", JStr "No Google URL found in line_items")] st
            | _ =>
                if existsb (fun g => (units g =? 0) || (units g <=? 0)) groups then
                  failed
                    [("status", JStr "failed");
                     ("orderNumber", JStr orderNumber);
                     ("error",
                      JStr "Unable to infer pack size from variant_title/name (expected 1/2/5 Plaques).")]
                    st
                else
                  match findOrder (f_findOrder fl) orderNumber st with
                  | Throw e => (Rejected e, st, [])
                  | Ok existing =>
                      let upsert :=
                        match existing with
                        | Some doc =>
                            updateOrder (f_saveOrder fl)
                              (validateOrder validEmail (Some customerEmail))
                              (or_id doc)
                              (fun o => MkOrder (or_id o) (or_orderNumber o)
                                          customerEmail "paid"
                                          (or_plates o) (or_activated o)) st
                        | None =>
                            createOrder (f_saveOrder fl)
                              (validateOrder validEmail (Some customerEmail))
                              orderNumber customerEmail st
                        end in
                      match upsert with
                      | (Throw e, st1) => (Rejected e, st1, [])
                      | (Ok order, st1) =>
                          match generatePlates fl orderNumber (or_id order) groups st1 with
                          | GThrew e g => (Rejected e, g_store g, [])
                          | GFailed error g =>
                              failed [("status", JStr "failed");
                                      ("orderNumber", JStr orderNumber);
                                      ("error", JStr error)] (g_store g)
                          | GDone g =>
                              finalize env fl eventId orderNumber customerEmail
                                (or_id order) g
                          end
                      end
                  end
            end
        end
  end.

(** The handler of [POST /shopify/webhook/orders-paid]. *)
Definition shopifyOrdersPaidWebhook (env : ProcessEnv) (fl : Faults)
  (req : Request) (st : Store) : Outcome * Store * list Effect :=
  match gates env req with
  | Some r => (r, st, [])
  | None =>
      let webhookId := default "" (getShopifyHeader req "x-shopify-webhook-id") in
      let topic := default "" (getShopifyHeader req "x-shopify-topic") in
      match createEvent (f_register fl) webhookId topic st with
      | (Throw err, st') =>
          if isDuplicateKeyError (Some err)
          then (Responded 200, st', [])
          else (Responded 500, st', [])
      | (Ok eventId, st') => processEvent env fl req eventId st'
      end
  end.

End Handler.

(* ====================================================================== *)
(** ** escapeHtml                                                           *)
(* ====================================================================== *)

(** [s.replaceAll(pat, by)] for a pattern that is not empty: occurrences
    are found from the left and do not overlap; [skip] counts the
    characters of an occurrence that remain to be dropped. *)
Fixpoint replaceAll_from (pat by_ : string) (skip : nat) (s : string) : string :=
  match s with
  | EmptyString => EmptyString
  | String d s' =>
      match skip with
      | S k => replaceAll_from pat by_ k s'
      | O =>
          if startsWith pat s
          then by_ +:+ replaceAll_from pat by_ (String.length pat - 1) s'
          else String d (replaceAll_from pat by_ 0 s')
      end
  end.

(** With the empty pattern the replacement goes before every character
    and at the end. *)
Fixpoint replaceAll_empty (by_ s : string) : string :=
  match s with
  | EmptyString => by_
  | String d s' => by_ +:+ String d (replaceAll_empty by_ s')
  end.

(** [s.replaceAll(pat, by)], the replacement holding no [$]. *)
Definition replaceAll (pat by_ s : string) : string :=
  match pat with
  | EmptyString => replaceAll_empty by_ s
  | _ => replaceAll_from pat by_ 0 s
  end.

(** The double quote. *)
Definition dquote : ascii := "034"%char.

Definition escapeHtml (str : string) : string :=
  replaceAll "'" "&#039;"
    (replaceAll (String dquote "") "&quot;"
       (replaceAll ">" "&gt;"
          (replaceAll "<" "&lt;"
             (replaceAll "&" "&amp;" str)))).

(** The entity of one character. *)
Definition escapeChar (c : ascii) : string :=
  if Ascii.eqb c "&" then "&amp;"
  else if Ascii.eqb c "<" then "&lt;"
  else if Ascii.eqb c ">" then "&gt;"
  else if Ascii.eqb c dquote then "&quot;"
  else if Ascii.eqb c "'" then "&#039;"
  else String c "".

(** Every character replaced by its entity, in one pass. *)
Fixpoint escapeEach (s : string) : string :=
  match s with
  | EmptyString => EmptyString
  | String c s' => escapeChar c +:+ escapeEach s'
  end.

(** The characters that delimit markup and attribute values. *)
Definition isMarkup (c : ascii) : bool :=
  Ascii.eqb c "<" || Ascii.eqb c ">" || Ascii.eqb c dquote || Ascii.eqb c "'".

(* ====================================================================== *)
(** ** purgeWebhookEvents                                                   *)
(* ====================================================================== *)

(** The collection keeps timestamps: [createdAt] is set by the storage
    engine when a record is inserted and is a function of the id of the
    record, in milliseconds since the epoch.  [keepDays] is taken to be an
    integer. *)

(** The largest time value of a [Date]; [toISOString] throws a
    [RangeError] beyond it. *)
Definition maxTimeValue : Z := 8640000000000000.

(** [new Date(Date.now() - keepDays * 24 * 60 * 60 * 1000).toISOString()],
    as the instant it denotes. *)
Definition cutoffOf (now keepDays : Z) : result Z :=
  let t := now - keepDays * 24 * 60 * 60 * 1000 in
  if Z.abs t >? maxTimeValue then Throw (Error_ "Invalid time value") else Ok t.

(** [status: { in: ['processed', 'failed'] }] *)
Definition isFinal (ev : WebhookEvent) : bool :=
  existsb (String.eqb (ev_status ev)) ["processed"; "failed"].

(** [payload.delete({ collection: 'webhook-events', where })] *)
Definition deleteEvents (fault : option JSON) (where_ : WebhookEvent -> bool)
  (st : Store) : result unit * Store :=
  match fault with
  | Some e => (Throw e, st)
  | None =>
      (Ok tt,
       MkStore (List.filter (fun ev => negb (where_ ev)) (events st))
         (orders st) (plates st) (next_id st))
  end.

Definition purgeOnce (createdAt : nat -> Z) (fault : option JSON)
  (now keepDays : Z) (st : Store) : result unit * Store :=
  match cutoffOf now keepDays with
  | Throw e => (Throw e, st)
  | Ok cutoff =>
      deleteEvents fault
        (fun ev => (createdAt (ev_id ev) <? cutoff) && isFinal ev) st
  end.

(** [purgeOnce(payload, keepDays).catch(err => logger.error(err, label))] *)
Definition purgeRun (label : string) (createdAt : nat -> Z) (fault : option JSON)
  (now keepDays : Z) (st : Store) : Store * list Effect :=
  match purgeOnce createdAt fault now keepDays st with
  | (Ok _, st') => (st', [])
  | (Throw e, st') => (st', [Logged label e])
  end.

(** One firing of the purge: the clock it reads and the failure its
    storage call meets. *)
Record Tick : Type := MkTick {
  tk_now : Z;
  tk_fault : option JSON
}.

(** [startWebhookEventsPurge(payload, { keepDays })]: the run at boot,
    then the runs that the timer fires; the interval only decides when
    they fire. *)
Definition startWebhookEventsPurge (createdAt : nat -> Z) (keepDays : option Z)
  (boot : Tick) (ticks : list Tick) (st : Store) : Store * list Effect :=
  let keepDays := default 30 keepDays in
  fold_left
    (fun acc tk =>
       let '(st, fx) := acc in
       let '(st', fx') :=
         purgeRun "Webhook events purge failed (interval)" createdAt
           (tk_fault tk) (tk_now tk) keepDays st in
       (st', (fx ++ fx')%list))
    ticks
    (purgeRun "Webhook events purge failed (boot)" createdAt
       (tk_fault boot) (tk_now boot) keepDays st).

(* ====================================================================== *)
(** ** Vocabulary of the statements                                         *)
(* ====================================================================== *)

(** The supported pack sizes. *)
Definition allowedPack (n : Z) : Prop := n = 1 \/ n = 2 \/ n = 5.

(** [needle] occurs in [s]. *)
Definition occursIn (needle s : string) : Prop :=
  exists pre post, s = pre +:+ needle +:+ post.

(** The substrings that make an error text a duplicate-key report. *)
Definition duplicateMarkers : list string :=
  ["e11000"; "duplicate"; "unique"; "already exists"; "has already been taken"].

(** No character of [s] is a decimal digit. *)
Fixpoint digitFree (s : string) : Prop :=
  match s with
  | EmptyString => True
  | String c s' => is_digit c = false /\ digitFree s'
  end.

(** A line item as the source platform sends it, by the two descriptor
    fields the resolver reads. *)
Definition labelled (variant_title name : string) : option JSON :=
  Some (JObj [("variant_title", JStr variant_title); ("name", JStr name)]).

(** A line item by its two quantity fields ([None]: the field is absent). *)
Definition withQuantities (quantity current_quantity : option JSON) : option JSON :=
  Some (JObj ((match quantity with Some q => [("quantity", q)] | None => [] end)
              ++ (match current_quantity with
                  | Some q => [("current_quantity", q)]
                  | None => []
                  end))).

(** [Number(v)], replaced by 1 unless finite and positive. *)
Definition positiveOr1 (v : option JSON) : Z :=
  match Number_ v with
  | Num z => if 0 <? z then z else 1
  | NaN => 1
  end.

(** [null] or [undefined]. *)
Definition isNullish (v : option JSON) : Prop := v = None \/ v = Some JNull.

(** *** Scenarios *)

(** Stubs for the parameters of the handler that a scenario does not use. *)
Definition noHmac (secret body : string) : string := "".
Definition noHtml (orderNumber customerEmail : string)
  (created : list CreatedPlate) (publicBaseUrl : string) : string := "".
Definition acceptUrl (url : string) : option string := Some url.

(** A validation of e-mails that asks for an at sign. *)
Definition emailWithAt (e : string) : bool := includes "@" e.

(** Creation attempts that never fail and draw the slugs [s0], [s1], ... *)
Definition freshAttempts (n : nat) : Attempt :=
  MkAttempt ("s" +:+ pretty n) "2026-01-01T00:00:00.000Z" None.

Definition noFaults : Faults :=
  MkFaults None None None None None freshAttempts None None None.

Definition emptyStore : Store := MkStore [] [] [] 0.

(** Signature verification switched off, no notification address. *)
Definition unverifiedEnv : ProcessEnv := MkEnv (Some "false") None None None.

(** Signature verification on (the default), no secret configured. *)
Definition noSecretEnv : ProcessEnv := MkEnv None None None None.

(** A delivery [w1] of topic [orders/paid] with the given raw body and no
    signature header. *)
Definition delivery (raw : string) : Request :=
  MkRequest raw
    [("x-shopify-topic", "orders/paid"); ("x-shopify-webhook-id", "w1")].

(** The same delivery with a signature header. *)
Definition signedDelivery (raw signature : string) : Request :=
  MkRequest raw
    [("x-shopify-topic", "orders/paid"); ("x-shopify-webhook-id", "w1");
     ("x-shopify-hmac-sha256", signature)].

(** A storage failure that is no uniqueness violation and whose message
    holds the word [unique]. *)
Definition misreportedFailure : JSON :=
  Error_ "connection reset while reading the unique index".

(** A storage failure whose message holds none of the markers. *)
Definition plainFailure : JSON := Error_ "connection reset".

(** A run whose registration insert fails with [e]. *)
Definition failingRegistration (e : JSON) : Faults :=
  MkFaults (Some e) None None None None freshAttempts None None None.

(** A line item that carries the destination property
    [google_business_url], with the fields the pipeline reads and further
    fields [more]. *)
Definition googleLine (id : string) (quantity : Z) (variant_title url : string)
  (more : list (string * JSON)) : JSON :=
  JObj ([("id", JStr id);
         ("quantity", JNum quantity);
         ("variant_title", JStr variant_title);
         ("properties",
          JArr [JObj [("name", JStr "google_business_url"); ("value", JStr url)]])]
        ++ more).

(** The payload of an [orders/paid] event. *)
Definition paidOrder (order_number : Z) (email : string) (line_items : list JSON)
  : JSON :=
  JObj [("order_number", JNum order_number);
        ("email", JStr email);
        ("line_items", JArr line_items)].

Definition reviewLink : string := "https://g.page/r/ABC123/review".

(** *** Views of the store and of the plate loop *)

Definition sourceKeys (st : Store) : list string := map pl_sourceKey (plates st).

Definition slugs (st : Store) : list string := map pl_slug (plates st).

Definition webhookIds (st : Store) : list string := map ev_webhookId (events st).

(** The state in which the loop over the groups ended. *)
Definition out_state (out : GroupsOut) : GenState :=
  match out with
  | GDone g | GFailed _ g | GThrew _ g => g
  end.

(** Number of plate rows that carry the source key [k]. *)
Definition countKey (k : string) (st : Store) : nat :=
  length (List.filter (fun p => String.eqb (pl_sourceKey p) k) (plates st)).

(** Creation attempts that meet no failure of the infrastructure and draw
    slugs that are new to the store and pairwise distinct. *)
Definition cleanAttempts (attempts : nat -> Attempt) (st : Store) : Prop :=
  (forall n, at_fault (attempts n) = None)
  /\ (forall n, ~ In (at_slug (attempts n)) (slugs st))
  /\ (forall n m, at_slug (attempts n) = at_slug (attempts m) -> n = m).

(** Groups that pass the two checks at the head of the loop body. *)
Definition validGroup (normalize : string -> option string) (grp : Group) : Prop :=
  lineItemId grp <> ""
  /\ exists c url, normalize (reviewUrl grp) = Some (String c url).

(** The destination value of a line item, if it has one. *)
Definition relevantUrl (item : JSON) : option string :=
  match get "properties" (Some item) with
  | Some (JArr l) => findReviewUrlInProperties l
  | _ => None
  end.

(** A line item that has a destination value and whose label resolves to
    no pack size. *)
Definition unresolvedLine (item : JSON) : Prop :=
  exists c url, relevantUrl item = Some (String c url)
                /\ getPackSize (Some item) = None.

(** [orderNumber] and [customerEmail] as the handler reads them. *)
Definition orderNumberOf (body : option JSON) : string :=
  String_ (get "order_number" body ?? get "name" body ?? Some (JStr "")).

Definition customerEmailOf (body : option JSON) : string :=
  String_ (get "email" body ?? get "email" (get "customer" body) ?? Some (JStr "")).

(** The DeliveryRecord that the registration of [req] inserts. *)
Definition receivedEvent (req : Request) (st : Store) : WebhookEvent :=
  MkEvent (next_id st) "shopify"
    (default "" (getShopifyHeader req "x-shopify-webhook-id"))
    (default "" (getShopifyHeader req "x-shopify-topic"))
    None "received" None.

(** A parser that knows one text. *)
Definition parseAs (raw : string) (body : JSON) (s : string) : option JSON :=
  if String.eqb s raw then Some body else None.

(** An event with one relevant line whose label names an unsupported pack
    size. *)
Definition unsupportedPackOrder : JSON :=
  paidOrder 1001 "client@example.com"
    [googleLine "li_77" 1 "10 Plaques" reviewLink []].

(** The rows that the loop over [count] units starting at index [first]
    inserts when every unit is missing: unit [first + j] takes the id
    [id + j] and the slug and clock of attempt [calls + j]. *)
Fixpoint freshPlates (attempts : nat -> Attempt)
  (orderNumber : string) (orderId : nat) (lineItemId url : string)
  (count : nat) (first : Z) (id calls : nat) : list Plate :=
  match count with
  | O => []
  | S count' =>
      MkPlate id (at_slug (attempts calls)) orderId url "activated"
        (sourceKey orderNumber lineItemId first) (Some (at_now (attempts calls)))
      :: freshPlates attempts orderNumber orderId lineItemId url count'
           (first + 1) (S id) (S calls)
  end.

(** The entries of [createdPlates] for the same rows. *)
Fixpoint freshCreated (attempts : nat -> Attempt) (url : string)
  (count calls : nat) : list CreatedPlate :=
  match count with
  | O => []
  | S count' =>
      MkCreated (at_slug (attempts calls)) url ("/p/" +:+ at_slug (attempts calls))
      :: freshCreated attempts url count' (S calls)
  end.

(** An event for one line of two packs of two plates. *)
Definition packOfTwoOrder (email : string) : JSON :=
  paidOrder 1001 email [googleLine "li_77" 2 "2 Plaques" reviewLink []].

(** No storage call of the run, outside the plate creations, meets a
    failure of the infrastructure. *)
Definition noStorageFaults (fl : Faults) : Prop :=
  f_register fl = None /\ f_mark fl = None /\ f_findOrder fl = None
  /\ f_saveOrder fl = None /\ f_findPlates fl = None /\ f_findFinal fl = None
  /\ f_finalizeOrder fl = None.

(** The [data] of the ledger write that ends a successful run. *)
Definition processedData (orderNumber : string) (createdPlates : list CreatedPlate)
  : list (string * JSON) :=
  [("status", JStr "processed");
   ("orderNumber", JStr orderNumber);
   ("createdPlatesCount", JNum (Z.of_nat (length createdPlates)))].

(** The state in which the loop over the units ended. *)
Definition units_state (out : UnitsOut) : GenState :=
  match out with
  | UContinue g | UThrew _ g => g
  end.

(** The source keys that the snapshot of the order [orderId] holds:
    [existingSourceKeys] at the start of the plate loop. *)
Definition snapshotKeys (orderId : nat) (st : Store) : gset string :=
  list_to_set
    (List.filter (fun k => negb (String.eqb k ""))
       (map pl_sourceKey
          (take 500
             (rev (List.filter (fun p => (pl_order p =? orderId)%nat) (plates st)))))).

(** [k] is the source key of a unit of one of [groups]. *)
Definition unitKey (orderNumber : string) (groups : list Group) (k : string) : Prop :=
  exists grp i,
    In grp groups /\ 0 <= i < units grp
    /\ k = sourceKey orderNumber (lineItemId grp) i.

(** The snapshot sees every unit that has a plate already: the plate
    belongs to the order and is among the 500 that the read returns. *)
Definition snapshotCovers (orderNumber : string) (orderId : nat)
  (groups : list Group) (st : Store) : Prop :=
  forall k,
    unitKey orderNumber groups k ->
    In k (sourceKeys st) -> k ∈ snapshotKeys orderId st.

(** What holds of the plate loop, started on the store [st0], between two
    units: source keys are unique in the store, the set of known keys
    holds keys of the store only and every stored key among the [watched]
    ones, every slug of the store was there at the start or was drawn by
    an earlier attempt, and no key of [st0] was lost. *)
Definition loopInv (watched : string -> Prop) (attempts : nat -> Attempt)
  (st0 : Store) (g : GenState) : Prop :=
  NoDup (sourceKeys (g_store g))
  /\ (forall k, k ∈ g_keys g -> In k (sourceKeys (g_store g)))
  /\ (forall s, In s (slugs (g_store g)) ->
                In s (slugs st0)
                \/ exists n, (n < g_calls g)%nat /\ s = at_slug (attempts n))
  /\ (forall k, In k (sourceKeys st0) -> In k (sourceKeys (g_store g)))
  /\ (forall k, watched k -> In k (sourceKeys (g_store g)) -> k ∈ g_keys g).

(** Every unit of every group has a plate row in [st]. *)
Definition allUnitsPresent (orderNumber : string) (groups : list Group) (st : Store)
  : Prop :=
  forall grp i,
    In grp groups -> 0 <= i < units grp ->
    In (sourceKey orderNumber (lineItemId grp) i) (sourceKeys st).

(** A run whose first plate creation fails with [e]. *)
Definition failingCreation (e : JSON) : Faults :=
  MkFaults None None None None None
    (fun n => match n with
              | O => MkAttempt "s0" "2026-01-01T00:00:00.000Z" (Some e)
              | S _ => freshAttempts n
              end)
    None None None.

(** One unit of line [li_77]. *)
Definition singleUnit : list Group := [MkGroup reviewLink 1 "li_77"].

(** *** What a match is *)

(** A literal character under the [i] flag. *)
Definition char_matches (ci : bool) (c d : ascii) : bool :=
  if ci then Ascii.eqb (lower_ascii c) (lower_ascii d) else Ascii.eqb c d.

(** [matches ci r s s']: the expression [r] can take the matcher from the
    state [s] to the state [s'].  The relation says which matches exist;
    [rmatch] chooses among them. *)
Inductive matches (ci : bool) : regex -> mstate -> mstate -> Prop :=
| M_Eps s :
    matches ci REps s s
| M_Char c d rest s :
    m_rest s = String d rest ->
    char_matches ci c d = true ->
    matches ci (RChar c) s (MState (Some d) rest (S (m_pos s)) (m_caps s))
| M_Class neg cls d rest s :
    m_rest s = String d rest ->
    xorb neg (cls d) = true ->
    matches ci (RClass neg cls) s (MState (Some d) rest (S (m_pos s)) (m_caps s))
| M_Bol s :
    m_prev s = None ->
    matches ci RBol s s
| M_WordB s :
    xorb (word_before s) (word_after s) = true ->
    matches ci RWordB s s
| M_Seq r1 r2 s s1 s2 :
    matches ci r1 s s1 -> matches ci r2 s1 s2 ->
    matches ci (RSeq r1 r2) s s2
| M_AltL r1 r2 s s' :
    matches ci r1 s s' -> matches ci (RAlt r1 r2) s s'
| M_AltR r1 r2 s s' :
    matches ci r2 s s' -> matches ci (RAlt r1 r2) s s'
| M_StarNil r s :
    matches ci (RStar r) s s
| M_StarCons r s s1 s2 :
    matches ci r s s1 -> (m_pos s < m_pos s1)%nat ->
    matches ci (RStar r) s1 s2 ->
    matches ci (RStar r) s s2
| M_Cap i r s s' :
    matches ci r s s' ->
    matches ci (RCap i r) s
      (MState (m_prev s') (m_rest s') (m_pos s')
         ((i, take_string (m_pos s' - m_pos s) (m_rest s)) :: m_caps s')).

(** Every character of [s] satisfies [cls]. *)
Fixpoint allOf (cls : ascii -> bool) (s : string) : Prop :=
  match s with
  | EmptyString => True
  | String c s' => cls c = true /\ allOf cls s'
  end.

(** The character before the position reached after reading [w] from a
    position whose previous character is [prev]. *)
Fixpoint lastOr (prev : option ascii) (w : string) : option ascii :=
  match w with
  | EmptyString => prev
  | String c w' => lastOr (Some c) w'
  end.

(** [s] does not start with a character of the class [cls]. *)
Definition notAhead (cls : ascii -> bool) (s : string) : Prop :=
  match s with
  | EmptyString => True
  | String c _ => cls c = false
  end.

(* ---------------------------------------------------------------------- *)
(** *** Properties of a line item                                           *)
(* ---------------------------------------------------------------------- *)

(** The name of a property as both searches read it:
    [String(p?.name ?? "")]. *)
Definition propertyName (p : JSON) : string :=
  String_ (get "name" (Some p) ?? Some (JStr "")).

(** The property carries the preferred name. *)
Definition exactName (p : JSON) : Prop :=
  toLowerCase (trim (propertyName p)) = "google_business_url".

(** The name of the property mentions [google], in any case. *)
Definition looseName (p : JSON) : Prop :=
  occursIn "google" (toLowerCase (propertyName p)).

(** The line items that [extractGroups] walks through. *)
Definition lineItemsOf (body : option JSON) : list JSON :=
  match get "line_items" body with
  | Some (JArr l) => l
  | _ => []
  end.

(** The group that a line item contributes, if any. *)
Definition pushed (item : JSON) : option Group :=
  match extractItem item with
  | Push g => Some g
  | _ => None
  end.

(** The line item makes the loop throw. *)
Definition raises (item : JSON) : Prop :=
  exists e, extractItem item = Raise e.

(* ---------------------------------------------------------------------- *)
(** *** Rows inserted by a run                                              *)
(* ---------------------------------------------------------------------- *)

(** The entry of [createdPlates] that is pushed when the row [r] has been
    inserted. *)
Definition createdOf (r : Plate) : CreatedPlate :=
  MkCreated (pl_slug r) (pl_googleReviewUrl r) ("/p/" +:+ pl_slug r).

(** The row [r] is the plate of a unit of one of [groups], made for the
    order [orderId] with the validated form of the destination of its
    group. *)
Definition unitRow (normalize : string -> option string)
  (orderNumber : string) (orderId : nat) (groups : list Group) (r : Plate) : Prop :=
  pl_order r = orderId
  /\ pl_status r = "activated"
  /\ exists grp i,
       In grp groups
       /\ 0 <= i < units grp
       /\ pl_sourceKey r = sourceKey orderNumber (lineItemId grp) i
       /\ normalize (reviewUrl grp) = Some (pl_googleReviewUrl r).

(** Between the states [g] and [g'] of the plate loop the rows [rows]
    were inserted, each satisfying [P], and nothing else happened to the
    store: the rows are at the end of the collection, under the next free
    ids, and [createdPlates] grew by their entries. *)
Definition appended (P : Plate -> Prop) (rows : list Plate) (g g' : GenState) : Prop :=
  plates (g_store g') = (plates (g_store g) ++ rows)%list
  /\ orders (g_store g') = orders (g_store g)
  /\ events (g_store g') = events (g_store g)
  /\ next_id (g_store g') = (next_id (g_store g) + length rows)%nat
  /\ map pl_id rows = seq (next_id (g_store g)) (length rows)
  /\ g_created g' = (g_created g ++ map createdOf rows)%list
  /\ Forall P rows.

(** The row [r] is the plate of a unit of a group extracted from the body
    of the request. *)
Definition payloadRow (parse : string -> option JSON)
  (normalize : string -> option string) (req : Request) (r : Plate) : Prop :=
  exists body groups,
    parse (rawBody req) = Some body
    /\ extractGroups (Some body) = Ok groups
    /\ unitRow normalize (orderNumberOf (Some body)) (pl_order r) groups r.

(** The count that a ledger write carries, if it carries one. *)
Definition reportedCount (fx : list Effect) (n : Z) : Prop :=
  exists id data,
    In (EventUpdate id data) fx
    /\ assoc "createdPlatesCount" data = Some (JNum n).

(** The notifications among the effects of a run. *)
Definition emailsOf (fx : list Effect) : list Effect :=
  List.filter (fun x => match x with EmailSent _ _ _ => true | _ => false end) fx.

(* ---------------------------------------------------------------------- *)
(** *** Invariants of the store                                             *)
(* ---------------------------------------------------------------------- *)

(** The order [orderId] of [st] carries the number [orderNumber]. *)
Definition theOrder (orderNumber : string) (orderId : nat) (st : Store) : Prop :=
  exists o, In o (orders st) /\ or_id o = orderId /\ or_orderNumber o = orderNumber.

(** [Inv] is kept by every write that a run issues for the order number
    [orderNumber] under the delivery record [eventId]: the updates of that
    record, which never carry the delivery id; the creation of the order;
    the updates of the order, which keep its id and its number; and the
    creation of plates of that order, keyed by its number. *)
Definition keptByWrites (orderNumber : string) (eventId : nat) (Inv : Store -> Prop)
  : Prop :=
  (forall fault data st,
      Forall (fun kv => fst kv <> "webhookId") data ->
      Inv st -> Inv (updateEvent fault eventId data st).2)
  /\ (forall fault invalid email st,
        Inv st -> Inv (createOrder fault invalid orderNumber email st).2)
  /\ (forall fault invalid oid f st,
        (forall o, or_id (f o) = or_id o /\ or_orderNumber (f o) = or_orderNumber o) ->
        theOrder orderNumber oid st ->
        Inv st -> Inv (updateOrder fault invalid oid f st).2)
  /\ (forall fault slug oid lid i url now st,
        theOrder orderNumber oid st ->
        Inv st ->
        Inv (createPlate fault slug oid (sourceKey orderNumber lid i) url now st).2).

(** What the storage engine guarantees and the pipeline maintains: the
    fields declared unique hold distinct values, the ids of the orders are
    distinct, every id is below the next free one, and every plate points
    to an order of the store whose number opens the source key of the
    plate. *)
Definition wellFormed (st : Store) : Prop :=
  NoDup (webhookIds st)
  /\ NoDup (map or_orderNumber (orders st))
  /\ NoDup (sourceKeys st)
  /\ NoDup (slugs st)
  /\ NoDup (map or_id (orders st))
  /\ Forall (fun id => (id < next_id st)%nat) (map ev_id (events st))
  /\ Forall (fun id => (id < next_id st)%nat) (map or_id (orders st))
  /\ Forall (fun id => (id < next_id st)%nat) (map pl_id (plates st))
  /\ Forall (fun p => exists o,
                 In o (orders st)
                 /\ or_id o = pl_order p
                 /\ startsWith (or_orderNumber o +:+ "|") (pl_sourceKey p) = true)
       (plates st).

(** The stores that deliveries can produce, starting from the empty
    store, whatever the requests, the configuration, the collaborators
    and the failures met. *)
Inductive reachable : Store -> Prop :=
| reach_empty : reachable emptyStore
| reach_run parse hmac normalize html validEmail env fl req st :
    reachable st ->
    reachable (shopifyOrdersPaidWebhook parse hmac normalize html validEmail env fl req st).1.2.

(** The delivery record that a run on [st] registers for [req]. *)
Definition ownRecord (req : Request) (st : Store) (ev : WebhookEvent) : Prop :=
  ev_id ev = next_id st
  /\ ev_webhookId ev = default "" (getShopifyHeader req "x-shopify-webhook-id").

(** The text holds no vertical bar, the separator of the source keys. *)
Definition barFree (s : string) : Prop :=
  allOf (fun c => negb (Ascii.eqb c "|")) s.

(** The failures of the business data that the handler records itself,
    with the message it records: a body that does not parse, a body
    without order number or customer e-mail, a body none of whose lines
    yields a group. *)
Inductive businessFailure (parse : string -> option JSON) (req : Request)
  : string -> Prop :=
| bf_invalid_json :
    parse (rawBody req) = None ->
    businessFailure parse req "Invalid JSON body"
| bf_missing_field body :
    parse (rawBody req) = Some body ->
    orderNumberOf (Some body) = "" \/ customerEmailOf (Some body) = "" ->
    businessFailure parse req "Missing orderNumber or customerEmail"
| bf_no_group body :
    parse (rawBody req) = Some body ->
    orderNumberOf (Some body) <> "" ->
    customerEmailOf (Some body) <> "" ->
    extractGroups (Some body) = Ok [] ->
    businessFailure parse req "No Google URL found in line_items".

(** The run marked its delivery record [processed]. *)
Definition marksProcessed (fx : list Effect) : Prop :=
  exists id data,
    In (EventUpdate id data) fx
    /\ assoc "status" data = Some (JStr "processed").

(** The plates that the order [o] lists are those that the final read
    returns for it: the 500 newest plates of [st] that point to it, the
    newest first. *)
Definition listsItsPlates (st : Store) (o : Order) : Prop :=
  or_plates o
  = map pl_id
      (take 500 (rev (List.filter (fun p => (pl_order p =? or_id o)%nat) (plates st)))).

(* ====================================================================== *)
(** * Properties                                                            *)
(* ====================================================================== *)

(** ** Strings *)

Lemma startsWith_spec p s : startsWith p s = true <-> exists post, s = p +:+ post.
Proof.
  revert s; induction p as [|a p IH]; intros s; simpl.
  - split; [intros _; exists s; reflexivity | reflexivity].
  - destruct s as [|b s]; simpl.
    + split; [discriminate | intros [post H]; discriminate].
    + rewrite andb_true_iff, IH. split.
      * intros [Hab [post ->]]. apply Ascii.eqb_eq in Hab as ->. exists post; reflexivity.
      * intros [post H]. injection H as -> ->. split; [apply Ascii.eqb_refl | eauto].
Qed.

Lemma includes_spec needle s : includes needle s = true <-> occursIn needle s.
Proof.
  unfold occursIn. induction s as [|c s IH].
  - simpl. rewrite orb_false_r, startsWith_spec. split.
    + intros [post H]. exists "", post. exact H.
    + intros [pre [post H]]. destruct pre; [exists post; exact H | discriminate].
  - cbn [includes]. rewrite orb_true_iff, startsWith_spec, IH. split.
    + intros [[post H] | [pre [post H]]].
      * exists "", post. exact H.
      * exists (String c pre), post. rewrite H. reflexivity.
    + intros [pre [post H]]. destruct pre as [|d pre].
      * left. exists post. exact H.
      * right. injection H as -> ->. eauto.
Qed.

(** ** isDuplicateKeyError *)

(** The refusals of the unique indexes are not recognised: their own
    message names the field and holds no marker, and the reason, which
    holds one, is under [data.errors] where the search does not look once
    the own message is there. *)
Lemma uniqueViolation_unclassified :
  isDuplicateKeyError (Some (uniqueViolation "webhook-events" "webhookId")) = false
  /\ isDuplicateKeyError (Some (uniqueViolation "plates" "sourceKey")) = false
  /\ isDuplicateKeyError (Some (uniqueViolation "plates" "slug")) = false
  /\ isDuplicateKeyError (Some (uniqueViolation "orders" "orderNumber")) = false.
Proof. repeat split; vm_compute; reflexivity. Qed.

Lemma existsb_includes_spec markers s :
  existsb (fun m => includes m s) markers = true
  <-> exists m, In m markers /\ occursIn m s.
Proof.
  rewrite existsb_exists. split; intros [m [Hin H]]; exists m; split; auto;
    apply includes_spec; exact H.
Qed.

Lemma isDuplicateKeyError_markers err :
  isDuplicateKeyError err
  = hasCode11000 err || existsb (fun m => includes m (errorText err)) duplicateMarkers.
Proof.
  unfold isDuplicateKeyError, duplicateMarkers. simpl.
  rewrite orb_false_r, <- !orb_assoc. reflexivity.
Qed.

Lemma hasCode11000_spec err :
  hasCode11000 err = true <-> get "code" err = Some (JNum 11000).
Proof.
  unfold hasCode11000.
  destruct (get "code" err) as [[| | z | | |]|];
    try (split; [discriminate | intros H; discriminate H]).
  rewrite Z.eqb_eq. split; [intros -> | intros [= ->]]; reflexivity.
Qed.

Lemma nullish_default (a b : option JSON) : isNullish a -> a ?? b = b.
Proof. intros [-> | ->]; reflexivity. Qed.

Lemma nullish_value (a b : option JSON) (v : JSON) :
  a = Some v -> v <> JNull -> a ?? b = Some v.
Proof. intros -> Hv. destruct v; try reflexivity. congruence. Qed.

(** C10.  [isDuplicateKeyError] answers true exactly when the error's code
    is 11000 or the text it searches holds one of the five markers.  That
    text is lower-cased and is the text of the first value that is not
    nullish among the error's own message, [data.message],
    [data.errors[0].message] and [errors[0].message], else of the error
    itself: a marker in upper case, in a nested message or in a thrown
    string is found, a message without marker is not.  Consequently a
    registration insert that fails for another reason than uniqueness (the
    delivery id is not in the store) with the word [unique] in its message
    is answered with 200, the delivery left unregistered, where the same
    failure without a marker is answered with 500. *)
Theorem duplicate_classification_by_substring :
  (forall err,
      isDuplicateKeyError err = true
      <-> get "code" err = Some (JNum 11000)
          \/ exists m,
               In m ["e11000"; "duplicate"; "unique"; "already exists";
                     "has already been taken"]
               /\ occursIn m (errorText err))
  /\ (forall err v,
        get "message" err = Some v -> v <> JNull ->
        errorText err = toLowerCase (to_string v))
  /\ (forall err v,
        isNullish (get "message" err) ->
        get "message" (get "data" err) = Some v -> v <> JNull ->
        errorText err = toLowerCase (to_string v))
  /\ (forall err v,
        isNullish (get "message" err) ->
        isNullish (get "message" (get "data" err)) ->
        get "message" (get0 (get "errors" (get "data" err))) = Some v -> v <> JNull ->
        errorText err = toLowerCase (to_string v))
  /\ (forall err v,
        isNullish (get "message" err) ->
        isNullish (get "message" (get "data" err)) ->
        isNullish (get "message" (get0 (get "errors" (get "data" err)))) ->
        get "message" (get0 (get "errors" err)) = Some v -> v <> JNull ->
        errorText err = toLowerCase (to_string v))
  /\ (forall err,
        isNullish (get "message" err) ->
        isNullish (get "message" (get "data" err)) ->
        isNullish (get "message" (get0 (get "errors" (get "data" err)))) ->
        isNullish (get "message" (get0 (get "errors" err))) ->
        errorText err = toLowerCase (String_ err))
  /\ isDuplicateKeyError (Some (JObj [("message", JStr "Duplicate entry")])) = true
  /\ isDuplicateKeyError
       (Some (JObj [("data",
                     JObj [("errors",
                            JArr [JObj [("message", JStr "Value must be UNIQUE")]])])]))
     = true
  /\ isDuplicateKeyError
       (Some (JObj [("errors", JArr [JObj [("message", JStr "has already been taken")]])]))
     = true
  /\ isDuplicateKeyError (Some (JStr "Key (slug) already exists")) = true
  /\ isDuplicateKeyError (Some (JObj [("code", JNum 11000)])) = true
  /\ isDuplicateKeyError (Some (JObj [("code", JStr "11000")])) = false
  /\ isDuplicateKeyError (Some plainFailure) = false
  /\ (forall parse hmac normalize html validEmail,
        existsb (fun ev => String.eqb (ev_webhookId ev) "w1") (events emptyStore)
        = false
        /\ occursIn "unique" (errorText (Some misreportedFailure))
        /\ shopifyOrdersPaidWebhook parse hmac normalize html validEmail
             unverifiedEnv (failingRegistration misreportedFailure)
             (delivery "{}") emptyStore
           = (Responded 200, emptyStore, [])
        /\ shopifyOrdersPaidWebhook parse hmac normalize html validEmail
             unverifiedEnv (failingRegistration plainFailure)
             (delivery "{}") emptyStore
           = (Responded 500, emptyStore, [])).
Proof.
  split.
  { intros err. rewrite isDuplicateKeyError_markers, orb_true_iff,
      hasCode11000_spec, existsb_includes_spec. reflexivity. }
  split.
  { intros err v Hm Hv. unfold errorText.
    rewrite (nullish_value _ _ v Hm Hv).
    rewrite !(nullish_value (Some v) _ v eq_refl Hv). reflexivity. }
  split.
  { intros err v H1 Hm Hv. unfold errorText.
    rewrite (nullish_default _ _ H1), (nullish_value _ _ v Hm Hv).
    rewrite !(nullish_value (Some v) _ v eq_refl Hv). reflexivity. }
  split.
  { intros err v H1 H2 Hm Hv. unfold errorText.
    rewrite (nullish_default _ _ H1), (nullish_default _ _ H2),
      (nullish_value _ _ v Hm Hv).
    rewrite !(nullish_value (Some v) _ v eq_refl Hv). reflexivity. }
  split.
  { intros err v H1 H2 H3 Hm Hv. unfold errorText.
    rewrite (nullish_default _ _ H1), (nullish_default _ _ H2),
      (nullish_default _ _ H3), (nullish_value _ _ v Hm Hv). reflexivity. }
  split.
  { intros err H1 H2 H3 H4. unfold errorText.
    rewrite (nullish_default _ _ H1), (nullish_default _ _ H2),
      (nullish_default _ _ H3), (nullish_default _ _ H4). reflexivity. }
  do 7 (split; [vm_compute; reflexivity|]).
  intros parse hmac normalize html validEmail.
  split; [reflexivity|]. split; [apply includes_spec; reflexivity|].
  split; reflexivity.
Qed.

(** ** getPackSize *)

Lemma toLowerCase_idem s : toLowerCase (toLowerCase s) = toLowerCase s.
Proof.
  induction s as [|c s IH]; [reflexivity|].
  simpl. rewrite IH. f_equal.
  destruct c as [[] [] [] [] [] [] [] []]; reflexivity.
Qed.

(** The pattern needs a digit: it matches nowhere in a digit-free text. *)
Lemma packRegex_needs_digit prev s :
  digitFree s -> search_from true packRegex prev s = None.
Proof.
  revert prev. induction s as [|c s IH]; intros prev Hs.
  - destruct prev; reflexivity.
  - destruct Hs as [Hc Hs]. cbn [search_from]. rewrite (IH (Some c) Hs).
    unfold packRegex. cbn. rewrite Hc. cbn.
    destruct s as [|d s].
    + destruct prev; reflexivity.
    + destruct Hs as [Hd _]. rewrite Hd. destruct prev; reflexivity.
Qed.

Lemma packLabel_labelled v nm :
  packLabel (labelled v nm) = toLowerCase v +:+ " " +:+ toLowerCase nm.
Proof. reflexivity. Qed.

Lemma getPackSize_spec item n :
  getPackSize item = Some n
  <-> exists m,
      string_match true packRegex (packLabel item) = Some m
      /\ Number_ (JStr <$> cap 1 m) = Num n
      /\ allowedPack n.
Proof.
  unfold getPackSize, allowedPack. split.
  - destruct (string_match true packRegex (packLabel item)) as [m|]; [|discriminate].
    destruct (Number_ (JStr <$> cap 1 m)) as [|z] eqn:Hz; [discriminate|].
    destruct ((z =? 1) || (z =? 2) || (z =? 5)) eqn:Hc; [|discriminate].
    intros [= <-]. exists m. rewrite !orb_true_iff, !Z.eqb_eq in Hc. tauto.
  - intros [m [-> [-> Ha]]]. destruct Ha as [-> | [-> | ->]]; reflexivity.
Qed.

Lemma getPackSize_any_name variant nm (r : option Z) :
  (forall t, match string_match true packRegex (toLowerCase variant +:+ " " +:+ t) with
             | Some m =>
                 match Number_ (JStr <$> cap 1 m) with
                 | NaN => None
                 | Num n => if (n =? 1) || (n =? 2) || (n =? 5) then Some n else None
                 end
             | None => None
             end = r) ->
  getPackSize (labelled variant nm) = r.
Proof. intros H. unfold getPackSize. rewrite packLabel_labelled. apply H. Qed.

(** ** The matcher finds matches only *)

Lemma star_loop_sound (R : Type) ci r
  (step : (mstate -> option R) -> mstate -> option R) :
  (forall k s x, step k s = Some x -> exists s', matches ci r s s' /\ k s' = Some x) ->
  forall fuel k s x,
    star_loop step fuel k s = Some x ->
    exists s', matches ci (RStar r) s s' /\ k s' = Some x.
Proof.
  intros Hstep. induction fuel as [|fuel IH]; intros k s x Hrun.
  - exists s. split; [constructor|exact Hrun].
  - cbn [star_loop] in Hrun.
    destruct (step _ s) as [y|] eqn:Hs.
    + injection Hrun as ->. apply Hstep in Hs as [s1 [Hm Hk]].
      destruct (m_pos s <? m_pos s1)%nat eqn:Hlt; [|discriminate].
      apply IH in Hk as [s2 [Hm2 Hk2]]. exists s2. split; [|exact Hk2].
      eapply M_StarCons; eauto. apply Nat.ltb_lt. exact Hlt.
    + exists s. split; [constructor|exact Hrun].
Qed.

Lemma rmatch_sound (R : Type) ci r :
  forall (k : mstate -> option R) s x,
    rmatch ci r k s = Some x ->
    exists s', matches ci r s s' /\ k s' = Some x.
Proof.
  induction r as [| c | neg cls | | | r1 IH1 r2 IH2 | r1 IH1 r2 IH2 | r IH | i r IH];
    intros k s x Hrun; cbn [rmatch] in Hrun.
  - exists s. split; [constructor|exact Hrun].
  - destruct (m_rest s) as [|d rest] eqn:Hrest; [discriminate|].
    fold (char_matches ci c d) in Hrun.
    destruct (char_matches ci c d) eqn:Hc; [|discriminate].
    eexists. split; [eapply M_Char; eauto|exact Hrun].
  - destruct (m_rest s) as [|d rest] eqn:Hrest; [discriminate|].
    destruct (xorb neg (cls d)) eqn:Hc; [|discriminate].
    eexists. split; [eapply M_Class; eauto|exact Hrun].
  - destruct (m_prev s) eqn:Hp; [discriminate|].
    exists s. split; [constructor; exact Hp|exact Hrun].
  - destruct (xorb _ _) eqn:Hb; [|discriminate].
    exists s. split; [constructor; exact Hb|exact Hrun].
  - apply IH1 in Hrun as [s1 [Hm1 Hk]]. apply IH2 in Hk as [s2 [Hm2 Hk]].
    exists s2. split; [econstructor; eauto|exact Hk].
  - destruct (rmatch ci r1 k s) as [y|] eqn:H1.
    + injection Hrun as ->. apply IH1 in H1 as [s' [Hm Hk]].
      exists s'. split; [apply M_AltL; exact Hm|exact Hk].
    + apply IH2 in Hrun as [s' [Hm Hk]].
      exists s'. split; [apply M_AltR; exact Hm|exact Hk].
  - eapply star_loop_sound; [|exact Hrun]. exact IH.
  - apply IH in Hrun as [s' [Hm Hk]].
    eexists. split; [apply M_Cap; exact Hm|exact Hk].
Qed.

(** *** Shape of a match of the pack pattern *)

Lemma string_app_cons x a b : String x a +:+ b = String x (a +:+ b).
Proof. reflexivity. Qed.

Lemma matches_seq_inv ci r1 r2 s s2 :
  matches ci (RSeq r1 r2) s s2 ->
  exists s1, matches ci r1 s s1 /\ matches ci r2 s1 s2.
Proof. intros H. inversion H; subst. eauto. Qed.

Lemma matches_alt_inv ci r1 r2 s s' :
  matches ci (RAlt r1 r2) s s' -> matches ci r1 s s' \/ matches ci r2 s s'.
Proof. intros H. inversion H; subst; auto. Qed.

Lemma matches_class_inv ci neg cls s s' :
  matches ci (RClass neg cls) s s' ->
  exists d,
    m_rest s = String d (m_rest s') /\ xorb neg (cls d) = true
    /\ m_pos s' = S (m_pos s) /\ m_caps s' = m_caps s.
Proof. intros H. inversion H; subst. exists d. cbn. auto. Qed.

Lemma matches_char_inv ci c s s' :
  matches ci (RChar c) s s' ->
  exists d,
    m_rest s = String d (m_rest s') /\ char_matches ci c d = true
    /\ m_pos s' = S (m_pos s) /\ m_caps s' = m_caps s.
Proof. intros H. inversion H; subst. exists d. cbn. auto. Qed.

Lemma matches_star_class_inv ci cls s s' :
  matches ci (RStar (RClass false cls)) s s' ->
  exists w,
    m_rest s = w +:+ m_rest s' /\ allOf cls w
    /\ m_pos s' = (m_pos s + String.length w)%nat /\ m_caps s' = m_caps s.
Proof.
  intros H. remember (RStar (RClass false cls)) as r eqn:Hr.
  induction H as [| | | | | | | | r0 s | r0 s s1 s2 H1 _ Hlt H2 IH2 |]; try discriminate.
  - exists "". cbn. repeat split. lia.
  - injection Hr as ->. specialize (IH2 eq_refl) as [w [Hrest [Hall [Hpos Hcaps]]]].
    apply matches_class_inv in H1 as [d [Hd [Hcls [Hp Hc]]]].
    exists (String d w). rewrite string_app_cons. cbn [String.length allOf].
    rewrite Hd, Hrest. repeat split; auto.
    + rewrite Hpos, Hp. lia.
    + congruence.
Qed.

Lemma matches_lit_inv str s s' :
  matches true (RLit str) s s' ->
  exists w,
    m_rest s = w +:+ m_rest s' /\ toLowerCase w = toLowerCase str
    /\ m_pos s' = (m_pos s + String.length w)%nat /\ m_caps s' = m_caps s.
Proof.
  revert s. induction str as [|c str IH]; intros s H; cbn [RLit] in H.
  - inversion H; subst. exists "". cbn. repeat split. lia.
  - apply matches_seq_inv in H as [s1 [H1 H2]].
    apply matches_char_inv in H1 as [d [Hd [Hc [Hp Hcaps]]]].
    apply IH in H2 as [w [Hrest [Hlow [Hpos Hcaps2]]]].
    exists (String d w). rewrite string_app_cons. cbn [String.length toLowerCase].
    rewrite Hd, Hrest, Hlow. repeat split.
    + f_equal. cbn in Hc. apply Ascii.eqb_eq in Hc. congruence.
    + rewrite Hpos, Hp. lia.
    + congruence.
Qed.

Lemma take_string_app w rest : take_string (String.length w) (w +:+ rest) = w.
Proof.
  induction w as [|c w IH]; [destruct rest; reflexivity|].
  rewrite string_app_cons. cbn [String.length take_string]. f_equal. exact IH.
Qed.

Lemma packRegex_match_shape s s' :
  matches true packRegex s s' ->
  exists pre ds ws w post,
    m_rest s = pre +:+ ds +:+ ws +:+ w +:+ post
    /\ ds <> "" /\ allOf is_digit ds /\ allOf is_space ws
    /\ toLowerCase w = "plaque"
    /\ m_caps s' = (1%nat, ds) :: m_caps s.
Proof.
  unfold packRegex, RPlus, ROpt. intros H.
  apply matches_seq_inv in H as [s1 [Hpre H]].
  apply matches_seq_inv in H as [s2 [Hcap H]].
  apply matches_seq_inv in H as [s3 [Hws H]].
  apply matches_seq_inv in H as [s4 [Hlit H]].
  apply matches_seq_inv in H as [s5 [Hopt Hb]].
  assert (Hpre' : exists pre, m_rest s = pre +:+ m_rest s1 /\ m_caps s1 = m_caps s).
  { apply matches_alt_inv in Hpre as [Hpre|Hpre].
    - inversion Hpre; subst. exists "". auto.
    - apply matches_class_inv in Hpre as [d [Hd [_ [_ Hc]]]].
      exists (String d ""). auto. }
  destruct Hpre' as [pre [Hpre1 Hpre2]].
  inversion Hcap as [| | | | | | | | | | i r sa sb Hplus]; subst.
  apply matches_seq_inv in Hplus as [sc [Hd1 Hds]].
  apply matches_class_inv in Hd1 as [d [Hd [Hcls [Hp Hc]]]].
  apply matches_star_class_inv in Hds as [dw [Hrest [Hall [Hpos Hcaps]]]].
  cbn [m_rest m_caps m_pos m_prev] in *.
  apply matches_star_class_inv in Hws as [ws [Hwrest [Hwall [Hwpos Hwcaps]]]].
  apply matches_lit_inv in Hlit as [w [Hlrest [Hlow [Hlpos Hlcaps]]]].
  cbn [m_rest m_caps m_pos m_prev] in *.
  assert (Hopt' : m_caps s5 = m_caps s4).
  { apply matches_alt_inv in Hopt as [Hopt|Hopt].
    - apply matches_char_inv in Hopt as [? [_ [_ [_ Hc5]]]]. exact Hc5.
    - inversion Hopt; subst. reflexivity. }
  inversion Hb; subst.
  exists pre, (String d dw), ws, w, (m_rest s4).
  split.
  { rewrite Hpre1, Hd, Hrest, Hwrest, Hlrest. reflexivity. }
  split; [discriminate|].
  split; [split; [exact Hcls|exact Hall]|].
  split; [exact Hwall|].
  split; [exact Hlow|].
  rewrite Hopt', Hlcaps, Hwcaps. f_equal; [|congruence].
  f_equal. rewrite Hd, Hrest.
  replace (m_pos sb - m_pos s1)%nat with (String.length (String d dw))
    by (cbn [String.length]; lia).
  apply (take_string_app (String d dw)).
Qed.

Lemma search_from_shape rest :
  forall prev m,
    search_from true packRegex prev rest = Some m ->
    exists pre ds ws w post,
      rest = pre +:+ ds +:+ ws +:+ w +:+ post
      /\ ds <> "" /\ allOf is_digit ds /\ allOf is_space ws
      /\ toLowerCase w = "plaque"
      /\ cap 1 m = Some ds.
Proof.
  assert (Hhere : forall prev rest m,
             rmatch true packRegex (fun s => Some (m_caps s)) (MState prev rest 0 [])
             = Some m ->
             exists pre ds ws w post,
               rest = pre +:+ ds +:+ ws +:+ w +:+ post
               /\ ds <> "" /\ allOf is_digit ds /\ allOf is_space ws
               /\ toLowerCase w = "plaque"
               /\ cap 1 m = Some ds).
  { intros prev rest0 m Hrun. apply rmatch_sound in Hrun as [s' [Hm Hk]].
    injection Hk as <-.
    apply packRegex_match_shape in Hm
      as (pre & ds & ws & w & post & Hrest & Hne & Hd & Hs & Hw & Hcaps).
    exists pre, ds, ws, w, post. cbn in Hrest. rewrite Hcaps. cbn. auto 10. }
  induction rest as [|c rest IH]; intros prev m Hrun.
  - apply (Hhere prev "" m). unfold search_from in Hrun.
    destruct (rmatch _ _ _ _) as [caps|]; [exact Hrun|discriminate].
  - change (search_from true packRegex prev (String c rest))
      with (match rmatch true packRegex (fun s => Some (m_caps s))
                    (MState prev (String c rest) 0 []) with
            | Some caps => Some caps
            | None => search_from true packRegex (Some c) rest
            end) in Hrun.
    destruct (rmatch _ _ _ _) as [caps|] eqn:Hr.
    + injection Hrun as ->. exact (Hhere _ _ _ Hr).
    + apply IH in Hrun as (pre & ds & ws & w & post & Hrest & H).
      exists (String c pre), ds, ws, w, post. rewrite Hrest. split; [reflexivity|exact H].
Qed.

(** *** Reading the captured digits *)

Lemma digit_not_special c :
  is_digit c = true -> is_space c = false /\ c <> "-"%char /\ c <> "+"%char.
Proof.
  destruct c as [[] [] [] [] [] [] [] []]; cbn; intros H;
    try discriminate H; repeat split; discriminate.
Qed.

Lemma trimEnd_digits s : allOf is_digit s -> trimEnd s = s.
Proof.
  induction s as [|c s IH]; intros H; [reflexivity|]. destruct H as [Hc Hs].
  cbn [trimEnd]. rewrite (IH Hs). destruct s; [|reflexivity].
  destruct (digit_not_special c Hc) as [-> _]. reflexivity.
Qed.

Lemma digits_from_total s : forall acc, allOf is_digit s -> exists v, digits_from acc s = Some v.
Proof.
  induction s as [|c s IH]; intros acc H; [exists acc; reflexivity|].
  destruct H as [Hc Hs]. cbn [digits_from]. rewrite Hc. apply IH. exact Hs.
Qed.

Lemma Number_digits ds :
  ds <> "" -> allOf is_digit ds ->
  exists v, digits_from 0 ds = Some v /\ Number_ (Some (JStr ds)) = Num v.
Proof.
  intros Hne Hall. destruct ds as [|c s]; [contradiction|].
  destruct (digits_from_total (String c s) 0 Hall) as [v Hv]. exists v.
  split; [exact Hv|]. destruct Hall as [Hc Hs].
  destruct (digit_not_special c Hc) as [Hsp [Hminus Hplus]].
  cbn [Number_]. unfold string_to_number, trim. cbn [trimStart]. rewrite Hsp.
  rewrite (trimEnd_digits (String c s)) by (split; assumption).
  change (digits_from 0 (String c s)) with (unsigned_decimal (String c s)) in Hv.
  clear Hsp Hminus Hplus. revert Hv Hc.
  destruct c as [[] [] [] [] [] [] [] []]; intros Hv Hc;
    try (vm_compute in Hc; discriminate Hc);
    cbv beta iota; rewrite Hv; reflexivity.
Qed.

(** Whenever the resolver returns a pack size, the label holds a run of
    digits that reads as that size, white space, and the unit word. *)
Lemma getPackSize_sound item n :
  getPackSize item = Some n ->
  exists pre ds ws w post,
    packLabel item = pre +:+ ds +:+ ws +:+ w +:+ post
    /\ ds <> "" /\ allOf is_digit ds /\ allOf is_space ws
    /\ toLowerCase w = "plaque"
    /\ digits_from 0 ds = Some n
    /\ allowedPack n.
Proof.
  intros H. apply getPackSize_spec in H as [m [Hm [Hn Ha]]].
  apply search_from_shape in Hm
    as (pre & ds & ws & w & post & Hrest & Hne & Hd & Hs & Hw & Hcap).
  rewrite Hcap in Hn. cbn in Hn.
  destruct (Number_digits ds Hne Hd) as [v [Hv Hnum]].
  cbn [Number_] in Hnum. rewrite Hnum in Hn. injection Hn as ->.
  exists pre, ds, ws, w, post. auto 10.
Qed.

(** *** Labels of the expected shape resolve *)

Lemma string_length_app a b :
  String.length (a +:+ b) = (String.length a + String.length b)%nat.
Proof.
  induction a as [|c a IH]; [reflexivity|].
  rewrite string_app_cons. cbn [String.length]. rewrite IH. reflexivity.
Qed.

Lemma star_loop_S (R : Type) step fuel (k : mstate -> option R) s :
  star_loop step (S fuel) k s
  = match step (fun s' => if (m_pos s <? m_pos s')%nat
                          then star_loop step fuel k s' else None) s with
    | Some x => Some x
    | None => k s
    end.
Proof. reflexivity. Qed.

Lemma rmatch_class (R : Type) ci neg cls (k : mstate -> option R) prev d rest pos caps :
  rmatch ci (RClass neg cls) k (MState prev (String d rest) pos caps)
  = if xorb neg (cls d) then k (MState (Some d) rest (S pos) caps) else None.
Proof. reflexivity. Qed.

Lemma rmatch_class_nil (R : Type) ci neg cls (k : mstate -> option R) prev pos caps :
  rmatch ci (RClass neg cls) k (MState prev "" pos caps) = None.
Proof. reflexivity. Qed.

(** A greedy loop over a class reads the whole run [w] when the
    continuation accepts what follows. *)
Lemma star_class_greedy (R : Type) ci cls w :
  forall fuel (k : mstate -> option R) prev rest pos caps x,
    allOf cls w ->
    (String.length w <= fuel)%nat ->
    notAhead cls rest ->
    k (MState (lastOr prev w) rest (pos + String.length w) caps) = Some x ->
    star_loop (rmatch ci (RClass false cls)) fuel k (MState prev (w +:+ rest) pos caps)
    = Some x.
Proof.
  induction w as [|c w IH]; intros fuel k prev rest pos caps x Hall Hfuel Hrest Hk.
  - cbn [lastOr String.length] in Hk. rewrite Nat.add_0_r in Hk.
    change ("" +:+ rest) with rest.
    destruct fuel as [|fuel]; [exact Hk|].
    rewrite star_loop_S. destruct rest as [|d rest].
    + rewrite rmatch_class_nil. exact Hk.
    + rewrite rmatch_class. cbn in Hrest. rewrite Hrest. cbn [xorb]. exact Hk.
  - destruct Hall as [Hc Hall]. cbn [String.length] in Hfuel.
    destruct fuel as [|fuel]; [lia|].
    rewrite string_app_cons, star_loop_S, rmatch_class, Hc.
    cbn [xorb m_pos].
    rewrite (proj2 (Nat.ltb_lt pos (S pos))) by lia.
    rewrite (IH fuel k (Some c) rest (S pos) caps x); [reflexivity|exact Hall|lia|exact Hrest|].
    cbn [lastOr String.length] in Hk.
    replace (S pos + String.length w)%nat with (pos + S (String.length w))%nat by lia.
    exact Hk.
Qed.

Lemma not_word_not_s c :
  is_word c = false -> Ascii.eqb (lower_ascii "s") (lower_ascii c) = false.
Proof.
  destruct c as [[] [] [] [] [] [] [] []]; vm_compute; intros H;
    try reflexivity; discriminate H.
Qed.

(** The unit word, singular or plural, before a word boundary. *)
Lemma unit_word_matches (R : Type) (k : mstate -> option R) prev opt tail pos caps :
  opt = "" \/ opt = "s" ->
  notAhead is_word tail ->
  rmatch true (RSeq (RLit "plaque") (RSeq (ROpt (RChar "s")) RWordB)) k
    (MState prev ("plaque" +:+ opt +:+ tail) pos caps)
  = k (MState (lastOr prev ("plaque" +:+ opt)) tail
         (pos + String.length ("plaque" +:+ opt)) caps).
Proof.
  intros [-> | ->] Htail.
  - change ("plaque" +:+ "" +:+ tail) with (String "p" (String "l" (String "a"
      (String "q" (String "u" (String "e" tail)))))).
    change ("plaque" +:+ "") with "plaque".
    cbn [lastOr String.length].
    replace (pos + 6)%nat with (S (S (S (S (S (S pos)))))) by lia.
    destruct tail as [|c t].
    + reflexivity.
    + cbn in Htail. cbn. rewrite (not_word_not_s c Htail). unfold word_after, word_before.
      cbn. rewrite Htail. reflexivity.
  - change ("plaque" +:+ "s" +:+ tail) with (String "p" (String "l" (String "a"
      (String "q" (String "u" (String "e" (String "s" tail))))))).
    change ("plaque" +:+ "s") with "plaques".
    cbn [lastOr String.length].
    replace (pos + 7)%nat with (S (S (S (S (S (S (S pos))))))) by lia.
    destruct tail as [|c t].
    + cbn. destruct (k _); reflexivity.
    + cbn in Htail. cbn. unfold word_after, word_before. cbn. rewrite Htail. cbn.
      destruct (k _); reflexivity.
Qed.

Lemma rmatch_seq (R : Type) ci r1 r2 (k : mstate -> option R) s :
  rmatch ci (RSeq r1 r2) k s = rmatch ci r1 (rmatch ci r2 k) s.
Proof. reflexivity. Qed.

Lemma rmatch_star (R : Type) ci r (k : mstate -> option R) s :
  rmatch ci (RStar r) k s = star_loop (rmatch ci r) (String.length (m_rest s)) k s.
Proof. reflexivity. Qed.

Lemma rmatch_cap (R : Type) ci i r (k : mstate -> option R) s :
  rmatch ci (RCap i r) k s
  = rmatch ci r
      (fun s' =>
         k (MState (m_prev s') (m_rest s') (m_pos s')
              ((i, take_string (m_pos s' - m_pos s) (m_rest s)) :: m_caps s')))
      s.
Proof. reflexivity. Qed.

Lemma space_not_digit c : is_space c = true -> is_digit c = false.
Proof.
  destruct c as [[] [] [] [] [] [] [] []]; vm_compute; intros H;
    try reflexivity; discriminate H.
Qed.

(** The pattern after its first alternative: digits, white space, the unit
    word. *)
Lemma pack_body_matches prev d ds ws opt tail pos caps :
  is_digit d = true -> allOf is_digit ds -> allOf is_space ws ->
  opt = "" \/ opt = "s" ->
  notAhead is_word tail ->
  rmatch true
    (RSeq (RCap 1 (RPlus (RClass false is_digit)))
       (RSeq (RStar (RClass false is_space))
          (RSeq (RLit "plaque") (RSeq (ROpt (RChar "s")) RWordB))))
    (fun s => Some (m_caps s))
    (MState prev (String d ds +:+ ws +:+ "plaque" +:+ opt +:+ tail) pos caps)
  = Some ((1%nat, String d ds) :: caps).
Proof.
  intros Hd Hds Hws Hopt Htail.
  set (rest := ws +:+ "plaque" +:+ opt +:+ tail).
  assert (Hrest : notAhead is_digit rest).
  { subst rest. destruct ws as [|c ws]; [reflexivity|].
    destruct Hws as [Hc _]. exact (space_not_digit c Hc). }
  unfold RPlus. rewrite rmatch_seq, rmatch_cap, rmatch_seq, string_app_cons, rmatch_class, Hd.
  cbn [xorb]. rewrite rmatch_star. cbn [m_rest].
  apply star_class_greedy; [exact Hds| |exact Hrest|].
  { rewrite string_length_app. lia. }
  cbn [m_prev m_rest m_pos m_caps].
  replace (S pos + String.length ds - pos)%nat with (String.length (String d ds))
    by (cbn [String.length]; lia).
  rewrite <- string_app_cons, take_string_app.
  rewrite rmatch_seq, rmatch_star. cbn [m_rest]. subst rest.
  apply star_class_greedy; [exact Hws| | |].
  { rewrite string_length_app. lia. }
  { reflexivity. }
  rewrite unit_word_matches by assumption. reflexivity.
Qed.

Lemma rmatch_alt (R : Type) ci r1 r2 (k : mstate -> option R) s :
  rmatch ci (RAlt r1 r2) k s
  = match rmatch ci r1 k s with
    | Some x => Some x
    | None => rmatch ci r2 k s
    end.
Proof. reflexivity. Qed.

Lemma rmatch_bol (R : Type) ci (k : mstate -> option R) s :
  rmatch ci RBol k s = match m_prev s with None => k s | Some _ => None end.
Proof. reflexivity. Qed.

Lemma search_from_cons ci r prev c rest :
  search_from ci r prev (String c rest)
  = match rmatch ci r (fun s => Some (m_caps s)) (MState prev (String c rest) 0 []) with
    | Some caps => Some caps
    | None => search_from ci r (Some c) rest
    end.
Proof. reflexivity. Qed.

Lemma pack_body_needs_digit (R : Type) (k : mstate -> option R) r prev c rest pos caps :
  is_digit c = false ->
  rmatch true (RSeq (RCap 1 (RPlus (RClass false is_digit))) r) k
    (MState prev (String c rest) pos caps)
  = None.
Proof.
  intros Hc. unfold RPlus. rewrite rmatch_seq, rmatch_cap, rmatch_seq, rmatch_class, Hc.
  reflexivity.
Qed.

(** The search goes through a digit-free prefix and matches at its end. *)
Lemma search_from_prefix pre :
  forall prev d ds ws opt tail,
    digitFree pre ->
    (pre = "" -> prev = None) ->
    is_digit d = true -> allOf is_digit ds -> allOf is_space ws ->
    opt = "" \/ opt = "s" ->
    notAhead is_word tail ->
    search_from true packRegex prev
      (pre +:+ String d ds +:+ ws +:+ "plaque" +:+ opt +:+ tail)
    = Some [(1%nat, String d ds)].
Proof.
  induction pre as [|c pre IH]; intros prev d ds ws opt tail Hpre Hprev Hd Hds Hws Hopt Htail.
  - rewrite (Hprev eq_refl). change ("" +:+ ?x) with x.
    rewrite string_app_cons, search_from_cons, <- string_app_cons.
    unfold packRegex. rewrite rmatch_seq, rmatch_alt, rmatch_bol. cbn [m_prev].
    rewrite pack_body_matches by assumption. reflexivity.
  - destruct Hpre as [Hc Hpre].
    rewrite string_app_cons, search_from_cons.
    unfold packRegex at 1. rewrite rmatch_seq, rmatch_alt, rmatch_bol. cbn [m_prev].
    assert (Hfirst : match prev with
                     | Some _ => None
                     | None =>
                         rmatch true
                           (RSeq (RCap 1 (RPlus (RClass false is_digit)))
                              (RSeq (RStar (RClass false is_space))
                                 (RSeq (RLit "plaque")
                                    (RSeq (ROpt (RChar "s")) RWordB))))
                           (fun s => Some (m_caps s))
                           (MState prev
                              (String c
                                 (pre +:+ String d ds +:+ ws +:+ "plaque" +:+ opt +:+ tail))
                              0 [])
                     end = None).
    { destruct prev; [reflexivity|]. apply pack_body_needs_digit. exact Hc. }
    rewrite Hfirst, rmatch_class, Hc. cbn [xorb].
    destruct pre as [|c' pre'].
    + change ("" +:+ ?x) with x.
      rewrite pack_body_matches by assumption. reflexivity.
    + destruct Hpre as [Hc' Hpre'].
      rewrite string_app_cons, pack_body_needs_digit by exact Hc'.
      rewrite <- string_app_cons.
      apply IH; try assumption; [split; assumption | discriminate].
Qed.

(** A label made of a digit-free text, a run of digits, white space and
    the unit word before a word boundary resolves to the number the digits
    read as when it is 1, 2 or 5, and is unresolved otherwise. *)
Lemma getPackSize_complete item pre ds ws opt tail n :
  packLabel item = pre +:+ ds +:+ ws +:+ "plaque" +:+ opt +:+ tail ->
  digitFree pre ->
  ds <> "" -> allOf is_digit ds -> allOf is_space ws ->
  opt = "" \/ opt = "s" ->
  notAhead is_word tail ->
  digits_from 0 ds = Some n ->
  getPackSize item = if (n =? 1) || (n =? 2) || (n =? 5) then Some n else None.
Proof.
  intros Hlabel Hpre Hne Hds Hws Hopt Htail Hn.
  unfold getPackSize, string_match. rewrite Hlabel.
  destruct (Number_digits ds Hne Hds) as [v [Hv Hnum]].
  rewrite Hn in Hv. injection Hv as <-.
  destruct ds as [|d ds]; [contradiction|]. destruct Hds as [Hd Hds].
  rewrite (search_from_prefix pre None d ds ws opt tail) by auto.
  cbn [cap Nat.eqb fmap option_fmap option_map]. rewrite Hnum. reflexivity.
Qed.

(** C6.  The resolver returns a pack size exactly when the pattern matches
    the label and the integer it captured is 1, 2 or 5; it returns one only
    for a label that holds a run of digits reading as that size, then white
    space, then the unit word; a label made of a digit-free text, an
    integer, white space and the unit word resolves to the integer when it
    is 1, 2 or 5 and is unresolved for any other integer; the label is the
    lower-cased variant and name joined by a space, so that case does not
    matter; a label without a digit is unresolved; whatever the name, the
    variant [blanc / 5 Plaques] resolves to 5 and the variant [10 Plaques]
    is unresolved. *)
Theorem pack_resolution :
  (forall item n,
      getPackSize item = Some n
      <-> exists m,
          string_match true packRegex (packLabel item) = Some m
          /\ Number_ (JStr <$> cap 1 m) = Num n
          /\ allowedPack n)
  /\ (forall item n,
        getPackSize item = Some n ->
        exists pre ds ws w post,
          packLabel item = pre +:+ ds +:+ ws +:+ w +:+ post
          /\ ds <> "" /\ allOf is_digit ds /\ allOf is_space ws
          /\ toLowerCase w = "plaque"
          /\ digits_from 0 ds = Some n
          /\ allowedPack n)
  /\ (forall item pre ds ws opt tail n,
        packLabel item = pre +:+ ds +:+ ws +:+ "plaque" +:+ opt +:+ tail ->
        digitFree pre ->
        ds <> "" -> allOf is_digit ds -> allOf is_space ws ->
        opt = "" \/ opt = "s" ->
        notAhead is_word tail ->
        digits_from 0 ds = Some n ->
        getPackSize item
        = if (n =? 1) || (n =? 2) || (n =? 5) then Some n else None)
  /\ (forall variant name,
        packLabel (labelled variant name)
        = toLowerCase variant +:+ " " +:+ toLowerCase name)
  /\ (forall variant name,
        getPackSize (labelled (toLowerCase variant) (toLowerCase name))
        = getPackSize (labelled variant name))
  /\ (forall item, digitFree (packLabel item) -> getPackSize item = None)
  /\ (forall name, getPackSize (labelled "blanc / 5 Plaques" name) = Some 5)
  /\ (forall name, getPackSize (labelled "10 Plaques" name) = None)
  /\ getPackSize (labelled "blanc / Plaques" "Plaque NFC avis") = None.
Proof.
  split; [exact getPackSize_spec|].
  split; [exact getPackSize_sound|].
  split; [exact getPackSize_complete|].
  split; [exact packLabel_labelled|].
  split.
  { intros v nm. unfold getPackSize. rewrite !packLabel_labelled, !toLowerCase_idem.
    reflexivity. }
  split.
  { intros item H. unfold getPackSize, string_match.
    rewrite (packRegex_needs_digit None _ H). reflexivity. }
  split; [|split].
  - intros nm. apply getPackSize_any_name. intros t. vm_compute. reflexivity.
  - intros nm. apply getPackSize_any_name. intros t. vm_compute. reflexivity.
  - vm_compute. reflexivity.
Qed.

Lemma pack_resolution_witness :
  (digitFree (packLabel (labelled "Blanc" "carte"))
   /\ getPackSize (labelled "Blanc" "carte") = None)
  /\ getPackSize (labelled "Noir / 2 Plaques" "") = Some 2.
Proof.
  split; [split|].
  - vm_compute. tauto.
  - apply (proj1 (proj2 (proj2 (proj2 (proj2 (proj2 pack_resolution)))))).
    vm_compute. tauto.
  - apply (proj1 (proj2 (proj2 pack_resolution))
             (labelled "Noir / 2 Plaques" "") "noir / " "2" " " "s" " " 2).
    + reflexivity.
    + vm_compute. tauto.
    + discriminate.
    + vm_compute. tauto.
    + vm_compute. tauto.
    + right. reflexivity.
    + reflexivity.
    + reflexivity.
Defined.

(** ** Quantity of a line item *)

Lemma itemQuantity_positiveOr1 item :
  itemQuantity item
  = positiveOr1 (get "quantity" item ?? get "current_quantity" item ?? Some (JNum 1)).
Proof.
  unfold itemQuantity, positiveOr1.
  destruct (Number_ _) as [|z]; reflexivity.
Qed.

Lemma get_withQuantities_quantity q c :
  get "quantity" (withQuantities q c) = q.
Proof. destruct q, c; reflexivity. Qed.

(** C8, as the code has it.  The quantity field is read whenever it is
    present and not [null], and the alternate field only when the quantity
    field is absent or [null]; the value read is replaced by 1 unless it is
    a positive number; 1 is the value when both fields are absent or
    [null].  A quantity field that holds a number that is not positive gives
    1 whatever the alternate field holds. *)
Theorem quantity_derivation :
  (forall item q,
      get "quantity" item = Some q -> q <> JNull ->
      itemQuantity item = positiveOr1 (Some q))
  /\ (forall item c,
        isNullish (get "quantity" item) ->
        get "current_quantity" item = Some c -> c <> JNull ->
        itemQuantity item = positiveOr1 (Some c))
  /\ (forall item,
        isNullish (get "quantity" item) ->
        isNullish (get "current_quantity" item) ->
        itemQuantity item = 1)
  /\ (forall q c, 0 < q -> itemQuantity (withQuantities (Some (JNum q)) c) = q)
  /\ (forall q c, q <= 0 -> itemQuantity (withQuantities (Some (JNum q)) c) = 1)
  /\ (forall c, 0 < c -> itemQuantity (withQuantities None (Some (JNum c))) = c).
Proof.
  repeat split.
  - intros item q Hq Hn. rewrite itemQuantity_positiveOr1, Hq.
    destruct q; try reflexivity. contradiction.
  - intros item c [Hq | Hq] Hc Hn; rewrite itemQuantity_positiveOr1, Hq, Hc;
      (destruct c; try reflexivity; contradiction).
  - intros item [Hq | Hq] [Hc | Hc]; rewrite itemQuantity_positiveOr1, Hq, Hc;
      reflexivity.
  - intros q c Hq. rewrite itemQuantity_positiveOr1, get_withQuantities_quantity.
    unfold positiveOr1. cbn. destruct (Z.ltb_spec 0 q); [reflexivity | lia].
  - intros q c Hq. rewrite itemQuantity_positiveOr1, get_withQuantities_quantity.
    unfold positiveOr1. cbn. destruct (Z.ltb_spec 0 q); [lia | reflexivity].
  - intros c Hc. rewrite itemQuantity_positiveOr1. unfold positiveOr1. cbn.
    destruct (Z.ltb_spec 0 c); [reflexivity | lia].
Qed.

Lemma quantity_derivation_witness :
  itemQuantity (withQuantities (Some (JNum 3)) (Some (JNum 7))) = 3
  /\ itemQuantity (withQuantities None (Some (JNum 7))) = 7
  /\ itemQuantity (withQuantities None None) = 1.
Proof.
  split; [|split].
  - apply (proj1 (proj2 (proj2 (proj2 quantity_derivation)))). lia.
  - apply (proj2 (proj2 (proj2 (proj2 (proj2 quantity_derivation))))). lia.
  - apply (proj1 (proj2 (proj2 quantity_derivation))); left; reflexivity.
Defined.

(** C8, as stated, fails: with [quantity = 0] and [current_quantity = 5]
    the quantity is 1, not 5, and a single-plate line yields one unit. *)
Lemma quantity_zero_ignores_alternate :
  itemQuantity (withQuantities (Some (JNum 0)) (Some (JNum 5))) = 1
  /\ extractGroups
       (Some (paidOrder 1001 "client@example.com"
                [googleLine "li_77" 0 "1 Plaque" reviewLink
                   [("current_quantity", JNum 5)]]))
     = Ok [MkGroup reviewLink 1 "li_77"].
Proof. split; reflexivity. Qed.

(** ** Signature gate *)

(** A header that [getShopifyHeader] returns is not empty. *)
Lemma getShopifyHeader_truthy req key v :
  getShopifyHeader req key = Some v -> or_else (Some v) None = Some v.
Proof.
  unfold getShopifyHeader.
  destruct (header key (headers req)) as [[|c s]|];
    destruct (header (toLowerCase key) (headers req)) as [[|c' s']|];
    cbn; intros [= <-]; reflexivity.
Qed.

(** C7, as the code has it.  With verification enabled and no secret
    configured, a request that passes the topic and delivery-id gates and
    carries a signature header makes the signature check throw, and the
    caller receives 500 with nothing stored; a request without a signature
    header is answered 401 before the secret is read. *)
Theorem missing_secret_is_infrastructure_failure :
  forall parse hmac normalize html validEmail env fl req st webhookId,
    getShopifyHeader req "x-shopify-topic" = Some "orders/paid" ->
    getShopifyHeader req "x-shopify-webhook-id" = Some webhookId ->
    SHOPIFY_WEBHOOK_VERIFY_SIGNATURE env <> Some "false" ->
    or_else (SHOPIFY_WEBHOOK_SECRET env) None = None ->
    (forall signature,
        getShopifyHeader req "x-shopify-hmac-sha256" = Some signature ->
        checkShopifySignature hmac env (rawBody req) (Some signature)
        = Throw (Error_ "SHOPIFY_WEBHOOK_SECRET missing")
        /\ shopifyOrdersPaidWebhook parse hmac normalize html validEmail env fl req st
           = (Responded 500, st, []))
    /\ (getShopifyHeader req "x-shopify-hmac-sha256" = None ->
        checkShopifySignature hmac env (rawBody req) None = Ok false
        /\ shopifyOrdersPaidWebhook parse hmac normalize html validEmail env fl req st
           = (Responded 401, st, [])).
Proof.
  intros parse hmac normalize html validEmail env fl req st w Ht Hw Hv Hs.
  assert (Hgate : forall h,
             getShopifyHeader req "x-shopify-hmac-sha256" = h ->
             gates hmac env req
             = match checkShopifySignature hmac env (rawBody req) h with
               | Ok true => None
               | Ok false => Some (Responded 401)
               | Throw _ => Some (Responded 500)
               end).
  { intros h Hh. unfold gates. rewrite Ht, Hw, Hh.
    rewrite bool_decide_eq_true_2 by reflexivity. cbn [negb].
    rewrite bool_decide_eq_false_2 by exact Hv. reflexivity. }
  split.
  - intros sig Hsig.
    assert (Hc : checkShopifySignature hmac env (rawBody req) (Some sig)
                 = Throw (Error_ "SHOPIFY_WEBHOOK_SECRET missing")).
    { unfold checkShopifySignature.
      rewrite (getShopifyHeader_truthy _ _ _ Hsig), Hs. reflexivity. }
    split; [exact Hc|].
    unfold shopifyOrdersPaidWebhook. rewrite (Hgate _ Hsig), Hc. reflexivity.
  - intros Hsig. split; [reflexivity|].
    unfold shopifyOrdersPaidWebhook. rewrite (Hgate _ Hsig). reflexivity.
Qed.

Lemma missing_secret_witness :
  checkShopifySignature noHmac noSecretEnv "{}" (Some "c2lnbmF0dXJl")
  = Throw (Error_ "SHOPIFY_WEBHOOK_SECRET missing")
  /\ shopifyOrdersPaidWebhook (fun _ => None) noHmac acceptUrl noHtml emailWithAt
       noSecretEnv noFaults (signedDelivery "{}" "c2lnbmF0dXJl") emptyStore
     = (Responded 500, emptyStore, []).
Proof.
  apply (proj1 (missing_secret_is_infrastructure_failure
                  (fun _ => None) noHmac acceptUrl noHtml emailWithAt
                  noSecretEnv noFaults (signedDelivery "{}" "c2lnbmF0dXJl")
                  emptyStore "w1" eq_refl eq_refl
                  ltac:(discriminate)
                  eq_refl)).
  reflexivity.
Defined.

(** C7, as stated, fails: verification enabled, no secret, no signature
    header: the check returns false without throwing and the caller
    receives 401. *)
Lemma missing_secret_unsigned_request_is_401 :
  SHOPIFY_WEBHOOK_VERIFY_SIGNATURE noSecretEnv = None
  /\ SHOPIFY_WEBHOOK_SECRET noSecretEnv = None
  /\ checkShopifySignature noHmac noSecretEnv (rawBody (delivery "{}"))
       (getShopifyHeader (delivery "{}") "x-shopify-hmac-sha256")
     = Ok false
  /\ shopifyOrdersPaidWebhook (fun _ => None) noHmac acceptUrl noHtml emailWithAt
       noSecretEnv noFaults (delivery "{}") emptyStore
     = (Responded 401, emptyStore, []).
Proof. repeat split; reflexivity. Qed.

(** ** The store through a run *)

Lemma setEventField_webhookId ev k v :
  k <> "webhookId" -> ev_webhookId (setEventField ev (k, v)) = ev_webhookId ev.
Proof.
  intros Hk. unfold setEventField.
  destruct (negb _); [reflexivity|].
  destruct (String.eqb k "provider"); [reflexivity|].
  destruct (String.eqb_spec k "webhookId"); [contradiction|].
  destruct (String.eqb k "topic"); [reflexivity|].
  destruct (String.eqb k "orderNumber"); [reflexivity|].
  destruct (String.eqb k "status"); reflexivity.
Qed.

Lemma applyEventData_webhookId data ev :
  Forall (fun kv => fst kv <> "webhookId") data ->
  ev_webhookId (applyEventData data ev) = ev_webhookId ev.
Proof.
  unfold applyEventData. intros H. revert ev.
  induction H as [|[k v] data Hk _ IH]; intros ev; [reflexivity|].
  cbn [fold_left]. rewrite IH. apply setEventField_webhookId. exact Hk.
Qed.

Lemma updateEvent_webhookIds fault id data st :
  Forall (fun kv => fst kv <> "webhookId") data ->
  webhookIds (updateEvent fault id data st).2 = webhookIds st.
Proof.
  intros H. unfold updateEvent. destruct fault; [reflexivity|].
  destruct (existsb _ _); [|reflexivity].
  unfold webhookIds. cbn. rewrite map_map. apply map_ext. intros ev.
  destruct (ev_id ev =? id)%nat; [|reflexivity].
  apply applyEventData_webhookId. exact H.
Qed.

Lemma markEvent_webhookIds fault eventId data st :
  Forall (fun kv => fst kv <> "webhookId") data ->
  webhookIds (markEvent fault eventId data st).1 = webhookIds st.
Proof.
  intros H. unfold markEvent. destruct eventId as [id|]; [|reflexivity].
  pose proof (updateEvent_webhookIds fault id data st H) as Hu.
  destruct (updateEvent fault id data st) as [[|e] st']; exact Hu.
Qed.

Lemma updateOrder_frame fault invalid id f st :
  events (updateOrder fault invalid id f st).2 = events st
  /\ plates (updateOrder fault invalid id f st).2 = plates st.
Proof.
  unfold updateOrder. destruct fault; [split; reflexivity|].
  destruct (head _); [|split; reflexivity].
  destruct invalid; split; reflexivity.
Qed.

Lemma createOrder_frame fault invalid n e st :
  events (createOrder fault invalid n e st).2 = events st
  /\ plates (createOrder fault invalid n e st).2 = plates st.
Proof.
  unfold createOrder. destruct fault; [split; reflexivity|].
  destruct invalid; [split; reflexivity|].
  destruct (existsb _ _); split; reflexivity.
Qed.

Lemma createPlate_frame fault slug oid key url now st :
  events (createPlate fault slug oid key url now st).2 = events st
  /\ orders (createPlate fault slug oid key url now st).2 = orders st.
Proof.
  unfold createPlate. destruct fault; [split; reflexivity|].
  destruct (existsb _ _); [split; reflexivity|].
  destruct (existsb _ _); split; reflexivity.
Qed.

Lemma createUnit_frame attempts o oid lid url i g :
  events (g_store (match createUnit attempts o oid lid url i g with
                   | UContinue g' | UThrew _ g' => g' end)) = events (g_store g).
Proof.
  unfold createUnit. destruct (bool_decide _); [reflexivity|].
  pose proof (createPlate_frame (at_fault (attempts (g_calls g)))
                (at_slug (attempts (g_calls g))) oid (sourceKey o lid i) url
                (at_now (attempts (g_calls g))) (g_store g)) as [He _].
  destruct (createPlate _ _ _ _ _ _ _) as [[id|e] st']; cbn in *.
  - exact He.
  - destruct (isDuplicateKeyError _); exact He.
Qed.

Lemma unitsLoop_frame attempts o oid lid url count first g :
  events (g_store (match unitsLoop attempts o oid lid url count first g with
                   | UContinue g' | UThrew _ g' => g' end)) = events (g_store g).
Proof.
  revert first g. induction count as [|n IH]; intros first g; [reflexivity|].
  cbn [unitsLoop].
  pose proof (createUnit_frame attempts o oid lid url first g) as H1.
  destruct (createUnit attempts o oid lid url first g) as [g'|e g'].
  - rewrite IH. exact H1.
  - exact H1.
Qed.

Lemma groupsLoop_frame normalize attempts o oid groups g :
  events (g_store (out_state (groupsLoop normalize attempts o oid groups g)))
  = events (g_store g).
Proof.
  revert g. induction groups as [|grp rest IH]; intros g; [reflexivity|].
  cbn [groupsLoop]. destruct (String.eqb _ ""); [reflexivity|].
  destruct (or_else _ None) as [url|]; [|reflexivity].
  pose proof (unitsLoop_frame attempts o oid (lineItemId grp) url
                (Z.to_nat (units grp)) 0 g) as H1.
  destruct (unitsLoop _ _ _ _ _ _ _ _) as [g'|e g'].
  - rewrite IH. exact H1.
  - exact H1.
Qed.

Lemma generatePlates_frame normalize fl o oid groups st :
  events (g_store (out_state (generatePlates normalize fl o oid groups st)))
  = events st.
Proof.
  unfold generatePlates. destruct (findPlates _ _ _); [|reflexivity].
  apply groupsLoop_frame.
Qed.

Ltac no_webhookId_key :=
  repeat constructor; cbn; discriminate.

Lemma finalize_webhookIds html env fl eventId o email oid g :
  webhookIds (finalize html env fl eventId o email oid g).1.2
  = webhookIds (g_store g).
Proof.
  unfold finalize. destruct (findPlates _ _ _) as [finalPlates|e]; [|reflexivity].
  match goal with |- context [updateOrder ?a ?v ?b ?c ?d] =>
    pose proof (updateOrder_frame a v b c d) as [He _];
    destruct (updateOrder a v b c d) as [[ord|e] st1] end; cbn in He.
  - match goal with |- context [markEvent ?a ?b ?c ?d] =>
      pose proof (markEvent_webhookIds a b c d ltac:(no_webhookId_key)) as Hm;
      destruct (markEvent a b c d) as [st2 fx] end.
    cbn in *. rewrite Hm. unfold webhookIds. rewrite He. reflexivity.
  - cbn. unfold webhookIds. rewrite He. reflexivity.
Qed.

Lemma processEvent_webhookIds parse normalize html validEmail env fl req eventId st :
  webhookIds (processEvent parse normalize html validEmail env fl req eventId st).1.2
  = webhookIds st.
Proof.
  unfold processEvent.
  assert (Hfail : forall data st0,
             Forall (fun kv => fst kv <> "webhookId") data ->
             webhookIds
               (let '(st', fx) := markEvent (f_mark fl) (Some eventId) data st0 in
                (Responded 200, st', fx)).1.2 = webhookIds st0).
  { intros data st0 H. pose proof (markEvent_webhookIds (f_mark fl) (Some eventId) data st0 H).
    destruct (markEvent _ _ _ _). assumption. }
  destruct (parse (rawBody req)) as [body|]; [|apply Hfail; no_webhookId_key].
  destruct (_ || _); [apply Hfail; no_webhookId_key|].
  destruct (extractGroups _) as [groups|e]; [|reflexivity].
  destruct groups as [|grp groups]; [apply Hfail; no_webhookId_key|].
  destruct (existsb _ _); [apply Hfail; no_webhookId_key|].
  destruct (findOrder _ _ _) as [existing|e]; [|reflexivity].
  match goal with |- context [generatePlates _ _ _ _ _ _] => idtac end.
  set (upsert := match existing with Some doc => _ | None => _ end).
  assert (Hup : events upsert.2 = events st).
  { subst upsert. destruct existing.
    - apply updateOrder_frame.
    - apply createOrder_frame. }
  destruct upsert as [[order|e] st1]; cbn in Hup; [|cbn; unfold webhookIds; congruence].
  pose proof (generatePlates_frame normalize fl
                (String_ (get "order_number" (Some body) ?? get "name" (Some body)
                          ?? Some (JStr "")))
                (or_id order) (grp :: groups) st1) as Hg.
  destruct (generatePlates _ _ _ _ _ _) as [g|msg g|e g]; cbn in Hg.
  - rewrite finalize_webhookIds. unfold webhookIds. congruence.
  - rewrite Hfail by no_webhookId_key. unfold webhookIds. congruence.
  - cbn. unfold webhookIds. congruence.
Qed.

(** C2.  A request that passes the gates and whose registration insert met
    no failure of the infrastructure leaves its delivery id registered,
    however the run ended; when the same request is submitted again, the
    unique index refuses the insert, the refusal is not recognised as a
    duplicate (its own message holds no marker) and the request is
    answered with 500, not with 200; the store is unchanged (no
    DeliveryRecord, Order or Plate row created or updated) and no effect
    is performed. *)
Theorem replay_is_answered_with_500 :
  forall parse hmac normalize html validEmail env fl1 fl2 req st,
    gates hmac env req = None ->
    f_register fl1 = None ->
    f_register fl2 = None ->
    shopifyOrdersPaidWebhook parse hmac normalize html validEmail env fl2 req
      (shopifyOrdersPaidWebhook parse hmac normalize html validEmail env fl1 req st).1.2
    = (Responded 500,
       (shopifyOrdersPaidWebhook parse hmac normalize html validEmail env fl1 req st).1.2,
       []).
Proof.
  intros parse hmac normalize html validEmail env fl1 fl2 req st Hg H1 H2.
  set (st1 := (shopifyOrdersPaidWebhook parse hmac normalize html validEmail env fl1
                 req st).1.2).
  set (w := default "" (getShopifyHeader req "x-shopify-webhook-id")).
  assert (Hreg : existsb (fun ev => String.eqb (ev_webhookId ev) w) (events st1) = true).
  { subst st1. unfold shopifyOrdersPaidWebhook. rewrite Hg. fold w.
    unfold createEvent. rewrite H1.
    destruct (existsb _ (events st)) eqn:Hex.
    - destruct (isDuplicateKeyError _); cbn; exact Hex.
    - pose proof (processEvent_webhookIds parse normalize html validEmail env fl1 req
                    (next_id st)
                    (MkStore
                       (events st ++
                        [MkEvent (next_id st) "shopify" w
                           (default "" (getShopifyHeader req "x-shopify-topic"))
                           None "received" None])
                       (orders st) (plates st) (S (next_id st)))) as Hp.
      apply existsb_exists.
      assert (Hin : In w (webhookIds
                            (processEvent parse normalize html validEmail env fl1 req
                               (next_id st)
                               (MkStore
                                  (events st ++
                                   [MkEvent (next_id st) "shopify" w
                                      (default "" (getShopifyHeader req "x-shopify-topic"))
                                      None "received" None])
                                  (orders st) (plates st) (S (next_id st)))).1.2)).
      { rewrite Hp. unfold webhookIds. cbn. rewrite map_app.
        apply in_or_app. right. left. reflexivity. }
      unfold webhookIds in Hin. apply in_map_iff in Hin as [ev [Hev Hin]].
      exists ev. split; [exact Hin|]. rewrite Hev. apply String.eqb_refl. }
  unfold shopifyOrdersPaidWebhook. rewrite Hg. fold w.
  unfold createEvent. rewrite H2, Hreg.
  rewrite (proj1 uniqueViolation_unclassified). reflexivity.
Qed.

Lemma replay_is_answered_with_500_witness :
  shopifyOrdersPaidWebhook (parseAs "order" (packOfTwoOrder "client@example.com"))
    noHmac acceptUrl noHtml emailWithAt unverifiedEnv noFaults (delivery "order")
    (shopifyOrdersPaidWebhook (parseAs "order" (packOfTwoOrder "client@example.com"))
       noHmac acceptUrl noHtml emailWithAt unverifiedEnv noFaults (delivery "order")
       emptyStore).1.2
  = (Responded 500,
     (shopifyOrdersPaidWebhook (parseAs "order" (packOfTwoOrder "client@example.com"))
        noHmac acceptUrl noHtml emailWithAt unverifiedEnv noFaults (delivery "order")
        emptyStore).1.2,
     []).
Proof.
  apply (replay_is_answered_with_500 (parseAs "order" (packOfTwoOrder "client@example.com"))
           noHmac acceptUrl noHtml emailWithAt unverifiedEnv noFaults noFaults
           (delivery "order") emptyStore); reflexivity.
Defined.

(** ** Unresolved pack size *)

Lemma extractItem_relevantUrl item :
  extractItem item
  = match relevantUrl item with
    | None => Skip
    | Some url =>
        if String.eqb url "" then Skip
        else
          match getPackSize (Some item) with
          | None => Raise (Error_ "NO PACK SIZE")
          | Some packSize =>
              if packSize =? 0 then Raise (Error_ "NO PACK SIZE")
              else if negb (truthy (get "id" (Some item)))
                      && negb (truthy (get "admin_graphql_api_id" (Some item)))
              then Skip
              else
                Push (MkGroup url (itemQuantity (Some item) * packSize)
                        (String_ (get "id" (Some item)
                                  ?? get "admin_graphql_api_id" (Some item))))
          end
    end.
Proof. reflexivity. Qed.

Lemma extractItem_Raise item e :
  extractItem item = Raise e -> e = Error_ "NO PACK SIZE".
Proof.
  rewrite extractItem_relevantUrl.
  destruct (relevantUrl item) as [url|]; [|discriminate].
  destruct (String.eqb url ""); [discriminate|].
  destruct (getPackSize (Some item)) as [p|]; [|intros [= <-]; reflexivity].
  destruct (p =? 0); [intros [= <-]; reflexivity|].
  destruct (_ && _); discriminate.
Qed.

Lemma extractItem_unresolved item :
  unresolvedLine item -> extractItem item = Raise (Error_ "NO PACK SIZE").
Proof.
  intros [c [url [Hu Hp]]]. rewrite extractItem_relevantUrl, Hu, Hp. reflexivity.
Qed.

Lemma extractLoop_unresolved items acc :
  (exists item, In item items /\ unresolvedLine item) ->
  extractLoop items acc = Throw (Error_ "NO PACK SIZE").
Proof.
  revert acc. induction items as [|item items IH]; intros acc [it [Hin Hu]].
  - destruct Hin.
  - cbn [extractLoop]. destruct (extractItem item) as [|g|e] eqn:He.
    + destruct Hin as [<-|Hin].
      * rewrite (extractItem_unresolved _ Hu) in He. discriminate.
      * apply IH. eauto.
    + destruct Hin as [<-|Hin].
      * rewrite (extractItem_unresolved _ Hu) in He. discriminate.
      * apply IH. eauto.
    + rewrite (extractItem_Raise _ _ He). reflexivity.
Qed.

(** C3, what the code does.  For every first delivery of an event that
    names an order and a customer and holds a relevant line whose label
    resolves to no pack size, [extractGroups] throws, nothing catches the
    exception, and the run ends rejected with the DeliveryRecord still
    [received]; no Order or Plate row is written and no effect performed. *)
Theorem unresolved_pack_size_escapes_the_handler :
  forall parse hmac normalize html validEmail env fl req st body items,
    gates hmac env req = None ->
    f_register fl = None ->
    ~ In (default "" (getShopifyHeader req "x-shopify-webhook-id")) (webhookIds st) ->
    parse (rawBody req) = Some body ->
    orderNumberOf (Some body) <> "" ->
    customerEmailOf (Some body) <> "" ->
    get "line_items" (Some body) = Some (JArr items) ->
    (exists item, In item items /\ unresolvedLine item) ->
    shopifyOrdersPaidWebhook parse hmac normalize html validEmail env fl req st
    = (Rejected (Error_ "NO PACK SIZE"),
       MkStore (events st ++ [receivedEvent req st]) (orders st) (plates st)
         (S (next_id st)),
       []).
Proof.
  intros parse hmac normalize html validEmail env fl req st body items
    Hg Hf Hnew Hparse Ho He Hitems Hun.
  unfold shopifyOrdersPaidWebhook. rewrite Hg. unfold createEvent. rewrite Hf.
  destruct (existsb _ (events st)) eqn:Hex.
  { exfalso. apply Hnew. apply existsb_exists in Hex as [ev [Hin Heq]].
    apply String.eqb_eq in Heq. rewrite <- Heq. unfold webhookIds.
    apply in_map. exact Hin. }
  unfold processEvent. rewrite Hparse.
  fold (orderNumberOf (Some body)). fold (customerEmailOf (Some body)).
  destruct (String.eqb_spec (orderNumberOf (Some body)) ""); [contradiction|].
  destruct (String.eqb_spec (customerEmailOf (Some body)) ""); [contradiction|].
  cbn [orb]. unfold extractGroups. rewrite Hitems.
  rewrite (extractLoop_unresolved items [] Hun). reflexivity.
Qed.

Lemma unresolved_pack_size_witness :
  shopifyOrdersPaidWebhook (parseAs "order" unsupportedPackOrder)
    noHmac acceptUrl noHtml emailWithAt unverifiedEnv noFaults (delivery "order") emptyStore
  = (Rejected (Error_ "NO PACK SIZE"),
     MkStore [MkEvent 0 "shopify" "w1" "orders/paid" None "received" None] [] [] 1,
     []).
Proof.
  apply (unresolved_pack_size_escapes_the_handler
           (parseAs "order" unsupportedPackOrder) noHmac acceptUrl noHtml emailWithAt
           unverifiedEnv noFaults (delivery "order") emptyStore
           unsupportedPackOrder
           [googleLine "li_77" 1 "10 Plaques" reviewLink []]).
  - reflexivity.
  - reflexivity.
  - cbn. tauto.
  - reflexivity.
  - discriminate.
  - discriminate.
  - reflexivity.
  - eexists. split; [left; reflexivity|].
    exists "h"%char, "ttps://g.page/r/ABC123/review". split; reflexivity.
Defined.

(** ** Source keys *)

Lemma string_app_inv_head p a b : p +:+ a = p +:+ b -> a = b.
Proof.
  induction p as [|c p IH]; intros H; [exact H|].
  apply IH. injection H as H. exact H.
Qed.

Lemma sourceKey_inj o lid i j : sourceKey o lid i = sourceKey o lid j -> i = j.
Proof.
  unfold sourceKey. intros H.
  repeat apply string_app_inv_head in H.
  apply (inj pretty) in H. exact H.
Qed.

Lemma existsb_eqb_false (A : Type) (f : A -> string) k l :
  ~ In k (map f l) -> existsb (fun x => String.eqb (f x) k) l = false.
Proof.
  intros H. apply not_true_is_false. intros Hex.
  apply existsb_exists in Hex as [x [Hin Heq]]. apply String.eqb_eq in Heq.
  apply H. rewrite <- Heq. apply in_map. exact Hin.
Qed.

Lemma existsb_eqb_true (A : Type) (f : A -> string) k l :
  In k (map f l) -> existsb (fun x => String.eqb (f x) k) l = true.
Proof.
  intros H. apply in_map_iff in H as [x [Heq Hin]].
  apply existsb_exists. exists x. split; [exact Hin|]. rewrite Heq.
  apply String.eqb_refl.
Qed.

(** ** A pass over units that are all missing *)

Lemma unitsLoop_fresh attempts o oid lid url count :
  (forall n, at_fault (attempts n) = None) ->
  (forall n m, at_slug (attempts n) = at_slug (attempts m) -> n = m) ->
  forall first g,
    (forall n, (g_calls g <= n)%nat -> ~ In (at_slug (attempts n)) (slugs (g_store g))) ->
    (forall i, first <= i < first + Z.of_nat count ->
               (sourceKey o lid i ∉ g_keys g)
               /\ ~ In (sourceKey o lid i) (sourceKeys (g_store g))) ->
    exists keys',
      unitsLoop attempts o oid lid url count first g
      = UContinue
          (MkGen
             (MkStore (events (g_store g)) (orders (g_store g))
                (plates (g_store g)
                 ++ freshPlates attempts o oid lid url count first
                      (next_id (g_store g)) (g_calls g))
                (next_id (g_store g) + count)%nat)
             keys'
             (g_created g ++ freshCreated attempts url count (g_calls g))
             (g_calls g + count)%nat)
      /\ (forall k, k ∈ keys'
                    <-> k ∈ g_keys g
                        \/ exists i, first <= i < first + Z.of_nat count
                                     /\ k = sourceKey o lid i).
Proof.
  intros Hfault Hinj. induction count as [|count IH]; intros first g Hslug Hkeys.
  - exists (g_keys g). split.
    + cbn. destruct g as [[ev ord pl nid] keys created calls]. cbn.
      rewrite app_nil_r, !Nat.add_0_r. rewrite (app_nil_r created). reflexivity.
    + intros k. split; [tauto|]. intros [H|[i [Hi _]]]; [exact H|lia].
  - cbn [unitsLoop]. unfold createUnit.
    destruct (Hkeys first ltac:(lia)) as [Hk1 Hk2].
    rewrite bool_decide_eq_false_2 by exact Hk1.
    unfold createPlate. rewrite Hfault.
    rewrite existsb_eqb_false by exact Hk2.
    rewrite existsb_eqb_false by (apply Hslug; lia).
    match goal with |- context [unitsLoop _ _ _ _ _ count (first + 1) ?g1] =>
      destruct (IH (first + 1) g1) as [keys' [Hrun Hmem]] end.
    + cbn. intros n Hn Hin. unfold slugs in Hin. cbn in Hin.
      rewrite map_app in Hin. apply in_app_or in Hin as [Hin|[Hin|[]]].
      * apply (Hslug n); [lia|exact Hin].
      * apply Hinj in Hin. lia.
    + cbn. intros i Hi. destruct (Hkeys i ltac:(lia)) as [Hi1 Hi2]. split.
      * intros Hin. apply elem_of_union in Hin as [Hin|Hin]; [|contradiction].
        apply elem_of_singleton in Hin. apply sourceKey_inj in Hin. lia.
      * unfold sourceKeys. cbn. rewrite map_app. intros Hin.
        apply in_app_or in Hin as [Hin|[Hin|[]]]; [contradiction|].
        apply sourceKey_inj in Hin. lia.
    + exists keys'. split.
      * rewrite Hrun. cbn. f_equal. f_equal.
        -- f_equal; [rewrite <- app_assoc; reflexivity | lia].
        -- rewrite <- app_assoc. reflexivity.
        -- lia.
      * intros k. rewrite Hmem. cbn. rewrite elem_of_union, elem_of_singleton. split.
        -- intros [[->|H]|[i [Hi ->]]].
           ++ right. exists first. split; [lia|reflexivity].
           ++ left. exact H.
           ++ right. exists i. split; [lia|reflexivity].
        -- intros [H|[i [Hi ->]]]; [tauto|].
           destruct (Z.eq_dec i first) as [->|Hne]; [tauto|].
           right. exists i. split; [lia|reflexivity].
Qed.

Lemma In_take (A : Type) (x : A) n l : In x (take n l) -> In x l.
Proof.
  intros H. rewrite <- (take_drop n l). apply in_or_app. left. exact H.
Qed.

(** The snapshot holds source keys of the store only. *)
Lemma snapshot_sound oid st k :
  k ∈ (list_to_set
         (List.filter (fun k => negb (String.eqb k ""))
            (map pl_sourceKey
               (take 500
                  (rev (List.filter (fun p => (pl_order p =? oid)%nat) (plates st))))))
       : gset string) ->
  In k (sourceKeys st).
Proof.
  rewrite elem_of_list_to_set, list_elem_of_In, filter_In, in_map_iff.
  intros [[p [<- Hin]] _]. apply In_take in Hin. apply in_rev in Hin.
  apply filter_In in Hin as [Hin _].
  unfold sourceKeys. apply in_map. exact Hin.
Qed.

Lemma generatePlates_single_fresh normalize fl o oid grp st c u :
  f_findPlates fl = None ->
  cleanAttempts (f_attempts fl) st ->
  lineItemId grp <> "" ->
  normalize (reviewUrl grp) = Some (String c u) ->
  (forall i, 0 <= i < units grp ->
             ~ In (sourceKey o (lineItemId grp) i) (sourceKeys st)) ->
  exists keys',
    generatePlates normalize fl o oid [grp] st
    = GDone
        (MkGen
           (MkStore (events st) (orders st)
              (plates st
               ++ freshPlates (f_attempts fl) o oid (lineItemId grp) (String c u)
                    (Z.to_nat (units grp)) 0 (next_id st) 0)
              (next_id st + Z.to_nat (units grp))%nat)
           keys'
           (freshCreated (f_attempts fl) (String c u) (Z.to_nat (units grp)) 0)
           (Z.to_nat (units grp))).
Proof.
  intros Hfind [Hfault [Hslug Hinj]] Hid Hurl Hmissing.
  unfold generatePlates, findPlates. rewrite Hfind. cbn [groupsLoop].
  destruct (String.eqb_spec (lineItemId grp) "") as [Heq|_]; [contradiction|].
  rewrite Hurl. cbn [or_else].
  match goal with |- context [unitsLoop ?a ?b ?c ?d ?e ?cnt ?f ?g0] =>
    destruct (unitsLoop_fresh a b c d e cnt Hfault Hinj f g0) as [keys' [Hrun _]] end.
  - intros m _. apply Hslug.
  - cbn. intros i Hi. split.
    + intros Hin. apply snapshot_sound in Hin. apply (Hmissing i); [lia|exact Hin].
    + apply Hmissing. lia.
  - exists keys'. rewrite Hrun. reflexivity.
Qed.

(** ** End to end *)

Lemma gates_None_topic hmac env req :
  gates hmac env req = None ->
  getShopifyHeader req "x-shopify-topic" = Some "orders/paid".
Proof.
  unfold gates.
  destruct (bool_decide (getShopifyHeader req "x-shopify-topic" = Some "orders/paid"))
    eqn:Et; [|discriminate].
  intros _. apply bool_decide_eq_true in Et. exact Et.
Qed.

(** C5, as the code has it.  The event of order 1001 with one line
    [li_77] that carries [google_business_url], quantity 2 and the variant
    label [2 Plaques], with a customer e-mail that the validation of the
    orders accepts, first delivered to an empty store by a request that
    passes the gates, with no failure of the infrastructure, is answered
    200 and leaves one Order 1001 with [activated = true] and four Plate
    rows (units = 2 x 2), with the source keys [1001|li_77|0] to
    [1001|li_77|3], each pointing to the validated destination URL, and
    the DeliveryRecord [processed]; the order lists its plates as the
    final read returns them, the newest first. *)
Theorem end_to_end_pack_of_two :
  forall parse hmac normalize html validEmail env fl req webhookId email c u,
    gates hmac env req = None ->
    getShopifyHeader req "x-shopify-webhook-id" = Some webhookId ->
    parse (rawBody req) = Some (packOfTwoOrder email) ->
    email <> "" ->
    validEmail email = true ->
    normalize reviewLink = Some (String c u) ->
    noStorageFaults fl ->
    cleanAttempts (f_attempts fl) emptyStore ->
    exists rows fx,
      shopifyOrdersPaidWebhook parse hmac normalize html validEmail env fl req emptyStore
      = (Responded 200,
         MkStore
           [MkEvent 0 "shopify" webhookId "orders/paid" (Some "1001") "processed" None]
           [MkOrder 1 "1001" email "paid" [5; 4; 3; 2]%nat true]
           rows 6,
         fx)
      /\ map (fun p => (pl_sourceKey p, pl_googleReviewUrl p, pl_order p)) rows
         = [("1001|li_77|0", String c u, 1%nat); ("1001|li_77|1", String c u, 1%nat);
            ("1001|li_77|2", String c u, 1%nat); ("1001|li_77|3", String c u, 1%nat)].
Proof.
  intros parse hmac normalize html validEmail env fl req webhookId email c u
    Hg Hw Hparse Hemail Hvalid Hn (Hreg & Hmark & Hfo & Hso & Hfp & Hff & Hfz) Hclean.
  unfold shopifyOrdersPaidWebhook. rewrite Hg, Hw, (gates_None_topic _ _ _ Hg).
  change (default "" (Some webhookId)) with webhookId.
  change (default "" (Some "orders/paid")) with "orders/paid".
  unfold createEvent. rewrite Hreg. cbn [emptyStore events existsb orders plates next_id app].
  unfold processEvent. rewrite Hparse.
  fold (orderNumberOf (Some (packOfTwoOrder email))).
  fold (customerEmailOf (Some (packOfTwoOrder email))).
  change (orderNumberOf (Some (packOfTwoOrder email))) with "1001".
  change (customerEmailOf (Some (packOfTwoOrder email))) with email.
  destruct (String.eqb_spec email "") as [|_]; [contradiction|].
  replace (extractGroups (Some (packOfTwoOrder email)))
    with (Ok [MkGroup reviewLink 4 "li_77"]) by (vm_compute; reflexivity).
  cbn [existsb units orb Z.eqb Z.leb Z.compare].
  unfold findOrder. rewrite Hfo. cbn [orders List.filter rev head].
  unfold createOrder, validateOrder. rewrite Hso, Hvalid.
  cbn [orders existsb events plates next_id app or_id].
  destruct (generatePlates_single_fresh normalize fl "1001" 1
              (MkGroup reviewLink 4 "li_77")
              (MkStore [MkEvent 0 "shopify" webhookId "orders/paid" None "received" None]
                 [MkOrder 1 "1001" email "paid" [] false] [] 2) c u)
    as [keys' Hgen].
  { exact Hfp. } { exact Hclean. } { discriminate. } { exact Hn. }
  { intros i _ []. }
  rewrite Hgen. clear Hgen.
  change (("1001" =? "")%string || false) with false. cbv iota.
  unfold finalize, findPlates, updateOrder, markEvent, updateEvent.
  rewrite Hff, Hfz, Hmark.
  cbn -[String.append].
  eexists. eexists. split; reflexivity.
Qed.

Lemma end_to_end_pack_of_two_witness :
  exists rows fx,
    shopifyOrdersPaidWebhook
      (parseAs "order" (packOfTwoOrder "client@example.com"))
      (fun _ _ => "c2lnbmF0dXJl") acceptUrl noHtml emailWithAt
      (MkEnv None (Some "shpss_secret") None None) noFaults
      (signedDelivery "order" "c2lnbmF0dXJl") emptyStore
    = (Responded 200,
       MkStore
         [MkEvent 0 "shopify" "w1" "orders/paid" (Some "1001") "processed" None]
         [MkOrder 1 "1001" "client@example.com" "paid" [5; 4; 3; 2]%nat true]
         rows 6,
       fx)
    /\ map (fun p => (pl_sourceKey p, pl_googleReviewUrl p, pl_order p)) rows
       = [("1001|li_77|0", reviewLink, 1%nat); ("1001|li_77|1", reviewLink, 1%nat);
          ("1001|li_77|2", reviewLink, 1%nat); ("1001|li_77|3", reviewLink, 1%nat)].
Proof.
  apply (end_to_end_pack_of_two
           (parseAs "order" (packOfTwoOrder "client@example.com"))
           (fun _ _ => "c2lnbmF0dXJl") acceptUrl noHtml emailWithAt
           (MkEnv None (Some "shpss_secret") None None) noFaults
           (signedDelivery "order" "c2lnbmF0dXJl") "w1"
           "client@example.com" "h"%char "ttps://g.page/r/ABC123/review").
  - reflexivity.
  - reflexivity.
  - reflexivity.
  - discriminate.
  - reflexivity.
  - reflexivity.
  - repeat split.
  - split; [reflexivity|]. split.
    + intros n [].
    + intros n m H. injection H as H. exact (pretty_nat_inj _ _ H).
Defined.

(** C5, as stated, fails: the run of the scenario leaves four Plate rows,
    not two. *)
Lemma pack_of_two_makes_four_plates :
  let st' :=
    (shopifyOrdersPaidWebhook
       (parseAs "order" (packOfTwoOrder "client@example.com"))
       noHmac acceptUrl noHtml emailWithAt unverifiedEnv noFaults (delivery "order")
       emptyStore).1.2 in
  sourceKeys st' = ["1001|li_77|0"; "1001|li_77|1"; "1001|li_77|2"; "1001|li_77|3"]
  /\ length (plates st') = 4%nat
  /\ sourceKeys st' <> ["1001|li_77|0"; "1001|li_77|1"].
Proof. vm_compute. repeat split. discriminate. Qed.

Lemma freshAttempts_clean st : plates st = [] -> cleanAttempts freshAttempts st.
Proof.
  intros Hp. split; [reflexivity|]. split.
  - intros n. unfold slugs. rewrite Hp. intros [].
  - intros n m H. injection H as H. exact (pretty_nat_inj _ _ H).
Qed.

(** ** Units *)

Lemma itemQuantity_positive item : 0 < itemQuantity item.
Proof.
  unfold itemQuantity. destruct (Number_ _) as [|z]; [lia|].
  cbn. destruct (Z.ltb_spec 0 z); lia.
Qed.

Lemma extractItem_Push item g :
  extractItem item = Push g ->
  exists p,
    getPackSize (Some item) = Some p
    /\ allowedPack p
    /\ units g = itemQuantity (Some item) * p
    /\ relevantUrl item = Some (reviewUrl g).
Proof.
  rewrite extractItem_relevantUrl.
  destruct (relevantUrl item) as [url|]; [|discriminate].
  destruct (String.eqb url ""); [discriminate|].
  destruct (getPackSize (Some item)) as [p|] eqn:Hp; [|discriminate].
  destruct (p =? 0); [discriminate|].
  destruct (_ && _); [discriminate|].
  intros [= <-]. exists p. repeat split.
  apply getPackSize_spec in Hp as [m [_ [_ Ha]]]. exact Ha.
Qed.

(** C4.  A line that yields a group has a pack size that the resolver
    returned, one of 1, 2 and 5, and its units are quantity x packSize; a
    relevant line with a resolved pack size and an id yields such a group; a
    relevant line whose pack size is unresolved yields no group but an
    exception; quantity 3 with pack size 2 gives 6 units; and a group of 6
    units of which no plate exists yet makes the generation step insert
    exactly six rows, with the unit indices 0 to 5 in their source keys. *)
Theorem units_computation :
  (forall item g,
      extractItem item = Push g ->
      exists p,
        getPackSize (Some item) = Some p
        /\ allowedPack p
        /\ units g = itemQuantity (Some item) * p)
  /\ (forall item c url p,
        relevantUrl item = Some (String c url) ->
        getPackSize (Some item) = Some p ->
        truthy (get "id" (Some item)) = true ->
        exists id,
          extractItem item
          = Push (MkGroup (String c url) (itemQuantity (Some item) * p) id))
  /\ (forall item,
        unresolvedLine item -> extractItem item = Raise (Error_ "NO PACK SIZE"))
  /\ (forall item g,
        extractItem item = Push g ->
        itemQuantity (Some item) = 3 ->
        getPackSize (Some item) = Some 2 ->
        units g = 6)
  /\ extractGroups
       (Some (paidOrder 1001 "client@example.com"
                [googleLine "li_77" 3 "2 Plaques" reviewLink []]))
     = Ok [MkGroup reviewLink 6 "li_77"]
  /\ (forall normalize fl o oid grp st c u,
        units grp = 6 ->
        f_findPlates fl = None ->
        cleanAttempts (f_attempts fl) st ->
        lineItemId grp <> "" ->
        normalize (reviewUrl grp) = Some (String c u) ->
        (forall i, 0 <= i < 6 ->
                   ~ In (sourceKey o (lineItemId grp) i) (sourceKeys st)) ->
        exists g',
          generatePlates normalize fl o oid [grp] st = GDone g'
          /\ sourceKeys (g_store g')
             = (sourceKeys st
                ++ map (sourceKey o (lineItemId grp)) [0; 1; 2; 3; 4; 5])%list
          /\ length (plates (g_store g')) = (length (plates st) + 6)%nat
          /\ length (g_created g') = 6%nat).
Proof.
  split.
  { intros item g H. destruct (extractItem_Push _ _ H) as [p [Hp [Ha [Hu _]]]].
    exists p. auto. }
  split.
  { intros item c url p Hu Hp Hid. rewrite extractItem_relevantUrl, Hu, Hp, Hid.
    apply getPackSize_spec in Hp as [m [_ [_ Ha]]].
    destruct Ha as [-> | [-> | ->]]; eexists; reflexivity. }
  split; [exact extractItem_unresolved|].
  split.
  { intros item g H Hq Hp. destruct (extractItem_Push _ _ H) as [p [Hp' [_ [Hu _]]]].
    rewrite Hp in Hp'. injection Hp' as <-. rewrite Hu, Hq. reflexivity. }
  split; [reflexivity|].
  intros normalize fl o oid grp st c u Hu Hfind Hclean Hid Hurl Hmissing.
  destruct (generatePlates_single_fresh normalize fl o oid grp st c u
              Hfind Hclean Hid Hurl) as [keys' Hgen].
  { rewrite Hu. exact Hmissing. }
  rewrite Hgen, Hu. eexists. split; [reflexivity|].
  unfold sourceKeys. cbn. rewrite map_app, length_app. cbn. auto.
Qed.

Lemma units_computation_witness :
  exists g',
    generatePlates acceptUrl noFaults "1001" 1 [MkGroup reviewLink 6 "li_77"] emptyStore
    = GDone g'
    /\ sourceKeys (g_store g')
       = (sourceKeys emptyStore
          ++ map (sourceKey "1001" "li_77") [0; 1; 2; 3; 4; 5])%list
    /\ length (plates (g_store g')) = (length (plates emptyStore) + 6)%nat
    /\ length (g_created g') = 6%nat.
Proof.
  apply (proj2 (proj2 (proj2 (proj2 (proj2 units_computation))))
           acceptUrl noFaults "1001" 1%nat (MkGroup reviewLink 6 "li_77") emptyStore
           "h"%char "ttps://g.page/r/ABC123/review").
  - reflexivity.
  - reflexivity.
  - apply freshAttempts_clean. reflexivity.
  - discriminate.
  - reflexivity.
  - intros i _ [].
Defined.

(** ** Finalization *)

Lemma finalize_ledger_write html env fl eventId o email oid g :
  match finalize html env fl eventId o email oid g with
  | (Responded status, _, fx) =>
      status = 200
      /\ exists rest, fx = EventUpdate eventId (processedData o (g_created g)) :: rest
  | (Rejected _, _, fx) => fx = []
  end.
Proof.
  unfold finalize. destruct (findPlates _ _ _) as [finalPlates|e]; [|reflexivity].
  destruct (updateOrder _ _ _ _ _) as [[ord|e] st1]; [|reflexivity].
  unfold markEvent.
  destruct (updateEvent _ _ _ _) as [[[]|e] st2]; cbn;
    (split; [reflexivity|]); eexists; reflexivity.
Qed.

Lemma setEventField_undeclared ev k v :
  ~ In k WebhookEvents_fields -> setEventField ev (k, v) = ev.
Proof.
  intros H. unfold setEventField.
  destruct (existsb (String.eqb k) WebhookEvents_fields) eqn:Hex; [|reflexivity].
  exfalso. apply H. apply existsb_exists in Hex as [f [Hin Heq]].
  apply String.eqb_eq in Heq. subst. exact Hin.
Qed.

Lemma finalize_marks_processed html env fl eventId o email oid g st' fx ev :
  finalize html env fl eventId o email oid g = (Responded 200, st', fx) ->
  f_mark fl = None ->
  In ev (events (g_store g)) ->
  ev_id ev = eventId ->
  In (MkEvent eventId (ev_provider ev) (ev_webhookId ev) (ev_topic ev)
        (Some o) "processed" (ev_error ev))
     (events st').
Proof.
  unfold finalize. intros Hrun Hmark Hin Hid.
  destruct (findPlates _ _ _) as [finalPlates|e]; [|discriminate].
  match type of Hrun with context [updateOrder ?a ?v ?b ?c ?d] =>
    pose proof (updateOrder_frame a v b c d) as [He _];
    destruct (updateOrder a v b c d) as [[ord|e] st1] end; [|discriminate].
  cbn in He. unfold markEvent, updateEvent in Hrun. rewrite Hmark, He in Hrun.
  assert (Hex : existsb (fun ev0 => (ev_id ev0 =? eventId)%nat) (events (g_store g)) = true).
  { apply existsb_exists. exists ev. split; [exact Hin|]. apply Nat.eqb_eq. exact Hid. }
  rewrite Hex in Hrun. injection Hrun as <- _. cbn [events].
  apply in_map_iff. exists ev. split; [|exact Hin].
  rewrite (proj2 (Nat.eqb_eq _ _) Hid). subst eventId. reflexivity.
Qed.

(** C9, what the code does.  The ledger write of a run that ends in
    [finalize] sends the status [processed], the order number and
    [createdPlatesCount], the number of plates created in the run; when
    the write succeeds the DeliveryRecord holds [processed] and the order
    number; the [webhook-events] collection declares no field named
    [createdPlatesCount], so the record that is persisted is the one the
    first two entries give, whatever the count.  In the run of the pack-of-two event the write
    sends the count 4 and the record holds [processed] and [1001] only. *)
Theorem ledger_write_names_undeclared_field :
  (forall html env fl eventId o email oid g,
      match finalize html env fl eventId o email oid g with
      | (Responded status, _, fx) =>
          status = 200
          /\ exists rest,
              fx = EventUpdate eventId (processedData o (g_created g)) :: rest
      | (Rejected _, _, fx) => fx = []
      end)
  /\ (forall html env fl eventId o email oid g st' fx ev,
        finalize html env fl eventId o email oid g = (Responded 200, st', fx) ->
        f_mark fl = None ->
        In ev (events (g_store g)) ->
        ev_id ev = eventId ->
        In (MkEvent eventId (ev_provider ev) (ev_webhookId ev) (ev_topic ev)
              (Some o) "processed" (ev_error ev))
           (events st'))
  /\ In "createdPlatesCount" (map fst (processedData "1001" []))
  /\ ~ In "createdPlatesCount" WebhookEvents_fields
  /\ (forall ev o created,
        applyEventData (processedData o created) ev
        = applyEventData [("status", JStr "processed"); ("orderNumber", JStr o)] ev)
  /\ shopifyOrdersPaidWebhook
       (parseAs "order" (packOfTwoOrder "client@example.com"))
       noHmac acceptUrl noHtml emailWithAt unverifiedEnv noFaults (delivery "order") emptyStore
     = (Responded 200,
        MkStore
          [MkEvent 0 "shopify" "w1" "orders/paid" (Some "1001") "processed" None]
          [MkOrder 1 "1001" "client@example.com" "paid" [5; 4; 3; 2]%nat true]
          (freshPlates freshAttempts "1001" 1 "li_77" reviewLink 4 0 2 0)
          6,
        [EventUpdate 0
           [("status", JStr "processed"); ("orderNumber", JStr "1001");
            ("createdPlatesCount", JNum 4)]]).
Proof.
  split; [exact finalize_ledger_write|].
  split; [exact finalize_marks_processed|].
  split; [cbn; tauto|].
  split; [cbn; intuition discriminate|].
  split; [|vm_compute; reflexivity].
  intros ev o created. unfold applyEventData, processedData. cbn [fold_left].
  apply setEventField_undeclared. cbn. intuition discriminate.
Qed.

(** ** Idempotent generation *)

Lemma countKey_unique k st :
  NoDup (sourceKeys st) -> In k (sourceKeys st) -> countKey k st = 1%nat.
Proof.
  unfold sourceKeys, countKey. generalize (plates st) as l.
  induction l as [|p l IH]; intros Hnd Hin; [destruct Hin|].
  cbn in *. apply NoDup_cons in Hnd as [Hnotin Hnd].
  rewrite list_elem_of_In in Hnotin.
  destruct (String.eqb_spec (pl_sourceKey p) k) as [Heq|Hne].
  - cbn. f_equal. subst k.
    assert (Hnone : forall l', ~ In (pl_sourceKey p) (map pl_sourceKey l') ->
              List.filter (fun q => String.eqb (pl_sourceKey q) (pl_sourceKey p)) l' = []).
    { induction l' as [|q l' IH']; intros H; [reflexivity|]. cbn in *.
      destruct (String.eqb_spec (pl_sourceKey q) (pl_sourceKey p)) as [Heq|_].
      - exfalso. apply H. left. exact Heq.
      - apply IH'. intros Hin'. apply H. right. exact Hin'. }
    rewrite Hnone by exact Hnotin. reflexivity.
  - apply IH; [exact Hnd|]. destruct Hin as [Heq|Hin]; [contradiction|exact Hin].
Qed.

(** One unit under clean attempts, when every stored key of a watched
    unit is known: the loop goes on and the unit has its row. *)
Lemma createUnit_clean watched attempts st0 o oid lid url i g :
  cleanAttempts attempts st0 ->
  watched (sourceKey o lid i) ->
  loopInv watched attempts st0 g ->
  exists g',
    createUnit attempts o oid lid url i g = UContinue g'
    /\ loopInv watched attempts st0 g'
    /\ In (sourceKey o lid i) (sourceKeys (g_store g'))
    /\ (forall k, In k (sourceKeys (g_store g)) -> In k (sourceKeys (g_store g'))).
Proof.
  intros [Hfault [Hslug Hinj]] Hw (Hnd & Hkeys & Hsl & Hmono & Hknown).
  unfold createUnit.
  destruct (bool_decide_reflect (sourceKey o lid i ∈ g_keys g)) as [Hin|Hnin].
  { exists g. split; [reflexivity|]. split; [repeat split; assumption|].
    split; [apply Hkeys; exact Hin | auto]. }
  assert (Hfresh : ~ In (sourceKey o lid i) (sourceKeys (g_store g))).
  { intros Hin. apply Hnin. apply Hknown; assumption. }
  unfold createPlate. rewrite Hfault.
  rewrite (existsb_eqb_false _ pl_sourceKey) by exact Hfresh.
  rewrite existsb_eqb_false.
  2:{ intros Hin. destruct (Hsl _ Hin) as [H|[n [Hn Heq]]].
      - exact (Hslug _ H).
      - apply Hinj in Heq. lia. }
  eexists. split; [reflexivity|]. unfold loopInv, sourceKeys, slugs in *. cbn.
  rewrite !map_app. cbn. split; [|split].
  - split; [|split; [|split; [|split]]].
    + apply NoDup_app. split; [exact Hnd|]. split.
      * intros k Hk Hk'. apply list_elem_of_In in Hk, Hk'.
        destruct Hk' as [<-|[]]. contradiction.
      * apply NoDup_singleton.
    + intros k Hk. apply in_or_app. apply elem_of_union in Hk as [Hk|Hk].
      * apply elem_of_singleton in Hk. subst. right. left. reflexivity.
      * left. apply Hkeys. exact Hk.
    + intros s Hs. apply in_app_or in Hs as [Hs|[<-|[]]].
      * destruct (Hsl s Hs) as [H|[n [Hn ->]]]; [left; exact H|].
        right. exists n. split; [lia|reflexivity].
      * right. exists (g_calls g). split; [lia|reflexivity].
    + intros k Hk. apply in_or_app. left. apply Hmono. exact Hk.
    + intros k Hwk Hk. apply elem_of_union. apply in_app_or in Hk as [Hk|[<-|[]]].
      * right. apply Hknown; assumption.
      * left. apply elem_of_singleton. reflexivity.
  - apply in_or_app. right. left. reflexivity.
  - intros k Hk. apply in_or_app. left. exact Hk.
Qed.

Lemma unitsLoop_clean watched attempts st0 o oid lid url count :
  cleanAttempts attempts st0 ->
  forall first g,
    (forall i, first <= i < first + Z.of_nat count -> watched (sourceKey o lid i)) ->
    loopInv watched attempts st0 g ->
    exists g',
      unitsLoop attempts o oid lid url count first g = UContinue g'
      /\ loopInv watched attempts st0 g'
      /\ (forall i, first <= i < first + Z.of_nat count ->
                    In (sourceKey o lid i) (sourceKeys (g_store g')))
      /\ (forall k, In k (sourceKeys (g_store g)) -> In k (sourceKeys (g_store g'))).
Proof.
  intros Hclean. induction count as [|count IH]; intros first g Hw Hinv.
  - exists g. split; [reflexivity|]. split; [exact Hinv|]. split; [intros i Hi; lia|auto].
  - cbn [unitsLoop].
    destruct (createUnit_clean watched attempts st0 o oid lid url first g Hclean
                (Hw first ltac:(lia)) Hinv)
      as [g1 [Hrun [Hinv1 [Hin1 Hmono1]]]].
    rewrite Hrun.
    destruct (IH (first + 1) g1) as [g2 [Hrun2 [Hinv2 [Hin2 Hmono2]]]].
    { intros i Hi. apply Hw. lia. }
    { exact Hinv1. }
    exists g2. split; [exact Hrun2|]. split; [exact Hinv2|]. split.
    + intros i Hi. destruct (Z.eq_dec i first) as [->|Hne].
      * apply Hmono2. exact Hin1.
      * apply Hin2. lia.
    + intros k Hk. apply Hmono2, Hmono1. exact Hk.
Qed.

Lemma groupsLoop_clean watched normalize attempts st0 o oid groups :
  cleanAttempts attempts st0 ->
  Forall (validGroup normalize) groups ->
  (forall k, unitKey o groups k -> watched k) ->
  forall g,
    loopInv watched attempts st0 g ->
    exists g',
      groupsLoop normalize attempts o oid groups g = GDone g'
      /\ loopInv watched attempts st0 g'
      /\ allUnitsPresent o groups (g_store g')
      /\ (forall k, In k (sourceKeys (g_store g)) -> In k (sourceKeys (g_store g'))).
Proof.
  intros Hclean Hvalid. induction Hvalid as [|grp groups [Hid [c [u Hurl]]] _ IH];
    intros Hw g Hinv.
  - exists g. split; [reflexivity|]. split; [exact Hinv|].
    split; [intros grp i []|auto].
  - cbn [groupsLoop].
    destruct (String.eqb_spec (lineItemId grp) "") as [Heq|_]; [contradiction|].
    rewrite Hurl. cbn [or_else].
    destruct (unitsLoop_clean watched attempts st0 o oid (lineItemId grp) (String c u)
                (Z.to_nat (units grp)) Hclean 0 g)
      as [g1 [Hrun [Hinv1 [Hin1 Hmono1]]]].
    { intros i Hi. apply Hw. exists grp, i.
      split; [left; reflexivity|]. split; [lia|reflexivity]. }
    { exact Hinv. }
    rewrite Hrun.
    destruct (IH ltac:(intros k (grp' & i & Hin & Hi & ->); apply Hw;
                       exists grp', i; split; [right; exact Hin|auto]) g1 Hinv1)
      as [g2 [Hrun2 [Hinv2 [Hin2 Hmono2]]]].
    exists g2. split; [exact Hrun2|]. split; [exact Hinv2|]. split.
    + intros grp' i [<-|Hin] Hi.
      * apply Hmono2, Hin1. lia.
      * apply Hin2; assumption.
    + intros k Hk. apply Hmono2, Hmono1. exact Hk.
Qed.

(** The first pass under clean attempts, the snapshot seeing every unit
    that has a plate already: it completes, every unit has its row, and
    source keys stay unique. *)
Lemma generatePlates_clean normalize fl o oid groups st :
  NoDup (sourceKeys st) ->
  f_findPlates fl = None ->
  cleanAttempts (f_attempts fl) st ->
  Forall (validGroup normalize) groups ->
  snapshotCovers o oid groups st ->
  exists g',
    generatePlates normalize fl o oid groups st = GDone g'
    /\ NoDup (sourceKeys (g_store g'))
    /\ allUnitsPresent o groups (g_store g').
Proof.
  intros Hnd Hfind Hclean Hvalid Hcov. unfold generatePlates, findPlates. rewrite Hfind.
  fold (snapshotKeys oid st).
  destruct (groupsLoop_clean (unitKey o groups) normalize (f_attempts fl) st o oid groups
              Hclean Hvalid (fun k H => H) (MkGen st (snapshotKeys oid st) [] 0))
    as [g' [Hrun [Hinv [Hall _]]]].
  - split; [exact Hnd|]. split; [|split; [|split]].
    + intros k Hk. cbn in *. apply snapshot_sound in Hk. exact Hk.
    + intros s Hs. left. exact Hs.
    + auto.
    + intros k Hk Hin. apply Hcov; assumption.
  - exists g'. split; [exact Hrun|]. split; [apply Hinv|exact Hall].
Qed.

(** A unit whose row exists: whatever the attempt brings, the store and
    [createdPlates] are left as they are. *)
Lemma createUnit_present attempts o oid lid url i g :
  In (sourceKey o lid i) (sourceKeys (g_store g)) ->
  g_store (units_state (createUnit attempts o oid lid url i g)) = g_store g
  /\ g_created (units_state (createUnit attempts o oid lid url i g)) = g_created g.
Proof.
  intros Hin. unfold createUnit.
  destruct (bool_decide _); [split; reflexivity|].
  unfold createPlate. destruct (at_fault _) as [e|].
  - destruct (isDuplicateKeyError (Some e)); split; reflexivity.
  - rewrite (existsb_eqb_true _ pl_sourceKey) by exact Hin.
    destruct (isDuplicateKeyError _); split; reflexivity.
Qed.

Lemma unitsLoop_present attempts o oid lid url count :
  forall first g,
    (forall i, first <= i < first + Z.of_nat count ->
               In (sourceKey o lid i) (sourceKeys (g_store g))) ->
    g_store (units_state (unitsLoop attempts o oid lid url count first g)) = g_store g
    /\ g_created (units_state (unitsLoop attempts o oid lid url count first g))
       = g_created g.
Proof.
  induction count as [|count IH]; intros first g Hall; [split; reflexivity|].
  cbn [unitsLoop].
  destruct (createUnit_present attempts o oid lid url first g (Hall first ltac:(lia)))
    as [Hs Hc].
  destruct (createUnit attempts o oid lid url first g) as [g1|e g1]; cbn in Hs, Hc.
  - destruct (IH (first + 1) g1) as [Hs' Hc'].
    + intros i Hi. rewrite Hs. apply Hall. lia.
    + rewrite Hs', Hc'. auto.
  - cbn. auto.
Qed.

Lemma groupsLoop_present normalize attempts o oid groups :
  forall g,
    allUnitsPresent o groups (g_store g) ->
    g_store (out_state (groupsLoop normalize attempts o oid groups g)) = g_store g
    /\ g_created (out_state (groupsLoop normalize attempts o oid groups g))
       = g_created g.
Proof.
  induction groups as [|grp groups IH]; intros g Hall; [split; reflexivity|].
  cbn [groupsLoop]. destruct (String.eqb _ ""); [split; reflexivity|].
  destruct (or_else _ None) as [url|]; [|split; reflexivity].
  destruct (unitsLoop_present attempts o oid (lineItemId grp) url
              (Z.to_nat (units grp)) 0 g) as [Hs Hc].
  { intros i Hi. apply Hall; [left; reflexivity|lia]. }
  destruct (unitsLoop _ _ _ _ _ _ _ _) as [g1|e g1]; cbn in Hs, Hc.
  - destruct (IH g1) as [Hs' Hc'].
    + intros grp' i Hin Hi. rewrite Hs. apply Hall; [right; exact Hin|exact Hi].
    + rewrite Hs', Hc'. auto.
  - cbn. auto.
Qed.

(** A pass over a store that holds a row for every unit changes nothing
    and creates nothing, whatever failures and slugs it meets. *)
Lemma generatePlates_present normalize fl o oid groups st :
  allUnitsPresent o groups st ->
  g_store (out_state (generatePlates normalize fl o oid groups st)) = st
  /\ g_created (out_state (generatePlates normalize fl o oid groups st)) = [].
Proof.
  intros Hall. unfold generatePlates. destruct (findPlates _ _ _) as [existing|e].
  - match goal with |- context [groupsLoop _ _ _ _ _ ?g0] =>
      apply (groupsLoop_present normalize (f_attempts fl) o oid groups g0) end.
    exact Hall.
  - split; reflexivity.
Qed.

(** C1, as the code has it.  When the snapshot sees every unit that has
    a plate already, and the creation attempts of a pass meet no failure
    of the infrastructure and draw slugs that are new and pairwise
    distinct, the pass over groups that pass the per-group checks
    completes, and every unit index [i] in [0, units) of every group has
    exactly one plate row with the source key
    [orderNumber|lineItemId|i]; a second pass over the same order and
    groups, whatever failures and slugs it meets, leaves the store as it
    is and creates nothing.  A key of the snapshot is skipped without a
    storage call; a creation error that [isDuplicateKeyError] classifies
    as a duplicate is swallowed; any other creation error ends the loops
    with that exception, which the handler does not catch: the run of the
    pack-of-two event whose first creation fails with [connection reset]
    ends rejected with that error, the DeliveryRecord [received] and no
    plate. *)
Theorem plate_generation_idempotent :
  (forall normalize fl o oid groups st,
      NoDup (sourceKeys st) ->
      f_findPlates fl = None ->
      cleanAttempts (f_attempts fl) st ->
      Forall (validGroup normalize) groups ->
      snapshotCovers o oid groups st ->
      exists g1,
        generatePlates normalize fl o oid groups st = GDone g1
        /\ (forall grp i,
              In grp groups -> 0 <= i < units grp ->
              countKey (sourceKey o (lineItemId grp) i) (g_store g1) = 1%nat)
        /\ (forall fl2,
              g_store (out_state (generatePlates normalize fl2 o oid groups (g_store g1)))
              = g_store g1
              /\ g_created
                   (out_state (generatePlates normalize fl2 o oid groups (g_store g1)))
                 = []))
  /\ (forall attempts o oid lid url i g,
        sourceKey o lid i ∈ g_keys g ->
        createUnit attempts o oid lid url i g = UContinue g)
  /\ (forall attempts o oid lid url i g e,
        sourceKey o lid i ∉ g_keys g ->
        at_fault (attempts (g_calls g)) = Some e ->
        isDuplicateKeyError (Some e) = true ->
        createUnit attempts o oid lid url i g
        = UContinue (MkGen (g_store g) (g_keys g) (g_created g) (S (g_calls g))))
  /\ (forall attempts o oid lid url i g e count,
        sourceKey o lid i ∉ g_keys g ->
        at_fault (attempts (g_calls g)) = Some e ->
        isDuplicateKeyError (Some e) = false ->
        unitsLoop attempts o oid lid url (S count) i g
        = UThrew e (MkGen (g_store g) (g_keys g) (g_created g) (S (g_calls g))))
  /\ (forall normalize attempts o oid grp rest g c u e g',
        lineItemId grp <> "" ->
        normalize (reviewUrl grp) = Some (String c u) ->
        unitsLoop attempts o oid (lineItemId grp) (String c u)
          (Z.to_nat (units grp)) 0 g = UThrew e g' ->
        groupsLoop normalize attempts o oid (grp :: rest) g = GThrew e g')
  /\ shopifyOrdersPaidWebhook
       (parseAs "order" (packOfTwoOrder "client@example.com"))
       noHmac acceptUrl noHtml emailWithAt unverifiedEnv (failingCreation plainFailure)
       (delivery "order") emptyStore
     = (Rejected plainFailure,
        MkStore [MkEvent 0 "shopify" "w1" "orders/paid" None "received" None]
          [MkOrder 1 "1001" "client@example.com" "paid" [] false] [] 2,
        []).
Proof.
  split; [|split; [|split; [|split; [|split; [|reflexivity]]]]].
  - intros normalize fl o oid groups st Hnd Hfind Hclean Hvalid Hcov.
    destruct (generatePlates_clean normalize fl o oid groups st Hnd Hfind Hclean Hvalid
                Hcov) as [g1 [Hrun [Hnd1 Hall]]].
    exists g1. split; [exact Hrun|]. split.
    + intros grp i Hin Hi. apply countKey_unique; [exact Hnd1|]. apply Hall; assumption.
    + intros fl2. apply generatePlates_present. exact Hall.
  - intros attempts o oid lid url i g Hin. unfold createUnit.
    rewrite bool_decide_eq_true_2 by exact Hin. reflexivity.
  - intros attempts o oid lid url i g e Hnin Hfault Hdup. unfold createUnit, createPlate.
    rewrite bool_decide_eq_false_2 by exact Hnin. rewrite Hfault, Hdup. reflexivity.
  - intros attempts o oid lid url i g e count Hnin Hfault Hdup.
    cbn [unitsLoop]. unfold createUnit, createPlate.
    rewrite bool_decide_eq_false_2 by exact Hnin. rewrite Hfault, Hdup. reflexivity.
  - intros normalize attempts o oid grp rest g c u e g' Hid Hurl Hrun.
    cbn [groupsLoop].
    destruct (String.eqb_spec (lineItemId grp) "") as [Heq|_]; [contradiction|].
    rewrite Hurl. cbn [or_else]. rewrite Hrun. reflexivity.
Qed.

Lemma plate_generation_idempotent_witness :
  exists g1,
    generatePlates acceptUrl noFaults "1001" 1
      [MkGroup reviewLink 4 "li_77"; MkGroup reviewLink 1 "li_78"] emptyStore
    = GDone g1
    /\ (forall grp i,
          In grp [MkGroup reviewLink 4 "li_77"; MkGroup reviewLink 1 "li_78"] ->
          0 <= i < units grp ->
          countKey (sourceKey "1001" (lineItemId grp) i) (g_store g1) = 1%nat)
    /\ (forall fl2,
          g_store
            (out_state
               (generatePlates acceptUrl fl2 "1001" 1
                  [MkGroup reviewLink 4 "li_77"; MkGroup reviewLink 1 "li_78"]
                  (g_store g1)))
          = g_store g1
          /\ g_created
               (out_state
                  (generatePlates acceptUrl fl2 "1001" 1
                     [MkGroup reviewLink 4 "li_77"; MkGroup reviewLink 1 "li_78"]
                     (g_store g1)))
             = []).
Proof.
  apply (proj1 plate_generation_idempotent acceptUrl noFaults "1001" 1%nat
           [MkGroup reviewLink 4 "li_77"; MkGroup reviewLink 1 "li_78"] emptyStore).
  - apply NoDup_nil_2.
  - reflexivity.
  - apply freshAttempts_clean. reflexivity.
  - repeat constructor; try discriminate;
      exists "h"%char, "ttps://g.page/r/ABC123/review"; reflexivity.
  - intros k _ [].
Defined.

(** C1, as stated, fails.  On the empty store, where no source key can be
    taken, a creation that fails for another reason than uniqueness, with
    the word [unique] in its message, is taken for a duplicate and does
    not end the pass: the pass completes, and the unit [1001|li_77|0] is
    left without a plate row. *)
Lemma plate_generation_swallows_failures :
  at_fault (f_attempts (failingCreation misreportedFailure) 0)
  = Some misreportedFailure
  /\ sourceKeys emptyStore = []
  /\ isDuplicateKeyError (Some misreportedFailure) = true
  /\ generatePlates acceptUrl (failingCreation misreportedFailure) "1001" 1
       singleUnit emptyStore
     = GDone (MkGen emptyStore ∅ [] 1)
  /\ countKey "1001|li_77|0" emptyStore = 0%nat.
Proof. repeat split; vm_compute; reflexivity. Qed.

(** ** The pack-size branch of the handler *)

(** Every group that [extractGroups] returns has a positive number of
    units, so the handler's test [!g.units || g.units <= 0] never fires:
    an unresolved pack size reaches the handler as an exception only. *)
Lemma extractLoop_units_positive items :
  forall acc groups,
    Forall (fun g => 0 < units g) acc ->
    extractLoop items acc = Ok groups ->
    Forall (fun g => 0 < units g) groups.
Proof.
  induction items as [|item items IH]; intros acc groups Hacc Hrun.
  - injection Hrun as <-. exact Hacc.
  - cbn [extractLoop] in Hrun. destruct (extractItem item) as [|g|e] eqn:Hitem.
    + exact (IH _ _ Hacc Hrun).
    + refine (IH _ _ _ Hrun). apply Forall_app. split; [exact Hacc|].
      constructor; [|constructor].
      destruct (extractItem_Push _ _ Hitem) as [p [_ [Ha [Hu _]]]].
      rewrite Hu. pose proof (itemQuantity_positive (Some item)).
      destruct Ha as [-> | [-> | ->]]; lia.
    + discriminate.
Qed.

Lemma pack_size_branch_unreachable body groups :
  extractGroups body = Ok groups ->
  existsb (fun g => (units g =? 0) || (units g <=? 0)) groups = false.
Proof.
  intros Hrun. unfold extractGroups in Hrun.
  apply extractLoop_units_positive in Hrun; [|constructor].
  apply not_true_is_false. intros Hex.
  apply existsb_exists in Hex as [g [Hin Hg]].
  rewrite Forall_forall in Hrun. apply list_elem_of_In in Hin.
  specialize (Hrun g Hin).
  apply orb_true_iff in Hg as [Hg|Hg]; [apply Z.eqb_eq in Hg | apply Z.leb_le in Hg]; lia.
Qed.

(* ---------------------------------------------------------------------- *)
(** ** escapeHtml                                                           *)
(* ---------------------------------------------------------------------- *)

(** Replacing a one-character pattern rewrites character by character. *)
Lemma replaceAll_char_cons (c d : ascii) (by_ s : string) :
  replaceAll (String c "") by_ (String d s) =
  (if Ascii.eqb c d then by_ else String d "") +:+ replaceAll (String c "") by_ s.
Proof.
  unfold replaceAll. cbn [replaceAll_from startsWith String.length Nat.sub].
  replace (startsWith (String c "") (String d s)) with (Ascii.eqb c d).
  - destruct (Ascii.eqb c d); reflexivity.
  - cbn. destruct (Ascii.eqb c d) eqn:E.
    + apply Ascii.eqb_eq in E. subst. destruct (ascii_dec d d); [|congruence].
      destruct s; reflexivity.
    + apply Ascii.eqb_neq in E. destruct (ascii_dec c d); [congruence|reflexivity].
Qed.

Lemma replaceAll_char_nil (c : ascii) (by_ : string) :
  replaceAll (String c "") by_ "" = "".
Proof. reflexivity. Qed.

Lemma string_app_assoc' (a b c : string) : (a +:+ b) +:+ c = a +:+ (b +:+ c).
Proof. induction a as [|x a IH]; [reflexivity|]. rewrite !string_app_cons, IH. reflexivity. Qed.

Lemma string_app_nil_r (a : string) : a +:+ "" = a.
Proof. induction a as [|x a IH]; [reflexivity|]. rewrite string_app_cons, IH. reflexivity. Qed.

(** A one-character replacement distributes over concatenation. *)
Lemma replaceAll_char_app (c : ascii) (by_ a b : string) :
  replaceAll (String c "") by_ (a +:+ b) =
  replaceAll (String c "") by_ a +:+ replaceAll (String c "") by_ b.
Proof.
  induction a as [|x a IH]; [reflexivity|].
  rewrite string_app_cons, !replaceAll_char_cons, IH, string_app_assoc'. reflexivity.
Qed.

Lemma escapeHtml_app (a b : string) :
  escapeHtml (a +:+ b) = escapeHtml a +:+ escapeHtml b.
Proof. unfold escapeHtml. rewrite !replaceAll_char_app. reflexivity. Qed.

Lemma escapeHtml_char (c : ascii) : escapeHtml (String c "") = escapeChar c.
Proof.
  unfold escapeChar.
  destruct (Ascii.eqb c "&") eqn:E1; [apply Ascii.eqb_eq in E1; subst; reflexivity|].
  destruct (Ascii.eqb c "<") eqn:E2; [apply Ascii.eqb_eq in E2; subst; reflexivity|].
  destruct (Ascii.eqb c ">") eqn:E3; [apply Ascii.eqb_eq in E3; subst; reflexivity|].
  destruct (Ascii.eqb c dquote) eqn:E4; [apply Ascii.eqb_eq in E4; subst; reflexivity|].
  destruct (Ascii.eqb c "'") eqn:E5; [apply Ascii.eqb_eq in E5; subst; reflexivity|].
  unfold escapeHtml.
  rewrite Ascii.eqb_sym in E1, E2, E3, E4, E5.
  rewrite !replaceAll_char_cons, !replaceAll_char_nil, ?E1, ?string_app_nil_r.
  rewrite !replaceAll_char_cons, !replaceAll_char_nil, ?E2, ?string_app_nil_r.
  rewrite !replaceAll_char_cons, !replaceAll_char_nil, ?E3, ?string_app_nil_r.
  rewrite !replaceAll_char_cons, !replaceAll_char_nil, ?E4, ?string_app_nil_r.
  rewrite !replaceAll_char_cons, !replaceAll_char_nil, ?E5, ?string_app_nil_r.
  reflexivity.
Qed.

Lemma escapeHtml_cons (c : ascii) (s : string) :
  escapeHtml (String c s) = escapeChar c +:+ escapeHtml s.
Proof.
  change (String c s) with (String c "" +:+ s).
  rewrite escapeHtml_app, escapeHtml_char. reflexivity.
Qed.

(** X1. The five successive replacements of [escapeHtml] amount to one
    pass that replaces each character by its own entity: the ampersands
    that the later replacements introduce are never escaped again, and
    the ampersand of the input always is. *)
Theorem escapeHtml_single_pass (s : string) : escapeHtml s = escapeEach s.
Proof.
  induction s as [|c s IH]; [reflexivity|].
  rewrite escapeHtml_cons, IH. reflexivity.
Qed.

Lemma allOf_app (p : ascii -> bool) (a b : string) :
  allOf p (a +:+ b) <-> allOf p a /\ allOf p b.
Proof.
  induction a as [|x a IH]; [cbn; tauto|].
  rewrite string_app_cons. cbn [allOf]. rewrite IH. tauto.
Qed.

Lemma escapeChar_no_markup (c : ascii) :
  allOf (fun x => negb (isMarkup x)) (escapeChar c).
Proof.
  unfold escapeChar.
  destruct (Ascii.eqb c "&") eqn:E1; [cbn; tauto|].
  destruct (Ascii.eqb c "<") eqn:E2; [cbn; tauto|].
  destruct (Ascii.eqb c ">") eqn:E3; [cbn; tauto|].
  destruct (Ascii.eqb c dquote) eqn:E4; [cbn; tauto|].
  destruct (Ascii.eqb c "'") eqn:E5; [cbn; tauto|].
  cbn [allOf]. unfold isMarkup. rewrite E2, E3, E4, E5. cbn. tauto.
Qed.

Lemma escapeChar_prefix_free (c d : ascii) (a b : string) :
  escapeChar c +:+ a = escapeChar d +:+ b -> c = d /\ a = b.
Proof.
  unfold escapeChar.
  destruct (Ascii.eqb c "&") eqn:C1; [apply Ascii.eqb_eq in C1|apply Ascii.eqb_neq in C1];
  [|destruct (Ascii.eqb c "<") eqn:C2; [apply Ascii.eqb_eq in C2|apply Ascii.eqb_neq in C2];
  [|destruct (Ascii.eqb c ">") eqn:C3; [apply Ascii.eqb_eq in C3|apply Ascii.eqb_neq in C3];
  [|destruct (Ascii.eqb c dquote) eqn:C4; [apply Ascii.eqb_eq in C4|apply Ascii.eqb_neq in C4];
  [|destruct (Ascii.eqb c "'") eqn:C5; [apply Ascii.eqb_eq in C5|apply Ascii.eqb_neq in C5]]]]];
  (destruct (Ascii.eqb d "&") eqn:D1; [apply Ascii.eqb_eq in D1|apply Ascii.eqb_neq in D1];
  [|destruct (Ascii.eqb d "<") eqn:D2; [apply Ascii.eqb_eq in D2|apply Ascii.eqb_neq in D2];
  [|destruct (Ascii.eqb d ">") eqn:D3; [apply Ascii.eqb_eq in D3|apply Ascii.eqb_neq in D3];
  [|destruct (Ascii.eqb d dquote) eqn:D4; [apply Ascii.eqb_eq in D4|apply Ascii.eqb_neq in D4];
  [|destruct (Ascii.eqb d "'") eqn:D5; [apply Ascii.eqb_eq in D5|apply Ascii.eqb_neq in D5]]]]]);
  subst; rewrite ?string_app_cons; change ("" +:+ a) with a; change ("" +:+ b) with b;
  intros H; try discriminate H; try (injection H as; subst; try congruence; split; congruence).
Qed.

(** X2. The escaped text holds none of the characters that open or close
    markup or an attribute value, and escaping loses nothing: two texts
    with the same escaped form are the same text. *)
Theorem escapeHtml_safe_and_injective :
  (forall s, allOf (fun c => negb (isMarkup c)) (escapeHtml s)) /\
  (forall a b, escapeHtml a = escapeHtml b -> a = b).
Proof.
  split.
  - intros s. induction s as [|c s IH]; [exact I|].
    rewrite escapeHtml_cons. apply allOf_app.
    split; [apply escapeChar_no_markup|exact IH].
  - intros a. induction a as [|c a IH]; intros [|d b] H.
    + reflexivity.
    + exfalso. rewrite escapeHtml_cons in H. unfold escapeChar in H.
      repeat (destruct (Ascii.eqb d _); [discriminate H|]). discriminate H.
    + exfalso. rewrite escapeHtml_cons in H. unfold escapeChar in H.
      repeat (destruct (Ascii.eqb c _); [discriminate H|]). discriminate H.
    + rewrite !escapeHtml_cons in H. apply escapeChar_prefix_free in H as [-> H].
      f_equal. apply IH, H.
Qed.

(* ---------------------------------------------------------------------- *)
(** ** findReviewUrlInProperties and the loop of extractGroups              *)
(* ---------------------------------------------------------------------- *)

Lemma toLowerCase_app (a b : string) :
  toLowerCase (a +:+ b) = toLowerCase a +:+ toLowerCase b.
Proof.
  induction a as [|c a IH]; [reflexivity|].
  rewrite string_app_cons. cbn [toLowerCase]. rewrite IH, string_app_cons. reflexivity.
Qed.

Lemma trimStart_suffix (s : string) : exists pre, s = pre +:+ trimStart s.
Proof.
  induction s as [|c s [pre IH]]; [exists ""; reflexivity|].
  cbn [trimStart]. destruct (is_space c).
  - exists (String c pre). rewrite string_app_cons. congruence.
  - exists "". reflexivity.
Qed.

Lemma trimEnd_prefix (s : string) : exists post, s = trimEnd s +:+ post.
Proof.
  induction s as [|c s [post IH]]; [exists ""; reflexivity|].
  cbn [trimEnd]. destruct (trimEnd s) as [|d t] eqn:E.
  - destruct (is_space c).
    + exists (String c s). reflexivity.
    + exists s. reflexivity.
  - exists post. rewrite string_app_cons. congruence.
Qed.

Lemma trimEnd_idem (s : string) : trimEnd (trimEnd s) = trimEnd s.
Proof.
  induction s as [|c s IH]; [reflexivity|].
  cbn [trimEnd]. destruct (trimEnd s) as [|d t] eqn:E.
  - destruct (is_space c) eqn:Ec; [reflexivity|]. cbn [trimEnd]. rewrite Ec. reflexivity.
  - cbn [trimEnd] in *. rewrite IH. reflexivity.
Qed.

Lemma trimEnd_head (c : ascii) (s : string) :
  is_space c = false -> exists t, trimEnd (String c s) = String c t.
Proof.
  intros Hc. cbn [trimEnd]. destruct (trimEnd s); [rewrite Hc|]; eauto.
Qed.

Lemma trim_idem (s : string) : trim (trim s) = trim s.
Proof.
  unfold trim. destruct (trimStart s) as [|c t] eqn:E; [reflexivity|].
  assert (Hc : is_space c = false).
  { clear -E. induction s as [|d s IH]; [discriminate|].
    cbn [trimStart] in E. destruct (is_space d) eqn:Ed; [auto|congruence]. }
  destruct (trimEnd_head c t Hc) as [u Hu].
  rewrite <- (trimEnd_idem (String c t)) at 2.
  f_equal. rewrite Hu. cbn [trimStart]. rewrite Hc. reflexivity.
Qed.

Lemma occursIn_trim (n s : string) : occursIn n (toLowerCase (trim s)) -> occursIn n (toLowerCase s).
Proof.
  intros (pre & post & H). unfold trim in H.
  destruct (trimStart_suffix s) as [a Ha].
  destruct (trimEnd_prefix (trimStart s)) as [b Hb].
  exists (toLowerCase a +:+ pre), (post +:+ toLowerCase b).
  rewrite Ha at 1. rewrite Hb at 1.
  rewrite !toLowerCase_app, H, !string_app_assoc'. reflexivity.
Qed.

Lemma exactName_loose (p : JSON) : exactName p -> looseName p.
Proof.
  unfold exactName, looseName. intros H. apply occursIn_trim. rewrite H.
  exists "", "_business_url". reflexivity.
Qed.

Lemma find__some (pred : JSON -> bool) (l : list JSON) (x : JSON) :
  find_ pred l = Some x ->
  exists pre post, l = (pre ++ x :: post)%list /\ pred x = true
                   /\ forall y, In y pre -> pred y = false.
Proof.
  induction l as [|y l IH]; [discriminate|].
  cbn [find_]. destruct (pred y) eqn:E.
  - intros [= ->]. exists [], l. repeat split; [exact E|intros ? []].
  - intros H. destruct (IH H) as (pre & post & -> & Hx & Hpre).
    exists (y :: pre), post. repeat split; [exact Hx|].
    intros z [<-|Hz]; auto.
Qed.

Lemma find__first (pred : JSON -> bool) (pre post : list JSON) (x : JSON) :
  (forall y, In y pre -> pred y = false) -> pred x = true ->
  find_ pred (pre ++ x :: post) = Some x.
Proof.
  intros Hpre Hx. induction pre as [|y pre IH]; cbn [find_ app].
  - rewrite Hx. reflexivity.
  - rewrite (Hpre y (or_introl eq_refl)). apply IH. intros z Hz. apply Hpre. right. exact Hz.
Qed.

Lemma find__none (pred : JSON -> bool) (l : list JSON) :
  (forall y, In y l -> pred y = false) -> find_ pred l = None.
Proof.
  intros H. induction l as [|y l IH]; [reflexivity|].
  cbn [find_]. rewrite (H y (or_introl eq_refl)). apply IH. intros z Hz. apply H. right. exact Hz.
Qed.

Lemma truthy_get_Some (k : string) (o : option JSON) :
  truthy (get k o) = true -> exists p, o = Some p.
Proof. destruct o; [eauto|discriminate]. Qed.

(** X3. Whatever [findReviewUrlInProperties] returns is the trimmed text
    of the value of one of the given properties, whose name mentions
    [google] and whose value is truthy; the result carries no surrounding
    white space.  In particular a list in which no name mentions [google]
    gives [null]. *)
Theorem review_url_comes_from_a_google_property (properties : list JSON) (url : string) :
  findReviewUrlInProperties properties = Some url ->
  exists p,
    In p properties
    /\ looseName p
    /\ truthy (get "value" (Some p)) = true
    /\ url = trim (String_ (get "value" (Some p)))
    /\ trim url = url.
Proof.
  unfold findReviewUrlInProperties.
  match goal with |- context [truthy (get "value" (find_ ?f properties))] =>
    destruct (find_ f properties) as [p|] eqn:Ee end.
  - destruct (truthy (get "value" (Some p))) eqn:Tp.
    + intros H; injection H as <-. exists p.
      apply find__some in Ee as (pre & post & -> & Hp & _).
      repeat split; [apply in_elt| |exact Tp|apply trim_idem].
      apply exactName_loose. unfold exactName. apply String.eqb_eq. exact Hp.
    + match goal with |- context [truthy (get "value" (find_ ?f properties))] =>
        destruct (find_ f properties) as [q|] eqn:El end; [|discriminate].
      destruct (truthy (get "value" (Some q))) eqn:Tq; [|discriminate].
      intros H; injection H as <-. exists q.
      apply find__some in El as (pre & post & -> & Hq & _).
      repeat split; [apply in_elt| |exact Tq|apply trim_idem].
      apply includes_spec. exact Hq.
  - cbn [get truthy].
    match goal with |- context [truthy (get "value" (find_ ?f properties))] =>
      destruct (find_ f properties) as [q|] eqn:El end; [|discriminate].
    destruct (truthy (get "value" (Some q))) eqn:Tq; [|discriminate].
    intros H; injection H as <-. exists q.
    apply find__some in El as (pre & post & -> & Hq & _).
    repeat split; [apply in_elt| |exact Tq|apply trim_idem].
    apply includes_spec. exact Hq.
Qed.

Lemma review_url_comes_from_a_google_property_witness :
  exists p,
    In p [JObj [("name", JStr "Color"); ("value", JStr "red")];
          JObj [("name", JStr "My Google link"); ("value", JStr " https://g.page/r/A/review ")]]
    /\ looseName p
    /\ truthy (get "value" (Some p)) = true
    /\ "https://g.page/r/A/review" = trim (String_ (get "value" (Some p)))
    /\ trim "https://g.page/r/A/review" = "https://g.page/r/A/review".
Proof.
  apply (review_url_comes_from_a_google_property
           [JObj [("name", JStr "Color"); ("value", JStr "red")];
            JObj [("name", JStr "My Google link"); ("value", JStr " https://g.page/r/A/review ")]]).
  reflexivity.
Defined.

(** X4. Only the first property whose name mentions [google] is looked at
    when no preferred name carries a value: if that first property has
    the preferred name and a falsy value, the result is [null], whatever
    the properties after it hold. *)
Theorem empty_preferred_property_hides_the_others
  (before after : list JSON) (p : JSON) :
  (forall q, In q before -> ~ looseName q) ->
  exactName p ->
  truthy (get "value" (Some p)) = false ->
  findReviewUrlInProperties (before ++ p :: after) = None.
Proof.
  intros Hb Hp Tp. unfold findReviewUrlInProperties.
  rewrite find__first.
  - rewrite Tp. rewrite find__first.
    + rewrite Tp. reflexivity.
    + intros q Hq. apply not_true_is_false. intros H. apply (Hb q Hq).
      apply includes_spec. exact H.
    + apply includes_spec. apply exactName_loose. exact Hp.
  - intros q Hq. apply not_true_is_false. intros H. apply (Hb q Hq).
    apply exactName_loose. apply String.eqb_eq. exact H.
  - apply String.eqb_eq. exact Hp.
Qed.

Lemma empty_preferred_property_hides_the_others_witness :
  findReviewUrlInProperties
    ([JObj [("name", JStr "Color"); ("value", JStr "red")]]
       ++ JObj [("name", JStr " Google_Business_URL "); ("value", JStr "")]
       :: [JObj [("name", JStr "google_link"); ("value", JStr "https://g.page/r/A/review")]])
  = None.
Proof.
  apply empty_preferred_property_hides_the_others.
  - intros q [<-|[]] H. apply includes_spec in H. vm_compute in H. discriminate H.
  - reflexivity.
  - reflexivity.
Defined.

Lemma extractLoop_acc (items : list JSON) (acc : list Group) :
  extractLoop items acc =
  match extractLoop items [] with
  | Ok gs => Ok (acc ++ gs)%list
  | Throw e => Throw e
  end.
Proof.
  revert acc. induction items as [|item items IH]; intros acc; cbn [extractLoop].
  - rewrite app_nil_r. reflexivity.
  - destruct (extractItem item) as [|g|e]; [apply IH| |reflexivity].
    rewrite (IH (acc ++ [g])%list), (IH ([] ++ [g])%list).
    destruct (extractLoop items []); [|reflexivity].
    rewrite <- app_assoc. reflexivity.
Qed.

Lemma extractLoop_spec (items : list JSON) :
  match extractLoop items [] with
  | Ok gs => (forall item, In item items -> ~ raises item) /\ gs = omap pushed items
  | Throw e =>
      exists before item after,
        items = (before ++ item :: after)%list
        /\ (forall i, In i before -> ~ raises i)
        /\ extractItem item = Raise e
  end.
Proof.
  induction items as [|item items IH]; cbn [extractLoop].
  - split; [intros ? []|reflexivity].
  - destruct (extractItem item) as [|g|e] eqn:E.
    + destruct (extractLoop items []) as [gs|e].
      * destruct IH as [Hn ->]. split.
        -- intros i [<-|Hi]; [intros [e He]; congruence|auto].
        -- change (omap pushed (item :: items))
             with (match pushed item with
                   | Some y => y :: omap pushed items
                   | None => omap pushed items
                   end).
           replace (pushed item) with (@None Group) by (unfold pushed; rewrite E; reflexivity).
           reflexivity.
      * destruct IH as (before & it & after & -> & Hb & Hr).
        exists (item :: before), it, after. repeat split; [|exact Hr].
        intros i [<-|Hi]; [intros [e' He]; congruence|auto].
    + rewrite extractLoop_acc. destruct (extractLoop items []) as [gs|e].
      * destruct IH as [Hn ->]. split.
        -- intros i [<-|Hi]; [intros [e He]; congruence|auto].
        -- change (omap pushed (item :: items))
             with (match pushed item with
                   | Some y => y :: omap pushed items
                   | None => omap pushed items
                   end).
           replace (pushed item) with (Some g) by (unfold pushed; rewrite E; reflexivity).
           reflexivity.
      * destruct IH as (before & it & after & -> & Hb & Hr).
        exists (item :: before), it, after. repeat split; [|exact Hr].
        intros i [<-|Hi]; [intros [e' He]; congruence|auto].
    + exists [], item, items. repeat split; [intros ? []|exact E].
Qed.

(** X5. [extractGroups] returns exactly the groups of the line items that
    contribute one, in the order of the line items, provided no line item
    throws; a body without a [line_items] array gives no group.  When a
    line item throws, the call throws the error of the first such line,
    which is ["NO PACK SIZE"], and the groups of the lines before it are
    lost. *)
Theorem extractGroups_is_an_ordered_selection (body : option JSON) :
  match extractGroups body with
  | Ok groups =>
      (forall item, In item (lineItemsOf body) -> ~ raises item)
      /\ groups = omap pushed (lineItemsOf body)
  | Throw e =>
      e = Error_ "NO PACK SIZE"
      /\ exists before item after,
           lineItemsOf body = (before ++ item :: after)%list
           /\ (forall i, In i before -> ~ raises i)
           /\ extractItem item = Raise e
  end.
Proof.
  unfold extractGroups. fold (lineItemsOf body).
  pose proof (extractLoop_spec (lineItemsOf body)) as H.
  destruct (extractLoop (lineItemsOf body) []) as [gs|e]; [exact H|].
  split; [|exact H].
  destruct H as (_ & item & _ & _ & _ & Hr).
  apply extractItem_Raise in Hr. exact Hr.
Qed.

(* ---------------------------------------------------------------------- *)
(** ** The rows that a generation inserts                                   *)
(* ---------------------------------------------------------------------- *)

Lemma appended_refl (P : Plate -> Prop) (g : GenState) : appended P [] g g.
Proof.
  unfold appended. cbn. rewrite !app_nil_r, Nat.add_0_r. repeat split; constructor.
Qed.

Lemma appended_same_store (P : Plate -> Prop) (g g' : GenState) :
  g_store g' = g_store g -> g_created g' = g_created g -> appended P [] g g'.
Proof.
  intros Hs Hc. unfold appended. rewrite Hs, Hc. cbn.
  rewrite !app_nil_r, Nat.add_0_r. repeat split; constructor.
Qed.

Lemma appended_trans (P : Plate -> Prop) (r1 r2 : list Plate) (g1 g2 g3 : GenState) :
  appended P r1 g1 g2 -> appended P r2 g2 g3 -> appended P (r1 ++ r2) g1 g3.
Proof.
  intros (Hp1 & Ho1 & He1 & Hn1 & Hi1 & Hc1 & Hf1) (Hp2 & Ho2 & He2 & Hn2 & Hi2 & Hc2 & Hf2).
  unfold appended. rewrite Hp2, Hp1, Ho2, Ho1, He2, He1, Hn2, Hn1, Hc2, Hc1.
  rewrite !map_app, !length_app, <- !app_assoc, seq_app, Hi1, Hi2, Hn1.
  repeat split; [lia|]. apply Forall_app. split; assumption.
Qed.

Lemma appended_weaken (P Q : Plate -> Prop) (rows : list Plate) (g g' : GenState) :
  (forall r, P r -> Q r) -> appended P rows g g' -> appended Q rows g g'.
Proof.
  intros HPQ (Hp & Ho & He & Hn & Hi & Hc & Hf). unfold appended.
  repeat split; try assumption. eapply Forall_impl; eassumption.
Qed.

Lemma createUnit_appended attempts o oid lid url i g :
  exists rows,
    appended (fun r => pl_order r = oid /\ pl_status r = "activated"
                       /\ pl_sourceKey r = sourceKey o lid i
                       /\ pl_googleReviewUrl r = url)
      rows g (units_state (createUnit attempts o oid lid url i g)).
Proof.
  unfold createUnit.
  destruct (bool_decide (sourceKey o lid i ∈ g_keys g)).
  { exists []. apply appended_refl. }
  unfold createPlate.
  destruct (at_fault (attempts (g_calls g))) as [e|].
  { exists []. destruct (isDuplicateKeyError (Some e)); apply appended_same_store; reflexivity. }
  destruct (existsb _ (plates (g_store g))).
  { exists []. destruct (isDuplicateKeyError _); apply appended_same_store; reflexivity. }
  destruct (existsb _ (plates (g_store g))).
  { exists []. destruct (isDuplicateKeyError _); apply appended_same_store; reflexivity. }
  eexists [_]. unfold appended. cbn.
  repeat split; [lia|]. repeat constructor.
Qed.

Lemma unitsLoop_appended attempts o oid lid url count :
  forall first g,
    exists rows,
      appended (fun r => pl_order r = oid /\ pl_status r = "activated"
                         /\ pl_googleReviewUrl r = url
                         /\ exists i, first <= i < first + Z.of_nat count
                                      /\ pl_sourceKey r = sourceKey o lid i)
        rows g (units_state (unitsLoop attempts o oid lid url count first g)).
Proof.
  induction count as [|count IH]; intros first g.
  { exists []. apply appended_refl. }
  cbn [unitsLoop].
  destruct (createUnit_appended attempts o oid lid url first g) as [r1 H1].
  apply (appended_weaken _
           (fun r => pl_order r = oid /\ pl_status r = "activated"
                     /\ pl_googleReviewUrl r = url
                     /\ exists i, first <= i < first + Z.of_nat (S count)
                                  /\ pl_sourceKey r = sourceKey o lid i)) in H1.
  2:{ intros r (? & ? & ? & ?). repeat split; try assumption. exists first. split; [lia|assumption]. }
  destruct (createUnit attempts o oid lid url first g) as [g1|e g1]; cbn [units_state] in *.
  - destruct (IH (first + 1) g1) as [r2 H2].
    exists (r1 ++ r2)%list. eapply appended_trans; [exact H1|].
    eapply appended_weaken; [|exact H2].
    intros r (? & ? & ? & j & ? & ?). repeat split; try assumption.
    exists j. split; [lia|assumption].
  - exists r1. exact H1.
Qed.

Lemma unitRow_cons normalize o oid grp groups r :
  unitRow normalize o oid groups r -> unitRow normalize o oid (grp :: groups) r.
Proof.
  intros (? & ? & g & i & ? & ?). repeat split; try assumption.
  exists g, i. split; [right; assumption|assumption].
Qed.

Lemma or_else_Some (a : option string) (v : string) :
  or_else a None = Some v -> a = Some v /\ v <> "".
Proof. destruct a as [[|c s]|]; cbn; intros [= <-]. split; [reflexivity|discriminate]. Qed.

Lemma groupsLoop_appended normalize attempts o oid groups :
  forall g,
    exists rows,
      appended (unitRow normalize o oid groups) rows g
        (out_state (groupsLoop normalize attempts o oid groups g)).
Proof.
  induction groups as [|grp groups IH]; intros g.
  { exists []. apply appended_refl. }
  cbn [groupsLoop].
  destruct (String.eqb (lineItemId grp) ""); [exists []; apply appended_refl|].
  destruct (or_else (normalize (reviewUrl grp)) None) as [url|] eqn:Eu;
    [|exists []; apply appended_refl].
  apply or_else_Some in Eu as [Eu _].
  destruct (unitsLoop_appended attempts o oid (lineItemId grp) url
              (Z.to_nat (units grp)) 0 g) as [r1 H1].
  apply (appended_weaken _ (unitRow normalize o oid (grp :: groups))) in H1.
  2:{ intros r (? & ? & Hu & i & ? & ?). repeat split; try assumption.
      exists grp, i. repeat split; [left; reflexivity|lia|lia|assumption|congruence]. }
  destruct (unitsLoop attempts o oid (lineItemId grp) url (Z.to_nat (units grp)) 0 g)
    as [g1|e g1]; cbn [units_state out_state] in *.
  - destruct (IH g1) as [r2 H2]. exists (r1 ++ r2)%list.
    eapply appended_trans; [exact H1|].
    eapply appended_weaken; [|exact H2]. intros r. apply unitRow_cons.
  - exists r1. exact H1.
Qed.

Lemma generatePlates_appended normalize fl o oid groups st :
  exists rows,
    appended (unitRow normalize o oid groups) rows (MkGen st ∅ [] 0)
      (out_state (generatePlates normalize fl o oid groups st)).
Proof.
  unfold generatePlates.
  destruct (findPlates (f_findPlates fl) oid st) as [existing|e].
  - match goal with |- context [groupsLoop _ _ _ _ _ ?g0] =>
      destruct (groupsLoop_appended normalize (f_attempts fl) o oid groups g0)
        as [rows H] end.
    exists rows. exact H.
  - exists []. apply appended_refl.
Qed.

(** X6. Whatever the failures met, a generation only appends plate rows:
    the plates of the store it leaves are those it found followed by new
    rows under the next free ids, orders and delivery records are as
    before, [createdPlates] lists exactly the new rows in their order, and
    every new row belongs to the given order, is activated, and is the
    plate of a unit [0 <= i < units] of one of the groups, carrying the
    validated destination of that group. *)
Theorem generation_appends_what_it_reports normalize fl o oid groups st :
  exists rows,
    plates (g_store (out_state (generatePlates normalize fl o oid groups st)))
    = (plates st ++ rows)%list
    /\ orders (g_store (out_state (generatePlates normalize fl o oid groups st)))
       = orders st
    /\ events (g_store (out_state (generatePlates normalize fl o oid groups st)))
       = events st
    /\ map pl_id rows = seq (next_id st) (length rows)
    /\ g_created (out_state (generatePlates normalize fl o oid groups st))
       = map createdOf rows
    /\ Forall (unitRow normalize o oid groups) rows.
Proof.
  destruct (generatePlates_appended normalize fl o oid groups st)
    as (rows & Hp & Ho & He & Hn & Hi & Hc & Hf).
  exists rows. cbn in *. repeat split; assumption.
Qed.

(* ---------------------------------------------------------------------- *)
(** ** What a run of the handler leaves                                     *)
(* ---------------------------------------------------------------------- *)

Lemma markEvent_spec fault eventId data st :
  plates (markEvent fault (Some eventId) data st).1 = plates st
  /\ orders (markEvent fault (Some eventId) data st).1 = orders st
  /\ next_id (markEvent fault (Some eventId) data st).1 = next_id st
  /\ exists logs,
       (markEvent fault (Some eventId) data st).2 = EventUpdate eventId data :: logs
       /\ Forall (fun x => exists m e, x = Logged m e) logs.
Proof.
  unfold markEvent, updateEvent.
  destruct fault as [e|]; cbn.
  { repeat split. eexists. split; [reflexivity|]. repeat constructor. eauto. }
  destruct (existsb _ (events st)); cbn; repeat split.
  - exists []. split; [reflexivity|constructor].
  - eexists. split; [reflexivity|]. repeat constructor. eauto.
Qed.

Lemma gates_status hmac env req r :
  gates hmac env req = Some r -> r = Responded 401 \/ r = Responded 500.
Proof.
  unfold gates.
  destruct (negb _); [intros [= <-]; auto|].
  destruct (getShopifyHeader req "x-shopify-webhook-id"); [|intros [= <-]; auto].
  destruct (negb _); [|discriminate].
  destruct (checkShopifySignature _ _ _ _) as [[|]|e]; [discriminate| |];
    intros [= <-]; auto.
Qed.

Lemma failed_leaves (out : Outcome) fault eventId data st :
  assoc "createdPlatesCount" data = None ->
  plates (markEvent fault (Some eventId) data st).1 = plates st
  /\ (forall n, ~ reportedCount (markEvent fault (Some eventId) data st).2 n)
  /\ emailsOf (markEvent fault (Some eventId) data st).2 = [].
Proof.
  intros Hd.
  destruct (markEvent_spec fault eventId data st) as (Hp & _ & _ & logs & -> & Hl).
  split; [exact Hp|]. split.
  - intros n (id & d & [Hin|Hin] & Ha).
    + injection Hin as <- <-. congruence.
    + rewrite Forall_forall in Hl. apply list_elem_of_In in Hin.
      destruct (Hl _ Hin) as (m & e & He). discriminate He.
  - cbn. induction Hl as [|x l (m & e & ->) _ IH]; [reflexivity|exact IH].
Qed.

Lemma emailsOf_app (a b : list Effect) : emailsOf (a ++ b) = (emailsOf a ++ emailsOf b)%list.
Proof. apply List.filter_app. Qed.

Lemma finalize_leaves html env fl eventId o email oid g :
  plates (finalize html env fl eventId o email oid g).1.2 = plates (g_store g)
  /\ (forall n, reportedCount (finalize html env fl eventId o email oid g).2 n ->
                n = Z.of_nat (length (g_created g)))
  /\ (emailsOf (finalize html env fl eventId o email oid g).2 = []
      \/ exists to subject h,
           emailsOf (finalize html env fl eventId o email oid g).2
           = [EmailSent to subject h]
           /\ g_created g <> []
           /\ (finalize html env fl eventId o email oid g).1.1 = Responded 200
           /\ or_else (PLATES_NOTIFICATION_EMAIL env) None = Some to).
Proof.
  unfold finalize.
  destruct (findPlates (f_findFinal fl) oid (g_store g)) as [final|e].
  2:{ cbn. repeat split; [|left; reflexivity]. intros n (? & ? & [] & _). }
  match goal with |- context [updateOrder ?a ?v ?b ?c ?d] =>
    pose proof (updateOrder_frame a v b c d) as [_ Hup];
    destruct (updateOrder a v b c d) as [[ord|e] st1] end; cbn [fst snd] in Hup.
  2:{ cbn. repeat split; [exact Hup| |left; reflexivity]. intros n (? & ? & [] & _). }
  match goal with |- context [markEvent ?a (Some ?b) ?c ?d] =>
    destruct (markEvent_spec a b c d) as (Hp & _ & _ & logs & Hfx & Hl);
    destruct (markEvent a (Some b) c d) as [st2 fx] end.
  cbn [fst snd] in *. subst fx.
  assert (Hlogs : emailsOf logs = []).
  { clear -Hl. induction Hl as [|x l (m & e & ->) _ IH]; [reflexivity|exact IH]. }
  split; [congruence|]. split.
  - intros n (id & d & Hin & Ha).
    apply in_app_or in Hin as [[Hin|Hin]|Hin].
    + injection Hin as <- <-. cbn in Ha. congruence.
    + rewrite Forall_forall in Hl. apply list_elem_of_In in Hin.
      destruct (Hl _ Hin) as (m & e & He). discriminate He.
    + destruct (or_else (PLATES_NOTIFICATION_EMAIL env) None); [|destruct Hin].
      destruct (0 <? length (g_created g))%nat; [|destruct Hin].
      destruct (f_sendEmail fl); destruct Hin as [Hin|[]]; discriminate Hin.
  - rewrite emailsOf_app. cbn [emailsOf List.filter]. fold (emailsOf logs). rewrite Hlogs.
    destruct (or_else (PLATES_NOTIFICATION_EMAIL env) None) as [to|]; [|left; reflexivity].
    destruct (0 <? length (g_created g))%nat eqn:Hpos; [|left; reflexivity].
    destruct (f_sendEmail fl); [left; reflexivity|].
    right. do 3 eexists. split; [reflexivity|]. repeat split.
    intros Hnil. rewrite Hnil in Hpos. discriminate Hpos.
Qed.

Ltac failed_branch :=
  match goal with
  | |- context [markEvent ?a (Some ?b) ?c ?d] =>
      let Hp := fresh "Hp" in
      let Hr := fresh "Hr" in
      let Hm := fresh "Hm" in
      destruct (failed_leaves (Responded 200) a b c d eq_refl) as (Hp & Hr & Hm);
      destruct (markEvent a (Some b) c d) as [? ?]; cbn [fst snd] in *
  end.

Lemma no_effect_reports (n : Z) : ~ reportedCount [] n.
Proof. intros (? & ? & [] & _). Qed.

Lemma processEvent_leaves parse normalize html validEmail env fl req eventId st :
  exists rows,
    plates (processEvent parse normalize html validEmail env fl req eventId st).1.2
    = (plates st ++ rows)%list
    /\ Forall (payloadRow parse normalize req) rows
    /\ (forall n,
          reportedCount (processEvent parse normalize html validEmail env fl
                           req eventId st).2 n ->
          n = Z.of_nat (length rows))
    /\ (emailsOf (processEvent parse normalize html validEmail env fl req eventId st).2 = []
        \/ exists to subject h,
             emailsOf (processEvent parse normalize html validEmail env fl req eventId st).2
             = [EmailSent to subject h]
             /\ rows <> []
             /\ (processEvent parse normalize html validEmail env fl req eventId st).1.1
                = Responded 200
             /\ or_else (PLATES_NOTIFICATION_EMAIL env) None = Some to).
Proof.
  assert (Hnone : forall (out : Outcome) (st' : Store) (fx : list Effect),
            plates st' = plates st ->
            (forall n, ~ reportedCount fx n) ->
            emailsOf fx = [] ->
            exists rows,
              plates (out, st', fx).1.2 = (plates st ++ rows)%list
              /\ Forall (payloadRow parse normalize req) rows
              /\ (forall n, reportedCount (out, st', fx).2 n -> n = Z.of_nat (length rows))
              /\ (emailsOf (out, st', fx).2 = []
                  \/ exists to subject h,
                       emailsOf (out, st', fx).2 = [EmailSent to subject h]
                       /\ rows <> []
                       /\ (out, st', fx).1.1 = Responded 200
                       /\ or_else (PLATES_NOTIFICATION_EMAIL env) None = Some to)).
  { intros out st' fx Hp Hr Hm. exists []. cbn [fst snd]. rewrite app_nil_r.
    repeat split; [exact Hp|constructor| |left; exact Hm].
    intros n Hn. destruct (Hr n Hn). }
  unfold processEvent.
  destruct (parse (rawBody req)) as [body|] eqn:Eparse.
  2:{ failed_branch. apply Hnone; assumption. }
  destruct (_ || _).
  { failed_branch. apply Hnone; assumption. }
  destruct (extractGroups (Some body)) as [groups|e] eqn:Egroups.
  2:{ apply Hnone; [reflexivity|apply no_effect_reports|reflexivity]. }
  destruct groups as [|grp groups'] eqn:Eg.
  { failed_branch. apply Hnone; assumption. }
  rewrite <- Eg in *. clear Eg.
  destruct (existsb _ groups).
  { failed_branch. apply Hnone; assumption. }
  destruct (findOrder _ _ st) as [existing|e].
  2:{ apply Hnone; [reflexivity|apply no_effect_reports|reflexivity]. }
  assert (Hgen : forall (order : Order) (st1 : Store),
            plates st1 = plates st ->
            let res :=
              match generatePlates normalize fl (orderNumberOf (Some body))
                      (or_id order) groups st1 with
              | GThrew e g => (Rejected e, g_store g, [])
              | GFailed error g =>
                  let '(st', fx) :=
                    markEvent (f_mark fl) (Some eventId)
                      [("status", JStr "failed");
                       ("orderNumber", JStr (orderNumberOf (Some body)));
                       ("error", JStr error)] (g_store g) in
                  (Responded 200, st', fx)
              | GDone g =>
                  finalize html env fl eventId (orderNumberOf (Some body))
                    (customerEmailOf (Some body)) (or_id order) g
              end in
            exists rows,
              plates res.1.2 = (plates st ++ rows)%list
              /\ Forall (payloadRow parse normalize req) rows
              /\ (forall n, reportedCount res.2 n -> n = Z.of_nat (length rows))
              /\ (emailsOf res.2 = []
                  \/ exists to subject h,
                       emailsOf res.2 = [EmailSent to subject h]
                       /\ rows <> []
                       /\ res.1.1 = Responded 200
                       /\ or_else (PLATES_NOTIFICATION_EMAIL env) None = Some to)).
  { intros order st1 Hup. cbv zeta.
    assert (Hrow : forall rows,
              Forall (unitRow normalize (orderNumberOf (Some body)) (or_id order) groups) rows ->
              Forall (payloadRow parse normalize req) rows).
    { intros rows Hf. eapply Forall_impl; [exact Hf|]. intros r Hr.
      exists body, groups. split; [exact Eparse|]. split; [exact Egroups|].
      destruct Hr as (Ho & Hs & Hex). split; [reflexivity|]. split; assumption. }
    destruct (generatePlates_appended normalize fl (orderNumberOf (Some body))
                (or_id order) groups st1) as (rows & Hp & _ & _ & _ & _ & Hc & Hf).
    destruct (generatePlates normalize fl (orderNumberOf (Some body))
                (or_id order) groups st1) as [g|err g|e g];
      cbn [out_state g_store g_created app] in *.
    - pose proof (finalize_leaves html env fl eventId (orderNumberOf (Some body))
                    (customerEmailOf (Some body)) (or_id order) g) as (Fp & Fr & Fm).
      exists rows. rewrite Fp, Hp, Hup. split; [reflexivity|]. split; [auto|]. split.
      { intros n Hn. rewrite (Fr n Hn), Hc, length_map. reflexivity. }
      destruct Fm as [Fm|(to & subject & h & Fm & Hne & Hout & Hto)]; [left; exact Fm|].
      right. exists to, subject, h. repeat split; try assumption.
      intros ->. apply Hne. rewrite Hc. reflexivity.
    - failed_branch. exists rows. rewrite Hp0, Hp, Hup. split; [reflexivity|].
      split; [auto|]. split; [intros n Hn; destruct (Hr n Hn)|left; assumption].
    - exists rows. cbn [fst snd]. rewrite Hp, Hup. split; [reflexivity|].
      split; [auto|].
      split; [intros n Hn; destruct (no_effect_reports n Hn)|left; reflexivity]. }
  unfold orderNumberOf, customerEmailOf in Hgen. cbv zeta in Hgen.
  destruct existing as [doc|].
  - match goal with |- context [updateOrder ?a ?v ?b ?c ?d] =>
      pose proof (updateOrder_frame a v b c d) as [_ Hup];
      destruct (updateOrder a v b c d) as [[order|e] st1] end; cbn [fst snd] in Hup.
    + apply Hgen. exact Hup.
    + apply Hnone; [exact Hup|apply no_effect_reports|reflexivity].
  - match goal with |- context [createOrder ?a ?v ?b ?c ?d] =>
      pose proof (createOrder_frame a v b c d) as [_ Hup];
      destruct (createOrder a v b c d) as [[order|e] st1] end; cbn [fst snd] in Hup.
    + apply Hgen. exact Hup.
    + apply Hnone; [exact Hup|apply no_effect_reports|reflexivity].
Qed.

Lemma run_leaves parse hmac normalize html validEmail env fl req st :
  exists rows,
    plates (shopifyOrdersPaidWebhook parse hmac normalize html validEmail env fl req st).1.2
    = (plates st ++ rows)%list
    /\ Forall (payloadRow parse normalize req) rows
    /\ (forall n,
          reportedCount
            (shopifyOrdersPaidWebhook parse hmac normalize html validEmail env fl req st).2 n ->
          n = Z.of_nat (length rows))
    /\ (emailsOf (shopifyOrdersPaidWebhook parse hmac normalize html validEmail env fl
                    req st).2 = []
        \/ exists to subject h,
             emailsOf (shopifyOrdersPaidWebhook parse hmac normalize html validEmail env fl
                         req st).2
             = [EmailSent to subject h]
             /\ rows <> []
             /\ (shopifyOrdersPaidWebhook parse hmac normalize html validEmail env fl req st).1.1
                = Responded 200
             /\ or_else (PLATES_NOTIFICATION_EMAIL env) None = Some to).
Proof.
  assert (Hnone : forall out,
            exists rows,
              plates (out, st, @nil Effect).1.2 = (plates st ++ rows)%list
              /\ Forall (payloadRow parse normalize req) rows
              /\ (forall n, reportedCount (out, st, @nil Effect).2 n -> n = Z.of_nat (length rows))
              /\ (emailsOf (out, st, @nil Effect).2 = []
                  \/ exists to subject h,
                       emailsOf (out, st, @nil Effect).2 = [EmailSent to subject h]
                       /\ rows <> []
                       /\ (out, st, @nil Effect).1.1 = Responded 200
                       /\ or_else (PLATES_NOTIFICATION_EMAIL env) None = Some to)).
  { intros out. exists []. cbn [fst snd]. rewrite app_nil_r.
    repeat split; [constructor| |left; reflexivity].
    intros n Hn. destruct (no_effect_reports n Hn). }
  unfold shopifyOrdersPaidWebhook.
  destruct (gates hmac env req); [apply Hnone|].
  unfold createEvent.
  destruct (f_register fl) as [e|].
  { destruct (isDuplicateKeyError (Some e)); apply Hnone. }
  destruct (existsb _ (events st)).
  { destruct (isDuplicateKeyError _); apply Hnone. }
  match goal with |- context [processEvent _ _ _ _ _ _ _ ?id ?s] =>
    apply (processEvent_leaves parse normalize html validEmail env fl req id s) end.
Qed.

(** X7. Whatever the request, the configuration and the failures met, a
    run of the handler removes and rewrites no plate: the plates it
    leaves are the plates it found followed by new rows, and every new
    row is the activated plate of a unit of a group that [extractGroups]
    returns for the parsed body of the request, keyed by the order number
    of that body. *)
Theorem run_only_adds_plates_of_the_payload parse hmac normalize html validEmail env fl req st :
  exists rows,
    plates (shopifyOrdersPaidWebhook parse hmac normalize html validEmail env fl req st).1.2
    = (plates st ++ rows)%list
    /\ Forall (payloadRow parse normalize req) rows.
Proof.
  destruct (run_leaves parse hmac normalize html validEmail env fl req st) as (rows & H1 & H2 & _).
  exists rows. split; assumption.
Qed.

(** X8. What a run reports is what it inserted: a ledger write that
    carries [createdPlatesCount] carries the number of plate rows added by
    this run, and at most one notification is sent, only by a run that
    answers 200 and added at least one row, to the address of
    [PLATES_NOTIFICATION_EMAIL]. *)
Theorem run_reports_the_rows_it_added parse hmac normalize html validEmail env fl req st :
  (forall n,
      reportedCount
        (shopifyOrdersPaidWebhook parse hmac normalize html validEmail env fl req st).2 n ->
      Z.of_nat (length (plates st)) + n
      = Z.of_nat
          (length
             (plates
                (shopifyOrdersPaidWebhook parse hmac normalize html validEmail env fl
                   req st).1.2)))
  /\ (emailsOf (shopifyOrdersPaidWebhook parse hmac normalize html validEmail env fl
                  req st).2 = []
      \/ exists to subject h,
           emailsOf (shopifyOrdersPaidWebhook parse hmac normalize html validEmail env fl
                       req st).2
           = [EmailSent to subject h]
           /\ (length (plates st)
               < length
                   (plates
                      (shopifyOrdersPaidWebhook parse hmac normalize html validEmail env fl
                         req st).1.2))%nat
           /\ (shopifyOrdersPaidWebhook parse hmac normalize html validEmail env fl req st).1.1
              = Responded 200
           /\ PLATES_NOTIFICATION_EMAIL env = Some to).
Proof.
  destruct (run_leaves parse hmac normalize html validEmail env fl req st)
    as (rows & Hp & _ & Hn & Hm).
  rewrite Hp, length_app. split.
  - intros n H. rewrite (Hn n H). lia.
  - destruct Hm as [Hm|(to & subject & h & Hm & Hne & Hout & Hto)]; [left; exact Hm|].
    right. exists to, subject, h. repeat split; try assumption.
    + destruct rows; [congruence|cbn; lia].
    + apply or_else_Some in Hto as [Hto _]. exact Hto.
Qed.

Lemma finalize_status html env fl eventId o email oid g :
  match (finalize html env fl eventId o email oid g).1.1 with
  | Responded s => s = 200
  | Rejected _ => True
  end.
Proof.
  pose proof (finalize_ledger_write html env fl eventId o email oid g) as H.
  destruct (finalize html env fl eventId o email oid g) as [[[s|e] st'] fx]; cbn.
  - destruct H as [H _]. exact H.
  - exact I.
Qed.

Lemma processEvent_status parse normalize html validEmail env fl req eventId st :
  match (processEvent parse normalize html validEmail env fl req eventId st).1.1 with
  | Responded s => s = 200
  | Rejected _ => True
  end.
Proof.
  unfold processEvent.
  destruct (parse (rawBody req)) as [body|].
  2:{ destruct (markEvent _ _ _ _). reflexivity. }
  destruct (_ || _).
  { destruct (markEvent _ _ _ _). reflexivity. }
  destruct (extractGroups (Some body)) as [groups|e]; [|exact I].
  destruct groups as [|grp groups'] eqn:Eg.
  { destruct (markEvent _ _ _ _). reflexivity. }
  destruct (existsb _ _).
  { destruct (markEvent _ _ _ _). reflexivity. }
  destruct (findOrder _ _ st) as [existing|e]; [|exact I].
  destruct existing as [doc|].
  - destruct (updateOrder _ _ _ _ _) as [[order|e] st1]; [|exact I].
    destruct (generatePlates _ _ _ _ _ _) as [g|err g|e g]; [| |exact I].
    + apply finalize_status.
    + destruct (markEvent _ _ _ _). reflexivity.
  - destruct (createOrder _ _ _ _ _) as [[order|e] st1]; [|exact I].
    destruct (generatePlates _ _ _ _ _ _) as [g|err g|e g]; [| |exact I].
    + apply finalize_status.
    + destruct (markEvent _ _ _ _). reflexivity.
Qed.

(** X9. The handler answers with 200, 401 or 500 only, and an answer of
    401 or 500 leaves no trace: the store is the one the run found and no
    ledger write, log line or notification was issued, so that the request
    can be sent again as if it had never arrived. *)
Theorem refusals_leave_no_trace parse hmac normalize html validEmail env fl req st :
  match (shopifyOrdersPaidWebhook parse hmac normalize html validEmail env fl req st).1.1 with
  | Responded s =>
      s = 200
      \/ ((s = 401 \/ s = 500)
          /\ (shopifyOrdersPaidWebhook parse hmac normalize html validEmail env fl
                req st).1.2 = st
          /\ (shopifyOrdersPaidWebhook parse hmac normalize html validEmail env fl req st).2 = [])
  | Rejected _ => True
  end.
Proof.
  unfold shopifyOrdersPaidWebhook.
  destruct (gates hmac env req) as [r|] eqn:Eg.
  { apply gates_status in Eg as [-> | ->]; cbn; right; auto. }
  unfold createEvent.
  destruct (f_register fl) as [e|].
  { destruct (isDuplicateKeyError (Some e)); cbn; auto. }
  destruct (existsb _ (events st)).
  { destruct (isDuplicateKeyError _); cbn; auto. }
  match goal with |- context [processEvent _ _ _ _ _ _ _ ?id ?s] =>
    pose proof (processEvent_status parse normalize html validEmail env fl req id s) as H;
    destruct (processEvent parse normalize html validEmail env fl req id s) as [[[x|e] st'] fx]
  end; cbn in *; auto.
Qed.

(** X10. The notification decides nothing: the answer of the handler and
    the store it leaves are the same whatever the notification address,
    the public URL, the template of the message and the failure of the
    mail call. *)
Theorem notification_decides_nothing
  parse hmac normalize html html' validEmail env fl req st address url mailFault :
  (shopifyOrdersPaidWebhook parse hmac normalize html' validEmail
     (MkEnv (SHOPIFY_WEBHOOK_VERIFY_SIGNATURE env) (SHOPIFY_WEBHOOK_SECRET env)
        address url)
     (MkFaults (f_register fl) (f_mark fl) (f_findOrder fl) (f_saveOrder fl)
        (f_findPlates fl) (f_attempts fl) (f_findFinal fl) (f_finalizeOrder fl)
        mailFault)
     req st).1
  = (shopifyOrdersPaidWebhook parse hmac normalize html validEmail env fl req st).1.
Proof.
  unfold shopifyOrdersPaidWebhook, gates, checkShopifySignature.
  cbn [SHOPIFY_WEBHOOK_VERIFY_SIGNATURE SHOPIFY_WEBHOOK_SECRET f_register].
  repeat match goal with
         | |- context [match ?x with _ => _ end] =>
             lazymatch x with
             | context [processEvent] => fail
             | _ => destruct x eqn:?
             end
         end; try reflexivity.
  all: unfold processEvent, generatePlates, finalize;
    cbn [f_mark f_findOrder f_saveOrder f_findPlates f_attempts f_findFinal
         f_finalizeOrder f_sendEmail PLATES_NOTIFICATION_EMAIL PUBLIC_APP_URL];
    repeat match goal with
           | |- context [match ?x with _ => _ end] =>
               lazymatch x with
               | context [match _ with _ => _ end] => fail
               | _ => destruct x eqn:?
               end
           end; try reflexivity.
Qed.

(* ---------------------------------------------------------------------- *)
(** ** Invariants of a run                                                  *)
(* ---------------------------------------------------------------------- *)

Lemma theOrder_orders number oid st st' :
  orders st' = orders st -> theOrder number oid st -> theOrder number oid st'.
Proof. unfold theOrder. intros ->. auto. Qed.

Lemma createUnit_invariant (Inv : Store -> Prop) number eventId attempts oid lid url i g :
  keptByWrites number eventId Inv ->
  theOrder number oid (g_store g) ->
  Inv (g_store g) ->
  Inv (g_store (units_state (createUnit attempts number oid lid url i g)))
  /\ theOrder number oid (g_store (units_state (createUnit attempts number oid lid url i g))).
Proof.
  intros (_ & _ & _ & Hplate) Ho Hi.
  split.
  - unfold createUnit. destruct (bool_decide _); [exact Hi|].
    specialize (Hplate (at_fault (attempts (g_calls g))) (at_slug (attempts (g_calls g)))
                  oid lid i url (at_now (attempts (g_calls g))) (g_store g) Ho Hi).
    destruct (createPlate _ _ _ _ _ _ _) as [[id|e] st']; cbn in *; [exact Hplate|].
    destruct (isDuplicateKeyError _); exact Hplate.
  - destruct (createUnit_appended attempts number oid lid url i g) as (rows & _ & Hord & _).
    eapply theOrder_orders; eassumption.
Qed.

Lemma unitsLoop_invariant (Inv : Store -> Prop) number eventId attempts oid lid url count :
  keptByWrites number eventId Inv ->
  forall first g,
    theOrder number oid (g_store g) ->
    Inv (g_store g) ->
    Inv (g_store (units_state (unitsLoop attempts number oid lid url count first g)))
    /\ theOrder number oid
         (g_store (units_state (unitsLoop attempts number oid lid url count first g))).
Proof.
  intros Hk. induction count as [|count IH]; intros first g Ho Hi; [split; assumption|].
  cbn [unitsLoop].
  destruct (createUnit_invariant Inv number eventId attempts oid lid url first g Hk Ho Hi)
    as [Hi' Ho'].
  destruct (createUnit attempts number oid lid url first g) as [g1|e g1]; cbn [units_state] in *.
  - apply IH; assumption.
  - split; assumption.
Qed.

Lemma groupsLoop_invariant (Inv : Store -> Prop) number eventId normalize attempts oid groups :
  keptByWrites number eventId Inv ->
  forall g,
    theOrder number oid (g_store g) ->
    Inv (g_store g) ->
    Inv (g_store (out_state (groupsLoop normalize attempts number oid groups g)))
    /\ theOrder number oid
         (g_store (out_state (groupsLoop normalize attempts number oid groups g))).
Proof.
  intros Hk. induction groups as [|grp groups IH]; intros g Ho Hi; [split; assumption|].
  cbn [groupsLoop].
  destruct (String.eqb (lineItemId grp) ""); [split; assumption|].
  destruct (or_else (normalize (reviewUrl grp)) None) as [url|]; [|split; assumption].
  destruct (unitsLoop_invariant Inv number eventId attempts oid (lineItemId grp) url
              (Z.to_nat (units grp)) Hk 0 g Ho Hi) as [Hi' Ho'].
  destruct (unitsLoop attempts number oid (lineItemId grp) url (Z.to_nat (units grp)) 0 g)
    as [g1|e g1]; cbn [units_state out_state] in *.
  - apply IH; assumption.
  - split; assumption.
Qed.

Lemma generatePlates_invariant (Inv : Store -> Prop) number eventId normalize fl oid groups st :
  keptByWrites number eventId Inv ->
  theOrder number oid st ->
  Inv st ->
  Inv (g_store (out_state (generatePlates normalize fl number oid groups st)))
  /\ theOrder number oid
       (g_store (out_state (generatePlates normalize fl number oid groups st))).
Proof.
  intros Hk Ho Hi. unfold generatePlates.
  destruct (findPlates (f_findPlates fl) oid st) as [existing|e]; [|split; assumption].
  apply (groupsLoop_invariant Inv number eventId); assumption.
Qed.

Lemma markEvent_invariant (Inv : Store -> Prop) number eventId fault data st :
  keptByWrites number eventId Inv ->
  Forall (fun kv => fst kv <> "webhookId") data ->
  Inv st ->
  Inv (markEvent fault (Some eventId) data st).1.
Proof.
  intros (Hmark & _) Hd Hi. unfold markEvent.
  specialize (Hmark fault data st Hd Hi).
  destruct (updateEvent fault eventId data st) as [[[]|e] st']; exact Hmark.
Qed.

Lemma finalize_invariant (Inv : Store -> Prop) number eventId html env fl email oid g :
  keptByWrites number eventId Inv ->
  theOrder number oid (g_store g) ->
  Inv (g_store g) ->
  Inv (finalize html env fl eventId number email oid g).1.2.
Proof.
  intros Hk Ho Hi. unfold finalize.
  destruct (findPlates (f_findFinal fl) oid (g_store g)) as [final|e]; [|exact Hi].
  pose proof Hk as (_ & _ & Hup & _).
  match goal with |- context [updateOrder ?a ?v ?b ?c ?d] =>
    specialize (Hup a v b c d (fun o => conj eq_refl eq_refl) Ho Hi);
    destruct (updateOrder a v b c d) as [[ord|e] st1] end; cbn [fst snd] in *; [|exact Hup].
  match goal with |- context [markEvent ?a (Some ?b) ?c ?d] =>
    pose proof (markEvent_invariant Inv number b a c d Hk ltac:(no_webhookId_key) Hup) as Hm;
    destruct (markEvent a (Some b) c d) as [st2 fx] end.
  exact Hm.
Qed.

Lemma head_filter_In (A : Type) (p : A -> bool) (l : list A) (x : A) :
  head (List.filter p l) = Some x -> In x l /\ p x = true.
Proof.
  intros H. destruct (List.filter p l) as [|y t] eqn:E; [discriminate|].
  injection H as ->. apply List.filter_In. rewrite E. left. reflexivity.
Qed.

Lemma head_rev_In (A : Type) (l : list A) (x : A) :
  head (rev l) = Some x -> In x l.
Proof.
  intros H. apply in_rev. destruct (rev l) as [|y t]; [discriminate|].
  injection H as ->. left. reflexivity.
Qed.

Lemma findOrder_Some fault number st doc :
  findOrder fault number st = Ok (Some doc) ->
  In doc (orders st) /\ or_orderNumber doc = number.
Proof.
  unfold findOrder. destruct fault; [discriminate|].
  intros [= H]. apply head_rev_In, List.filter_In in H as [Hin Heq].
  split; [exact Hin|]. apply String.eqb_eq. exact Heq.
Qed.

Lemma updateOrder_Ok fault invalid number id f st order st1 :
  (forall o, or_id (f o) = or_id o /\ or_orderNumber (f o) = or_orderNumber o) ->
  theOrder number id st ->
  updateOrder fault invalid id f st = (Ok order, st1) ->
  or_id order = id /\ theOrder number id st1.
Proof.
  intros Hf (doc & Hin & Hid & Hnum). unfold updateOrder.
  destruct fault; [discriminate|].
  destruct (head (List.filter _ (orders st))) as [o|] eqn:Eh; [|discriminate].
  destruct invalid; [discriminate|].
  intros [= <- <-]. apply head_filter_In in Eh as [_ Ho]. apply Nat.eqb_eq in Ho.
  split; [rewrite (proj1 (Hf o)); exact Ho|].
  exists (f doc). cbn. split.
  - apply in_map_iff. exists doc. split; [|exact Hin].
    rewrite Hid, Nat.eqb_refl. reflexivity.
  - destruct (Hf doc) as [-> ->]. split; assumption.
Qed.

Lemma createOrder_Ok fault invalid number email st order st1 :
  createOrder fault invalid number email st = (Ok order, st1) ->
  theOrder number (or_id order) st1.
Proof.
  unfold createOrder. destruct fault; [discriminate|].
  destruct invalid; [discriminate|].
  destruct (existsb _ (orders st)); [discriminate|].
  intros [= <- <-]. eexists. cbn. split; [apply in_or_app; right; left; reflexivity|].
  split; reflexivity.
Qed.

Lemma processEvent_invariant (Inv : Store -> Prop)
  parse normalize html validEmail env fl req eventId st :
  keptByWrites (orderNumberOf (parse (rawBody req))) eventId Inv ->
  Inv st ->
  Inv (processEvent parse normalize html validEmail env fl req eventId st).1.2.
Proof.
  intros Hk Hi. unfold processEvent.
  assert (Hfail : forall data,
            Forall (fun kv => fst kv <> "webhookId") data ->
            Inv (let '(st', fx) := markEvent (f_mark fl) (Some eventId) data st in
                 (Responded 200, st', fx)).1.2).
  { intros data Hd.
    pose proof (markEvent_invariant Inv _ eventId (f_mark fl) data st Hk Hd Hi) as Hm.
    destruct (markEvent _ _ _ _). exact Hm. }
  destruct (parse (rawBody req)) as [body|] eqn:Eparse.
  2:{ apply Hfail. no_webhookId_key. }
  destruct (_ || _); [apply Hfail; no_webhookId_key|].
  destruct (extractGroups (Some body)) as [groups|e]; [|exact Hi].
  destruct groups as [|grp groups'] eqn:Eg; [apply Hfail; no_webhookId_key|].
  rewrite <- Eg. clear Eg.
  destruct (existsb _ groups); [apply Hfail; no_webhookId_key|].
  fold (orderNumberOf (Some body)). fold (customerEmailOf (Some body)).
  assert (Hgen : forall (order : Order) (st1 : Store),
            Inv st1 ->
            theOrder (orderNumberOf (Some body)) (or_id order) st1 ->
            Inv (match generatePlates normalize fl (orderNumberOf (Some body))
                         (or_id order) groups st1 with
                 | GThrew e g => (Rejected e, g_store g, [])
                 | GFailed error g =>
                     let '(st', fx) :=
                       markEvent (f_mark fl) (Some eventId)
                         [("status", JStr "failed");
                          ("orderNumber", JStr (orderNumberOf (Some body)));
                          ("error", JStr error)] (g_store g) in
                     (Responded 200, st', fx)
                 | GDone g =>
                     finalize html env fl eventId (orderNumberOf (Some body))
                       (customerEmailOf (Some body)) (or_id order) g
                 end).1.2).
  { intros order st1 Hi1 Ho1.
    destruct (generatePlates_invariant Inv _ eventId normalize fl (or_id order) groups st1
                Hk Ho1 Hi1) as [Hi2 Ho2].
    destruct (generatePlates normalize fl (orderNumberOf (Some body)) (or_id order)
                groups st1) as [g|err g|e g]; cbn [out_state] in *.
    - apply (finalize_invariant Inv); assumption.
    - match goal with |- context [markEvent ?a (Some ?b) ?c ?d] =>
        pose proof (markEvent_invariant Inv _ b a c d Hk ltac:(no_webhookId_key) Hi2) as Hm;
        destruct (markEvent a (Some b) c d) end.
      exact Hm.
    - exact Hi2. }
  destruct (findOrder _ _ st) as [existing|e] eqn:Efind; [|exact Hi].
  pose proof Hk as (_ & Hcreate & Hupdate & _).
  destruct existing as [doc|].
  - apply findOrder_Some in Efind as [Hin Hnum].
    assert (Ho : theOrder (orderNumberOf (Some body)) (or_id doc) st) by (exists doc; auto).
    match goal with |- context [updateOrder ?a ?v ?b ?c ?d] =>
      specialize (Hupdate a v b c d (fun o => conj eq_refl eq_refl) Ho Hi);
      pose proof (updateOrder_Ok a v (orderNumberOf (Some body)) b c d) as Hok;
      destruct (updateOrder a v b c d) as [[order|e] st1] end; cbn [fst snd] in *;
      [|exact Hupdate].
    destruct (Hok order st1 (fun o => conj eq_refl eq_refl) Ho eq_refl) as [Hid Ho1].
    apply Hgen; [exact Hupdate|]. rewrite Hid. exact Ho1.
  - match goal with |- context [createOrder ?a ?v ?b ?c ?d] =>
      specialize (Hcreate a v c d Hi);
      pose proof (createOrder_Ok a v b c d) as Hok;
      destruct (createOrder a v b c d) as [[order|e] st1] end; cbn [fst snd] in *;
      [|exact Hcreate].
    apply Hgen; [exact Hcreate|]. apply (Hok order st1 eq_refl).
Qed.

Lemma run_invariant (Inv : Store -> Prop) parse hmac normalize html validEmail env fl req st :
  (Inv st ->
   Inv (createEvent None
          (default "" (getShopifyHeader req "x-shopify-webhook-id"))
          (default "" (getShopifyHeader req "x-shopify-topic")) st).2) ->
  keptByWrites (orderNumberOf (parse (rawBody req))) (next_id st) Inv ->
  Inv st ->
  Inv (shopifyOrdersPaidWebhook parse hmac normalize html validEmail env fl req st).1.2.
Proof.
  intros Hreg Hk Hi. unfold shopifyOrdersPaidWebhook.
  destruct (gates hmac env req); [exact Hi|].
  specialize (Hreg Hi).
  unfold createEvent in *.
  destruct (f_register fl) as [e|].
  { destruct (isDuplicateKeyError (Some e)); exact Hi. }
  destruct (existsb _ (events st)).
  { destruct (isDuplicateKeyError _); exact Hi. }
  apply processEvent_invariant; [exact Hk|exact Hreg].
Qed.

Lemma existsb_eqb_not_In (A : Type) (f : A -> string) k l :
  existsb (fun x => String.eqb (f x) k) l = false -> ~ In k (map f l).
Proof.
  intros H Hin. apply (existsb_eqb_true A f) in Hin. congruence.
Qed.

Lemma NoDup_snoc (A : Type) (l : list A) (x : A) :
  NoDup l -> ~ In x l -> NoDup (l ++ [x]).
Proof.
  intros Hl Hx. apply NoDup_app. split; [exact Hl|]. split.
  - intros y Hy Hy'. apply list_elem_of_In in Hy, Hy'. destruct Hy' as [<-|[]]. auto.
  - apply NoDup_singleton.
Qed.

Lemma Forall_lt_S (n : nat) (l : list nat) :
  Forall (fun id => (id < n)%nat) l -> Forall (fun id => (id < S n)%nat) l.
Proof. intros H. eapply Forall_impl; [exact H|]. cbn. intros. lia. Qed.

Lemma Forall_lt_snoc (n : nat) (l : list nat) :
  Forall (fun id => (id < n)%nat) l -> Forall (fun id => (id < S n)%nat) (l ++ [n]).
Proof.
  intros H. apply Forall_app. split; [apply Forall_lt_S, H|].
  constructor; [lia|constructor].
Qed.

Lemma Forall_lt_not_In (n : nat) (l : list nat) :
  Forall (fun id => (id < n)%nat) l -> ~ In n l.
Proof.
  intros H Hin. rewrite Forall_forall in H. apply list_elem_of_In in Hin.
  specialize (H _ Hin). cbn in H. lia.
Qed.

Lemma map_map_same (A B : Type) (field : A -> B) (g : A -> A) (l : list A) :
  (forall x, field (g x) = field x) -> map field (map g l) = map field l.
Proof.
  intros H. rewrite map_map. apply map_ext. exact H.
Qed.

Lemma setEventField_id ev kv : ev_id (setEventField ev kv) = ev_id ev.
Proof.
  destruct kv as [k v]. unfold setEventField.
  repeat (match goal with |- context [if ?b then _ else _] => destruct b end;
          try reflexivity).
Qed.

Lemma applyEventData_id data ev : ev_id (applyEventData data ev) = ev_id ev.
Proof.
  unfold applyEventData. revert ev.
  induction data as [|kv data IH]; intros ev; [reflexivity|].
  cbn [fold_left]. rewrite IH. apply setEventField_id.
Qed.

Lemma wellFormed_createEvent webhookId topic st :
  wellFormed st -> wellFormed (createEvent None webhookId topic st).2.
Proof.
  intros (Hw & Hn & Hk & Hs & Hoi & He & Ho & Hp & Hr).
  unfold createEvent.
  destruct (existsb _ (events st)) eqn:Eex; cbn [snd].
  { repeat split; assumption. }
  unfold wellFormed, webhookIds, sourceKeys, slugs in *. cbn.
  rewrite !map_app. cbn.
  repeat split; try assumption.
  - apply NoDup_snoc; [exact Hw|]. apply (existsb_eqb_not_In _ ev_webhookId). exact Eex.
  - apply Forall_lt_snoc, He.
  - apply Forall_lt_S, Ho.
  - apply Forall_lt_S, Hp.
Qed.

Lemma wellFormed_updateEvent fault id data st :
  Forall (fun kv => fst kv <> "webhookId") data ->
  wellFormed st -> wellFormed (updateEvent fault id data st).2.
Proof.
  intros Hd (Hw & Hn & Hk & Hs & Hoi & He & Ho & Hp & Hr).
  pose proof (updateEvent_webhookIds fault id data st Hd) as Hsame.
  unfold updateEvent in *.
  destruct fault as [e|]; cbn [snd] in *.
  { repeat split; assumption. }
  destruct (existsb _ (events st)); cbn [snd] in *.
  2:{ repeat split; assumption. }
  unfold wellFormed, sourceKeys, slugs in *. rewrite Hsame. cbn.
  repeat split; try assumption.
  rewrite map_map_same; [exact He|].
  intros ev. destruct (ev_id ev =? id)%nat; [apply applyEventData_id|reflexivity].
Qed.

Lemma wellFormed_createOrder fault invalid number email st :
  wellFormed st -> wellFormed (createOrder fault invalid number email st).2.
Proof.
  intros (Hw & Hn & Hk & Hs & Hoi & He & Ho & Hp & Hr).
  unfold createOrder.
  destruct fault as [e|]; cbn [snd].
  { repeat split; assumption. }
  destruct invalid as [e|]; cbn [snd].
  { repeat split; assumption. }
  destruct (existsb _ (orders st)) eqn:Eex; cbn [snd].
  { repeat split; assumption. }
  unfold wellFormed, webhookIds, sourceKeys, slugs in *. cbn.
  rewrite !map_app. cbn.
  repeat split; try assumption.
  - apply NoDup_snoc; [exact Hn|]. apply (existsb_eqb_not_In _ or_orderNumber). exact Eex.
  - apply NoDup_snoc; [exact Hoi|]. apply Forall_lt_not_In. exact Ho.
  - apply Forall_lt_S, He.
  - apply Forall_lt_snoc, Ho.
  - apply Forall_lt_S, Hp.
  - eapply Forall_impl; [exact Hr|]. cbn. intros p (o & Hin & Hid & Hpre).
    exists o. split; [apply in_or_app; left; exact Hin|]. split; assumption.
Qed.

Lemma wellFormed_updateOrder fault invalid id f st :
  (forall o, or_id (f o) = or_id o /\ or_orderNumber (f o) = or_orderNumber o) ->
  wellFormed st -> wellFormed (updateOrder fault invalid id f st).2.
Proof.
  intros Hf (Hw & Hn & Hk & Hs & Hoi & He & Ho & Hp & Hr).
  unfold updateOrder.
  destruct fault as [e|]; cbn [snd].
  { repeat split; assumption. }
  destruct (head (List.filter _ (orders st))); cbn [snd].
  2:{ repeat split; assumption. }
  destruct invalid as [e|]; cbn [snd].
  { repeat split; assumption. }
  unfold wellFormed, webhookIds, sourceKeys, slugs in *. cbn.
  assert (Hid : forall x, or_id (if (or_id x =? id)%nat then f x else x) = or_id x).
  { intros x. destruct (or_id x =? id)%nat; [apply Hf|reflexivity]. }
  assert (Hnum : forall x, or_orderNumber (if (or_id x =? id)%nat then f x else x)
                           = or_orderNumber x).
  { intros x. destruct (or_id x =? id)%nat; [apply Hf|reflexivity]. }
  rewrite !(map_map_same _ _ or_id) by exact Hid.
  rewrite !(map_map_same _ _ or_orderNumber) by exact Hnum.
  repeat split; try assumption.
  eapply Forall_impl; [exact Hr|]. cbn. intros p (x & Hin & Ho' & Hpre).
  exists (if (or_id x =? id)%nat then f x else x).
  split; [apply in_map_iff; exists x; auto|]. rewrite Hid, Hnum. auto.
Qed.

Lemma sourceKey_prefix number lid i :
  startsWith (number +:+ "|") (sourceKey number lid i) = true.
Proof.
  apply startsWith_spec. unfold sourceKey.
  exists (lid +:+ "|" +:+ pretty i). rewrite !string_app_assoc'. reflexivity.
Qed.

Lemma wellFormed_createPlate number fault slug oid lid i url now st :
  theOrder number oid st ->
  wellFormed st ->
  wellFormed (createPlate fault slug oid (sourceKey number lid i) url now st).2.
Proof.
  intros (o & Hin & Hid & Hnum) (Hw & Hn & Hk & Hs & Hoi & He & Ho & Hp & Hr).
  unfold createPlate.
  destruct fault as [e|]; cbn [snd].
  { repeat split; assumption. }
  destruct (existsb _ (plates st)) eqn:Ekey; cbn [snd].
  { repeat split; assumption. }
  destruct (existsb (fun p => String.eqb (pl_slug p) slug) (plates st)) eqn:Eslug; cbn [snd].
  { repeat split; assumption. }
  unfold wellFormed, webhookIds, sourceKeys, slugs in *. cbn.
  rewrite !map_app. cbn.
  repeat split; try assumption.
  - apply NoDup_snoc; [exact Hk|]. apply (existsb_eqb_not_In _ pl_sourceKey). exact Ekey.
  - apply NoDup_snoc; [exact Hs|]. apply (existsb_eqb_not_In _ pl_slug). exact Eslug.
  - apply Forall_lt_S, He.
  - apply Forall_lt_S, Ho.
  - apply Forall_lt_snoc, Hp.
  - apply Forall_app. split; [exact Hr|]. constructor; [|constructor].
    exists o. cbn. repeat split; try assumption.
    rewrite Hnum. apply sourceKey_prefix.
Qed.

Lemma wellFormed_kept number eventId : keptByWrites number eventId wellFormed.
Proof.
  split; [|split; [|split]].
  - intros. apply wellFormed_updateEvent; assumption.
  - intros. apply wellFormed_createOrder; assumption.
  - intros. apply wellFormed_updateOrder; assumption.
  - intros. apply wellFormed_createPlate; assumption.
Qed.

Lemma run_wellFormed parse hmac normalize html validEmail env fl req st :
  wellFormed st ->
  wellFormed (shopifyOrdersPaidWebhook parse hmac normalize html validEmail env fl req st).1.2.
Proof.
  intros H. apply run_invariant; [|apply wellFormed_kept|exact H].
  apply wellFormed_createEvent.
Qed.

(** X11. Every store that deliveries can produce from the empty store,
    whatever the requests and the failures met, is well formed: delivery
    ids, order numbers, source keys and slugs are each held by at most
    one row, ids are distinct and below the next free one, and every
    plate points to an order of the store whose number opens the source
    key of the plate. *)
Theorem reachable_stores_are_well_formed (st : Store) :
  reachable st -> wellFormed st.
Proof.
  induction 1 as [|parse hmac normalize html validEmail env fl req st _ IH].
  - unfold wellFormed. cbn. repeat split; constructor.
  - apply run_wellFormed, IH.
Qed.

Lemma reachable_stores_are_well_formed_witness :
  wellFormed
    (shopifyOrdersPaidWebhook
       (parseAs "order" (packOfTwoOrder "client@example.com"))
       noHmac acceptUrl noHtml emailWithAt unverifiedEnv noFaults (delivery "order")
       emptyStore).1.2.
Proof.
  apply reachable_stores_are_well_formed.
  apply reach_run. apply reach_empty.
Defined.

Lemma map_id_below (id : nat) (g : WebhookEvent -> WebhookEvent) (l : list WebhookEvent) :
  Forall (fun i => (i < id)%nat) (map ev_id l) ->
  map (fun ev => if (ev_id ev =? id)%nat then g ev else ev) l = l.
Proof.
  induction l as [|ev l IH]; [reflexivity|].
  cbn [map]. intros H. apply Forall_cons in H as [Hev Hl].
  rewrite (IH Hl). destruct (Nat.eqb_spec (ev_id ev) id); [lia|reflexivity].
Qed.

Lemma own_records_kept req st0 number :
  Forall (fun id => (id < next_id st0)%nat) (map ev_id (events st0)) ->
  keptByWrites number (next_id st0)
    (fun st => exists tail,
         events st = (events st0 ++ tail)%list
         /\ (length tail <= 1)%nat
         /\ Forall (ownRecord req st0) tail).
Proof.
  intros Hids. split; [|split; [|split]].
  - intros fault data st Hd (tail & He & Hlen & Hown).
    unfold updateEvent. destruct fault as [e|]; cbn [snd]; [eauto|].
    destruct (existsb _ (events st)); cbn [snd]; [|eauto].
    exists (map (fun ev => if (ev_id ev =? next_id st0)%nat
                           then applyEventData data ev else ev) tail).
    cbn. rewrite He, map_app, (map_id_below _ _ _ Hids), length_map.
    repeat split; [exact Hlen|].
    clear -Hown Hd. induction Hown as [|ev l [Hid Hw] _ IH]; constructor; [|exact IH].
    destruct (ev_id ev =? next_id st0)%nat; [|split; assumption].
    split; [rewrite applyEventData_id; exact Hid|].
    rewrite applyEventData_webhookId; assumption.
  - intros fault invalid email st (tail & He & H).
    exists tail. rewrite (proj1 (createOrder_frame fault invalid number email st)). auto.
  - intros fault invalid oid f st _ _ (tail & He & H).
    exists tail. rewrite (proj1 (updateOrder_frame fault invalid oid f st)). auto.
  - intros fault slug oid lid i url now st _ (tail & He & H).
    exists tail. rewrite (proj1 (createPlate_frame fault slug oid _ url now st)). auto.
Qed.

(** X12. A run writes to no delivery record but its own: provided the ids
    of the records it finds are below the next free id, the records it
    leaves are the records it found, unchanged and in place, followed by
    at most one record, which carries the next id and the delivery id of
    the request.  So a record that reached [processed] or [failed] is
    never rewritten by a later delivery. *)
Theorem run_writes_its_own_record_only parse hmac normalize html validEmail env fl req st :
  Forall (fun id => (id < next_id st)%nat) (map ev_id (events st)) ->
  exists tail,
    events (shopifyOrdersPaidWebhook parse hmac normalize html validEmail env fl req st).1.2
    = (events st ++ tail)%list
    /\ (length tail <= 1)%nat
    /\ Forall (ownRecord req st) tail.
Proof.
  intros Hids.
  apply (run_invariant
           (fun st' => exists tail,
                events st' = (events st ++ tail)%list
                /\ (length tail <= 1)%nat
                /\ Forall (ownRecord req st) tail)).
  - intros _. unfold createEvent.
    destruct (existsb _ (events st)); cbn [snd].
    + exists []. rewrite app_nil_r. repeat split; [cbn; lia|constructor].
    + eexists [_]. cbn. split; [reflexivity|]. split; [lia|]. repeat constructor.
  - apply own_records_kept. exact Hids.
  - exists []. rewrite app_nil_r. repeat split; [cbn; lia|constructor].
Qed.

Lemma run_writes_its_own_record_only_witness :
  exists tail,
    events
      (shopifyOrdersPaidWebhook
         (parseAs "order" (packOfTwoOrder "client@example.com"))
         noHmac acceptUrl noHtml emailWithAt unverifiedEnv noFaults
         (MkRequest "order" [("x-shopify-topic", "orders/paid");
                             ("x-shopify-webhook-id", "w2")])
         (MkStore [MkEvent 0 "shopify" "w1" "orders/paid" (Some "1000") "processed" None]
            [] [] 1)).1.2
    = ([MkEvent 0 "shopify" "w1" "orders/paid" (Some "1000") "processed" None]
       ++ tail)%list
    /\ (length tail <= 1)%nat
    /\ Forall
         (ownRecord
            (MkRequest "order" [("x-shopify-topic", "orders/paid");
                                ("x-shopify-webhook-id", "w2")])
            (MkStore [MkEvent 0 "shopify" "w1" "orders/paid" (Some "1000") "processed" None]
               [] [] 1))
         tail.
Proof.
  apply (run_writes_its_own_record_only
           (parseAs "order" (packOfTwoOrder "client@example.com"))
           noHmac acceptUrl noHtml emailWithAt unverifiedEnv noFaults
           (MkRequest "order" [("x-shopify-topic", "orders/paid");
                               ("x-shopify-webhook-id", "w2")])
           (MkStore [MkEvent 0 "shopify" "w1" "orders/paid" (Some "1000") "processed" None]
              [] [] 1)).
  cbn. repeat constructor.
Defined.

Lemma NoDup_map_In_inj (A B : Type) (f : A -> B) (l : list A) (x y : A) :
  NoDup (map f l) -> In x l -> In y l -> f x = f y -> x = y.
Proof.
  induction l as [|a l IH]; intros Hnd Hx Hy Hf; [destruct Hx|].
  cbn [map] in Hnd. apply NoDup_cons in Hnd as [Ha Hnd].
  destruct Hx as [->|Hx], Hy as [->|Hy]; auto.
  - exfalso. apply Ha. rewrite Hf. apply list_elem_of_In. apply in_map. exact Hy.
  - exfalso. apply Ha. rewrite <- Hf. apply list_elem_of_In. apply in_map. exact Hx.
Qed.

Lemma other_orders_kept st0 number eventId :
  keptByWrites number eventId
    (fun st => wellFormed st
               /\ forall o, or_orderNumber o <> number ->
                            (In o (orders st0) <-> In o (orders st))).
Proof.
  pose proof (wellFormed_kept number eventId) as (W1 & W2 & W3 & W4).
  split; [|split; [|split]].
  - intros fault data st Hd [Hwf H]. split; [apply W1; assumption|].
    intros o Ho. rewrite (H o Ho).
    unfold updateEvent. destruct fault; [reflexivity|].
    destruct (existsb _ (events st)); reflexivity.
  - intros fault invalid email st [Hwf H]. split; [apply W2; assumption|].
    intros o Ho. rewrite (H o Ho).
    unfold createOrder. destruct fault; [reflexivity|].
    destruct invalid; [reflexivity|].
    destruct (existsb _ (orders st)); [reflexivity|]. cbn.
    rewrite in_app_iff. split; [auto|]. intros [Hin|[<-|[]]]; [exact Hin|].
    cbn in Ho. congruence.
  - intros fault invalid oid f st Hf Hthe [Hwf H]. split; [apply W3; assumption|].
    intros o Ho. rewrite (H o Ho).
    unfold updateOrder. destruct fault; [reflexivity|].
    destruct (head (List.filter _ (orders st))); [|reflexivity].
    destruct invalid; [reflexivity|]. cbn.
    destruct Hwf as (_ & _ & _ & _ & Hids & _).
    destruct Hthe as (x & Hx & Hxid & Hxnum).
    assert (Hsame : forall y, In y (orders st) -> or_id y = oid -> y = x).
    { intros y Hy Hyid. apply (NoDup_map_In_inj _ _ or_id (orders st)); congruence. }
    rewrite in_map_iff. split.
    + intros Hin. exists o. split; [|exact Hin].
      destruct (Nat.eqb_spec (or_id o) oid) as [Heq|]; [|reflexivity].
      rewrite (Hsame o Hin Heq) in Ho. congruence.
    + intros (y & Hy & Hin).
      destruct (Nat.eqb_spec (or_id y) oid) as [Heq|]; [|congruence].
      exfalso. apply Ho. rewrite <- Hy. rewrite (proj2 (Hf y)).
      rewrite (Hsame y Hin Heq). exact Hxnum.
  - intros fault slug oid lid i url now st Hthe [Hwf H].
    split; [apply W4; assumption|].
    intros o Ho. rewrite (H o Ho).
    rewrite (proj2 (createPlate_frame fault slug oid _ url now st)). reflexivity.
Qed.

(** X13. A run touches the order of its payload only: in a well-formed
    store, the orders whose number is not the order number of the parsed
    body are the same before and after the run, whatever happens in
    between; none of them is changed, removed or created. *)
Theorem run_touches_one_order parse hmac normalize html validEmail env fl req st o :
  wellFormed st ->
  or_orderNumber o <> orderNumberOf (parse (rawBody req)) ->
  (In o (orders st)
   <-> In o (orders (shopifyOrdersPaidWebhook parse hmac normalize html validEmail env fl
                       req st).1.2)).
Proof.
  intros Hwf Ho.
  assert (H : wellFormed
                (shopifyOrdersPaidWebhook parse hmac normalize html validEmail env fl
                   req st).1.2
              /\ forall o, or_orderNumber o <> orderNumberOf (parse (rawBody req)) ->
                           (In o (orders st)
                            <-> In o (orders (shopifyOrdersPaidWebhook parse hmac normalize
                                                html validEmail env fl req st).1.2))).
  { apply (run_invariant
             (fun st' => wellFormed st'
                         /\ forall o, or_orderNumber o <> orderNumberOf (parse (rawBody req)) ->
                                      (In o (orders st) <-> In o (orders st')))).
    - intros [Hw H]. split; [apply wellFormed_createEvent; exact Hw|].
      intros x Hx. unfold createEvent.
      destruct (existsb _ (events st)); reflexivity.
    - apply other_orders_kept.
    - split; [exact Hwf|]. intros; reflexivity. }
  apply H. exact Ho.
Qed.

Lemma run_touches_one_order_witness :
  In (MkOrder 0 "1000" "other@example.com" "paid" [] true)
     (orders (MkStore [] [MkOrder 0 "1000" "other@example.com" "paid" [] true] [] 1))
  <-> In (MkOrder 0 "1000" "other@example.com" "paid" [] true)
        (orders
           (shopifyOrdersPaidWebhook
              (parseAs "order" (packOfTwoOrder "client@example.com"))
              noHmac acceptUrl noHtml emailWithAt unverifiedEnv noFaults (delivery "order")
              (MkStore [] [MkOrder 0 "1000" "other@example.com" "paid" [] true] [] 1)).1.2).
Proof.
  apply run_touches_one_order.
  - unfold wellFormed. cbn.
    repeat split; repeat constructor; try (intros H; apply list_elem_of_In in H; destruct H).
  - vm_compute. discriminate.
Defined.

(* ---------------------------------------------------------------------- *)
(** ** Source keys determine their unit                                     *)
(* ---------------------------------------------------------------------- *)

Lemma barFree_split (a b x y : string) :
  barFree a -> barFree b ->
  a +:+ "|" +:+ x = b +:+ "|" +:+ y -> a = b /\ x = y.
Proof.
  revert b. induction a as [|c a IH]; intros [|d b] Ha Hb H.
  - injection H as H. auto.
  - exfalso. rewrite string_app_cons in H. injection H as Hc _.
    destruct Hb as [Hd _]. subst d. discriminate Hd.
  - exfalso. rewrite string_app_cons in H. injection H as Hc _.
    destruct Ha as [Hd _]. subst c. discriminate Hd.
  - rewrite !string_app_cons in H. injection H as -> H.
    destruct Ha as [_ Ha], Hb as [_ Hb].
    destruct (IH b Ha Hb H) as [-> ->]. auto.
Qed.

(** X14. A source key determines its unit: when the order numbers and
    the line item ids hold no vertical bar, two source keys are equal
    only if they are built from the same order number, the same line
    item id and the same unit index. *)
Theorem sourceKey_determines_the_unit (o o' lid lid' : string) (i j : Z) :
  barFree o -> barFree o' -> barFree lid -> barFree lid' ->
  sourceKey o lid i = sourceKey o' lid' j ->
  o = o' /\ lid = lid' /\ i = j.
Proof.
  intros Ho Ho' Hl Hl' H. unfold sourceKey in H.
  apply barFree_split in H as [-> H]; [|assumption..].
  apply barFree_split in H as [-> H]; [|assumption..].
  repeat split. apply (inj pretty). exact H.
Qed.

Lemma sourceKey_determines_the_unit_witness :
  "1001" = "1001" /\ "li_77" = "li_77" /\ 3 = 3.
Proof.
  apply (sourceKey_determines_the_unit "1001" "1001" "li_77" "li_77" 3 3);
    cbn; try tauto; reflexivity.
Defined.

(* ---------------------------------------------------------------------- *)
(** ** What passes the gates                                                *)
(* ---------------------------------------------------------------------- *)

Lemma or_else_None_iff (a : option string) :
  or_else a None = None <-> a = None \/ a = Some "".
Proof.
  destruct a as [[|c s]|]; cbn; split; auto; try discriminate.
  intros [H|H]; discriminate H.
Qed.

Lemma getShopifyHeader_not_empty req key : getShopifyHeader req key <> Some "".
Proof.
  intros H. apply getShopifyHeader_truthy in H. discriminate H.
Qed.

Lemma checkShopifySignature_true hmac env raw header :
  checkShopifySignature hmac env raw header = Ok true
  <-> exists secret,
        SHOPIFY_WEBHOOK_SECRET env = Some secret
        /\ secret <> ""
        /\ header = Some (hmac secret raw)
        /\ hmac secret raw <> "".
Proof.
  unfold checkShopifySignature. split.
  - destruct (or_else header None) as [h|] eqn:Eh; [|discriminate].
    apply or_else_Some in Eh as [-> Hh].
    destruct (or_else (SHOPIFY_WEBHOOK_SECRET env) None) as [s|] eqn:Es; [|discriminate].
    apply or_else_Some in Es as [Es Hs].
    destruct (negb _); [discriminate|].
    intros [= H]. apply String.eqb_eq in H. subst h.
    exists s. auto.
  - intros (s & Es & Hs & -> & Hd).
    destruct (hmac s raw) as [|c d] eqn:Ed; [congruence|].
    cbn [or_else]. rewrite Es. destruct s as [|c' s']; [congruence|].
    cbn [or_else]. rewrite Ed, Nat.eqb_refl. cbn [negb].
    rewrite String.eqb_refl. reflexivity.
Qed.

(** X15. A request passes the gates exactly when its topic header is
    [orders/paid], it carries a delivery id that is not empty, and either
    verification is switched off by the exact value [false] of
    [SHOPIFY_WEBHOOK_VERIFY_SIGNATURE], or a secret is configured and the
    signature header is the digest of the raw body under that secret. *)
Theorem gates_pass_exactly_when hmac env req :
  gates hmac env req = None
  <-> getShopifyHeader req "x-shopify-topic" = Some "orders/paid"
      /\ (exists webhookId,
             getShopifyHeader req "x-shopify-webhook-id" = Some webhookId
             /\ webhookId <> "")
      /\ (SHOPIFY_WEBHOOK_VERIFY_SIGNATURE env = Some "false"
          \/ exists secret,
               SHOPIFY_WEBHOOK_SECRET env = Some secret
               /\ secret <> ""
               /\ getShopifyHeader req "x-shopify-hmac-sha256"
                  = Some (hmac secret (rawBody req))).
Proof.
  unfold gates. split.
  - destruct (bool_decide (getShopifyHeader req "x-shopify-topic" = Some "orders/paid"))
      eqn:Et; cbn [negb]; [|discriminate].
    apply bool_decide_eq_true in Et.
    destruct (getShopifyHeader req "x-shopify-webhook-id") as [w|] eqn:Ew; [|discriminate].
    assert (Hw : w <> "") by (intros ->; exact (getShopifyHeader_not_empty _ _ Ew)).
    destruct (bool_decide (SHOPIFY_WEBHOOK_VERIFY_SIGNATURE env = Some "false")) eqn:Ev;
      cbn [negb].
    + apply bool_decide_eq_true in Ev. intros _. eauto 6.
    + destruct (checkShopifySignature _ _ _ _) as [[|]|e] eqn:Ec; try discriminate.
      apply checkShopifySignature_true in Ec as (s & Es & Hs & Eh & _).
      intros _. split; [exact Et|]. split; [eauto|]. right. eauto.
  - intros (Et & (w & Ew & Hw) & Hv).
    rewrite Et, Ew. rewrite bool_decide_eq_true_2 by reflexivity. cbn [negb].
    destruct (bool_decide (SHOPIFY_WEBHOOK_VERIFY_SIGNATURE env = Some "false")) eqn:Ev;
      cbn [negb]; [reflexivity|].
    apply bool_decide_eq_false in Ev.
    destruct Hv as [Hv|(s & Es & Hs & Eh)]; [contradiction|].
    assert (Hc : checkShopifySignature hmac env (rawBody req)
                   (getShopifyHeader req "x-shopify-hmac-sha256") = Ok true).
    { apply checkShopifySignature_true. exists s. repeat split; try assumption.
      intros Hd. rewrite Hd in Eh. exact (getShopifyHeader_not_empty _ _ Eh). }
    rewrite Hc. reflexivity.
Qed.

(* ---------------------------------------------------------------------- *)
(** ** An order whose plates exist                                          *)
(* ---------------------------------------------------------------------- *)

(** X16. Delivering again an order whose plates all exist creates
    nothing, under any delivery id and whatever the failures met: in a
    well-formed store that holds a plate for every unit of the groups of
    the body, the run leaves the plates as they are, sends no
    notification, and a count it writes to the ledger is zero. *)
Theorem fulfilled_order_creates_nothing
  parse hmac normalize html validEmail env fl req st body groups :
  wellFormed st ->
  parse (rawBody req) = Some body ->
  extractGroups (Some body) = Ok groups ->
  allUnitsPresent (orderNumberOf (Some body)) groups st ->
  plates (shopifyOrdersPaidWebhook parse hmac normalize html validEmail env fl req st).1.2
  = plates st
  /\ emailsOf (shopifyOrdersPaidWebhook parse hmac normalize html validEmail env fl req st).2 = []
  /\ forall n,
       reportedCount (shopifyOrdersPaidWebhook parse hmac normalize html validEmail env fl
                        req st).2 n ->
       n = 0.
Proof.
  intros Hwf Hparse Hgroups Hall.
  pose proof (run_wellFormed parse hmac normalize html validEmail env fl req st Hwf)
    as (_ & _ & Hnd & _).
  destruct (run_leaves parse hmac normalize html validEmail env fl req st)
    as (rows & Hp & Hrows & Hn & Hm).
  assert (Hnil : rows = []).
  { destruct rows as [|r rows]; [reflexivity|]. exfalso.
    apply Forall_cons in Hrows as [(body' & groups' & Hb & Hg & _ & _ & grp & i & Hin & Hi & Hkey & _) _].
    rewrite Hparse in Hb. injection Hb as <-.
    rewrite Hgroups in Hg. injection Hg as <-.
    specialize (Hall grp i Hin Hi). rewrite <- Hkey in Hall.
    unfold sourceKeys in Hnd, Hall. rewrite Hp, map_app in Hnd.
    apply NoDup_app in Hnd as (_ & Hdis & _).
    apply (Hdis (pl_sourceKey r)); [apply list_elem_of_In; exact Hall|].
    apply list_elem_of_In. left. reflexivity. }
  subst rows. rewrite app_nil_r in Hp. split; [exact Hp|]. split.
  - destruct Hm as [Hm|(to & subject & h & _ & Hne & _)]; [exact Hm|congruence].
  - intros n H. rewrite (Hn n H). reflexivity.
Qed.

Lemma fulfilled_order_creates_nothing_witness :
  plates
    (shopifyOrdersPaidWebhook
       (parseAs "order" (packOfTwoOrder "client@example.com"))
       noHmac acceptUrl noHtml emailWithAt unverifiedEnv noFaults
       (MkRequest "order" [("x-shopify-topic", "orders/paid");
                           ("x-shopify-webhook-id", "w2")])
       (shopifyOrdersPaidWebhook
          (parseAs "order" (packOfTwoOrder "client@example.com"))
          noHmac acceptUrl noHtml emailWithAt unverifiedEnv noFaults (delivery "order")
          emptyStore).1.2).1.2
  = plates
      (shopifyOrdersPaidWebhook
         (parseAs "order" (packOfTwoOrder "client@example.com"))
         noHmac acceptUrl noHtml emailWithAt unverifiedEnv noFaults (delivery "order")
         emptyStore).1.2.
Proof.
  refine (proj1 (fulfilled_order_creates_nothing
                   (parseAs "order" (packOfTwoOrder "client@example.com"))
                   noHmac acceptUrl noHtml emailWithAt unverifiedEnv noFaults
                   (MkRequest "order" [("x-shopify-topic", "orders/paid");
                                       ("x-shopify-webhook-id", "w2")])
                   _ (packOfTwoOrder "client@example.com")
                   [MkGroup reviewLink 4 "li_77"] _ _ _ _)).
  - apply run_wellFormed. unfold wellFormed. cbn. repeat split; constructor.
  - reflexivity.
  - reflexivity.
  - intros grp i [<-|[]] Hi. cbn in Hi.
    assert (Hcases : i = 0 \/ i = 1 \/ i = 2 \/ i = 3) by lia.
    destruct Hcases as [->|[->|[->| ->]]]; vm_compute; tauto.
Defined.

(* ---------------------------------------------------------------------- *)
(** ** Failures of the business data                                        *)
(* ---------------------------------------------------------------------- *)

Lemma mark_new_record fault w topic data st ev' :
  applyEventData data (MkEvent (next_id st) "shopify" w topic None "received" None) = ev' ->
  In ev'
    (events
       (updateEvent None (next_id st) data
          (MkStore
             (events st ++ [MkEvent (next_id st) "shopify" w topic None "received" None])
             (orders st) (plates st) (S (next_id st)))).2)
  /\ orders
       (markEvent fault (Some (next_id st)) data
          (MkStore
             (events st ++ [MkEvent (next_id st) "shopify" w topic None "received" None])
             (orders st) (plates st) (S (next_id st)))).1
     = orders st
  /\ plates
       (markEvent fault (Some (next_id st)) data
          (MkStore
             (events st ++ [MkEvent (next_id st) "shopify" w topic None "received" None])
             (orders st) (plates st) (S (next_id st)))).1
     = plates st.
Proof.
  intros Hev. split.
  - unfold updateEvent. cbn [events].
    rewrite existsb_app. cbn [existsb ev_id]. rewrite Nat.eqb_refl, orb_true_r. cbn.
    rewrite map_app. apply in_or_app. right. cbn. rewrite Nat.eqb_refl. left. exact Hev.
  - match goal with |- context [markEvent ?a (Some ?b) ?c ?d] =>
      destruct (markEvent_spec a b c d) as (Hp & Ho & _) end.
    split; assumption.
Qed.

(** X17. A failure of the business data ends the delivery: when a request
    that passes the gates under a delivery id not seen before has a body
    that does not parse, that lacks the order number or the customer
    e-mail, or none of whose lines yields a group, and neither the
    registration of the delivery nor the update of its record fails, the
    handler answers 200, leaves orders and plates as they are, and the
    delivery record it registered ends in [failed] with the message of
    the failure. *)
Theorem business_failures_are_recorded
  parse hmac normalize html validEmail env fl req st webhookId msg :
  gates hmac env req = None ->
  getShopifyHeader req "x-shopify-webhook-id" = Some webhookId ->
  ~ In webhookId (webhookIds st) ->
  f_register fl = None ->
  f_mark fl = None ->
  businessFailure parse req msg ->
  (shopifyOrdersPaidWebhook parse hmac normalize html validEmail env fl
     req st).1.1 = Responded 200
  /\ orders (shopifyOrdersPaidWebhook parse hmac normalize html validEmail env fl req st).1.2
     = orders st
  /\ plates (shopifyOrdersPaidWebhook parse hmac normalize html validEmail env fl req st).1.2
     = plates st
  /\ exists ev,
       In ev (events (shopifyOrdersPaidWebhook parse hmac normalize html validEmail env fl
                        req st).1.2)
       /\ ev_id ev = next_id st
       /\ ev_webhookId ev = webhookId
       /\ ev_status ev = "failed"
       /\ ev_error ev = Some msg.
Proof.
  intros Hgates Hw Hnew Hreg Hmark Hfail.
  unfold shopifyOrdersPaidWebhook. rewrite Hgates, Hw.
  change (default "" (Some webhookId)) with webhookId.
  unfold createEvent. rewrite Hreg.
  rewrite (existsb_eqb_false _ ev_webhookId webhookId (events st) Hnew).
  unfold processEvent. rewrite Hmark.
  set (topic := default "" (getShopifyHeader req "x-shopify-topic")).
  assert (Hdone : forall data ev',
            applyEventData data
              (MkEvent (next_id st) "shopify" webhookId topic None "received" None) = ev' ->
            ev_id ev' = next_id st /\ ev_webhookId ev' = webhookId
            /\ ev_status ev' = "failed" /\ ev_error ev' = Some msg ->
            let res :=
              let '(st', fx) :=
                markEvent None (Some (next_id st)) data
                  (MkStore
                     (events st
                      ++ [MkEvent (next_id st) "shopify" webhookId topic None "received" None])
                     (orders st) (plates st) (S (next_id st))) in
              (Responded 200, st', fx) in
            res.1.1 = Responded 200
            /\ orders res.1.2 = orders st
            /\ plates res.1.2 = plates st
            /\ exists ev,
                 In ev (events res.1.2)
                 /\ ev_id ev = next_id st
                 /\ ev_webhookId ev = webhookId
                 /\ ev_status ev = "failed"
                 /\ ev_error ev = Some msg).
  { intros data ev' Hev Hprops. cbv zeta.
    destruct (mark_new_record None webhookId topic data st ev' Hev) as (Hin & Ho & Hp).
    unfold markEvent in *.
    destruct (updateEvent None (next_id st) data _) as [[[]|e] st'] eqn:Eu;
      cbn [fst snd] in *.
    - repeat split; try assumption. exists ev'. tauto.
    - exfalso. unfold updateEvent in Eu. cbn [events] in Eu.
      rewrite existsb_app in Eu. cbn [existsb ev_id] in Eu.
      rewrite Nat.eqb_refl, orb_true_r in Eu. discriminate Eu. }
  destruct Hfail as [Hparse|body Hparse Hmissing|body Hparse Hnum Hmail Hgroups];
    rewrite Hparse.
  - eapply Hdone; [reflexivity|]. cbn. auto.
  - fold (orderNumberOf (Some body)). fold (customerEmailOf (Some body)).
    replace (_ || _) with true.
    + eapply Hdone; [reflexivity|]. cbn. auto.
    + symmetry. apply orb_true_iff.
      destruct Hmissing as [-> | ->]; [left|right]; reflexivity.
  - fold (orderNumberOf (Some body)). fold (customerEmailOf (Some body)).
    apply String.eqb_neq in Hnum, Hmail. rewrite Hnum, Hmail. cbn [orb].
    rewrite Hgroups.
    eapply Hdone; [reflexivity|]. cbn. auto.
Qed.

Lemma business_failures_are_recorded_witness :
  (shopifyOrdersPaidWebhook (fun _ => None) noHmac acceptUrl noHtml emailWithAt unverifiedEnv
     noFaults (delivery "not json") emptyStore).1.1 = Responded 200
  /\ orders (shopifyOrdersPaidWebhook (fun _ => None) noHmac acceptUrl noHtml emailWithAt
               unverifiedEnv noFaults (delivery "not json") emptyStore).1.2
     = orders emptyStore
  /\ plates (shopifyOrdersPaidWebhook (fun _ => None) noHmac acceptUrl noHtml emailWithAt
               unverifiedEnv noFaults (delivery "not json") emptyStore).1.2
     = plates emptyStore
  /\ exists ev,
       In ev (events (shopifyOrdersPaidWebhook (fun _ => None) noHmac acceptUrl noHtml emailWithAt
                        unverifiedEnv noFaults (delivery "not json") emptyStore).1.2)
       /\ ev_id ev = next_id emptyStore
       /\ ev_webhookId ev = "w1"
       /\ ev_status ev = "failed"
       /\ ev_error ev = Some "Invalid JSON body".
Proof.
  apply (business_failures_are_recorded (fun _ => None) noHmac acceptUrl noHtml emailWithAt
           unverifiedEnv noFaults (delivery "not json") emptyStore "w1"
           "Invalid JSON body").
  - reflexivity.
  - reflexivity.
  - cbn. tauto.
  - reflexivity.
  - reflexivity.
  - apply bf_invalid_json. reflexivity.
Defined.

(* ---------------------------------------------------------------------- *)
(** ** A group that fails validation                                        *)
(* ---------------------------------------------------------------------- *)

Lemma groupsLoop_app normalize attempts o oid good rest :
  forall g,
    groupsLoop normalize attempts o oid (good ++ rest) g
    = match groupsLoop normalize attempts o oid good g with
      | GDone g' => groupsLoop normalize attempts o oid rest g'
      | out => out
      end.
Proof.
  induction good as [|grp good IH]; intros g; [reflexivity|].
  cbn [app groupsLoop].
  destruct (String.eqb (lineItemId grp) ""); [reflexivity|].
  destruct (or_else (normalize (reviewUrl grp)) None); [|reflexivity].
  destruct (unitsLoop _ _ _ _ _ _ _ _); [apply IH|reflexivity].
Qed.

(** X18. The groups are validated one by one, between the insertions: a
    group without line item id, or whose destination the validation
    rejects, stops the generation with the matching message after the
    plates of all groups before it have been inserted, and no group after
    it is looked at: the state left is the state that the generation for
    the earlier groups alone leaves. *)
Theorem invalid_group_stops_after_earlier_groups
  normalize fl o oid good bad rest st g' :
  generatePlates normalize fl o oid good st = GDone g' ->
  (lineItemId bad = "" ->
   generatePlates normalize fl o oid (good ++ bad :: rest) st
   = GFailed "Missing lineItemId (idempotence impossible)" g')
  /\ (lineItemId bad <> "" ->
      or_else (normalize (reviewUrl bad)) None = None ->
      generatePlates normalize fl o oid (good ++ bad :: rest) st
      = GFailed ("Invalid Google review URL: " +:+ reviewUrl bad) g').
Proof.
  unfold generatePlates.
  destruct (findPlates (f_findPlates fl) oid st) as [existing|e]; [|discriminate].
  intros Hgood. rewrite groupsLoop_app, Hgood. cbn [groupsLoop]. split.
  - intros ->. reflexivity.
  - intros Hid Hurl. apply String.eqb_neq in Hid. rewrite Hid, Hurl. reflexivity.
Qed.

Lemma invalid_group_stops_after_earlier_groups_witness :
  exists g',
    generatePlates (fun u => if String.eqb u reviewLink then Some u else None)
      noFaults "1001" 1 [MkGroup reviewLink 2 "li_77"] emptyStore
    = GDone g'
    /\ length (plates (g_store g')) = 2%nat
    /\ generatePlates (fun u => if String.eqb u reviewLink then Some u else None)
         noFaults "1001" 1
         ([MkGroup reviewLink 2 "li_77"]
            ++ MkGroup "https://example.com" 1 "li_78" :: [MkGroup reviewLink 1 "li_79"])
         emptyStore
       = GFailed ("Invalid Google review URL: " +:+ "https://example.com") g'.
Proof.
  eexists. split; [|split].
  - vm_compute. reflexivity.
  - reflexivity.
  - refine (proj2 (invalid_group_stops_after_earlier_groups
                     (fun u => if String.eqb u reviewLink then Some u else None)
                     noFaults "1001" 1 [MkGroup reviewLink 2 "li_77"]
                     (MkGroup "https://example.com" 1 "li_78")
                     [MkGroup reviewLink 1 "li_79"] emptyStore _ _) _ _).
    + vm_compute. reflexivity.
    + discriminate.
    + reflexivity.
Defined.

(* ---------------------------------------------------------------------- *)
(** ** The order after a processed delivery                                 *)
(* ---------------------------------------------------------------------- *)

Lemma failed_not_processed fault eventId data st :
  assoc "status" data = Some (JStr "failed") ->
  ~ marksProcessed (markEvent fault (Some eventId) data st).2.
Proof.
  intros Hd (id & d & Hin & Hs).
  destruct (markEvent_spec fault eventId data st) as (_ & _ & _ & logs & Hfx & Hl).
  rewrite Hfx in Hin. destruct Hin as [Hin|Hin].
  - injection Hin as <- <-. congruence.
  - rewrite Forall_forall in Hl. apply list_elem_of_In in Hin.
    destruct (Hl _ Hin) as (m & e & He). discriminate He.
Qed.

Lemma nothing_not_processed : ~ marksProcessed [].
Proof. intros (? & ? & [] & _). Qed.

Lemma finalize_order html env fl eventId number email oid g o :
  In o (orders (g_store g)) ->
  or_id o = oid ->
  marksProcessed (finalize html env fl eventId number email oid g).2 ->
  plates (finalize html env fl eventId number email oid g).1.2 = plates (g_store g)
  /\ In (MkOrder oid (or_orderNumber o) (or_customerEmail o) (or_status o)
           (map pl_id
              (take 500 (rev (List.filter (fun p => (pl_order p =? oid)%nat)
                                (plates (g_store g))))))
           true)
        (orders (finalize html env fl eventId number email oid g).1.2).
Proof.
  intros Hin Hid. unfold finalize, findPlates.
  destruct (f_findFinal fl) as [e|].
  { intros H. destruct (nothing_not_processed H). }
  unfold updateOrder.
  destruct (f_finalizeOrder fl) as [e|].
  { intros H. destruct (nothing_not_processed H). }
  destruct (head (List.filter _ (orders (g_store g)))) as [o0|].
  2:{ intros H. destruct (nothing_not_processed H). }
  match goal with |- context [markEvent ?a (Some ?b) ?c ?d] =>
    destruct (markEvent_spec a b c d) as (Hp & Ho & _);
    destruct (markEvent a (Some b) c d) as [st2 fx] end.
  cbn [fst snd plates orders] in *. intros _. split; [exact Hp|].
  rewrite Ho. apply in_map_iff. exists o. split; [|exact Hin].
  rewrite Hid, Nat.eqb_refl. reflexivity.
Qed.

Lemma upsert_order fault invalid number email (existing : option Order) st order st1 :
  (forall doc, existing = Some doc -> In doc (orders st) /\ or_orderNumber doc = number) ->
  match existing with
  | Some doc =>
      updateOrder fault invalid (or_id doc)
        (fun o => MkOrder (or_id o) (or_orderNumber o) email "paid"
                    (or_plates o) (or_activated o)) st
  | None => createOrder fault invalid number email st
  end = (Ok order, st1) ->
  plates st1 = plates st
  /\ exists o,
       In o (orders st1)
       /\ or_id o = or_id order
       /\ or_orderNumber o = number
       /\ or_customerEmail o = email
       /\ or_status o = "paid".
Proof.
  intros Hex. destruct existing as [doc|].
  - destruct (Hex doc eq_refl) as [Hin Hnum]. unfold updateOrder.
    destruct fault; [discriminate|].
    destruct (head (List.filter _ (orders st))) as [o0|] eqn:Eh; [|discriminate].
    destruct invalid; [discriminate|].
    intros [= <- <-]. apply head_filter_In in Eh as [_ Ho0]. apply Nat.eqb_eq in Ho0.
    split; [reflexivity|].
    exists (MkOrder (or_id doc) (or_orderNumber doc) email "paid"
              (or_plates doc) (or_activated doc)).
    cbn. repeat split; try assumption; [|congruence].
    apply in_map_iff. exists doc. rewrite Nat.eqb_refl. auto.
  - unfold createOrder. destruct fault; [discriminate|].
    destruct invalid; [discriminate|].
    destruct (existsb _ (orders st)); [discriminate|].
    intros [= <- <-]. split; [reflexivity|].
    eexists. cbn. split; [apply in_or_app; right; left; reflexivity|]. auto.
Qed.

Lemma processEvent_order parse normalize html validEmail env fl req eventId st :
  marksProcessed (processEvent parse normalize html validEmail env fl req eventId st).2 ->
  exists o,
    In o (orders (processEvent parse normalize html validEmail env fl req eventId st).1.2)
    /\ or_orderNumber o = orderNumberOf (parse (rawBody req))
    /\ or_customerEmail o = customerEmailOf (parse (rawBody req))
    /\ or_status o = "paid"
    /\ or_activated o = true
    /\ listsItsPlates (processEvent parse normalize html validEmail env fl req eventId st).1.2 o.
Proof.
  unfold processEvent.
  assert (Hfail : forall data st0 (P : Prop),
            assoc "status" data = Some (JStr "failed") ->
            marksProcessed
              (let '(st', fx) := markEvent (f_mark fl) (Some eventId) data st0 in
               (Responded 200, st', fx)).2 -> P).
  { intros data st0 P Hd H.
    pose proof (failed_not_processed (f_mark fl) eventId data st0 Hd) as Hn.
    destruct (markEvent _ _ _ _). destruct (Hn H). }
  destruct (parse (rawBody req)) as [body|] eqn:Eparse.
  2:{ apply Hfail. reflexivity. }
  destruct (_ || _); [apply Hfail; reflexivity|].
  destruct (extractGroups (Some body)) as [groups|e].
  2:{ intros H. destruct (nothing_not_processed H). }
  destruct groups as [|grp groups'] eqn:Eg; [apply Hfail; reflexivity|].
  rewrite <- Eg. clear Eg.
  destruct (existsb _ groups); [apply Hfail; reflexivity|].
  fold (orderNumberOf (Some body)). fold (customerEmailOf (Some body)).
  destruct (findOrder _ _ st) as [existing|e] eqn:Efind.
  2:{ intros H. destruct (nothing_not_processed H). }
  match goal with
  | |- context [match ?u with (r, st1) => _ end] =>
      pose proof (upsert_order (f_saveOrder fl)
                    (validateOrder validEmail (Some (customerEmailOf (Some body))))
                    (orderNumberOf (Some body))
                    (customerEmailOf (Some body)) existing st) as Hup;
      destruct u as [[order|e] st1] eqn:Eup
  end.
  2:{ intros H. destruct (nothing_not_processed H). }
  destruct (Hup order st1) as (_ & o & Hin & Hid & Hnum & Hmail & Hstat).
  { intros doc ->. apply (findOrder_Some _ _ _ _ Efind). }
  { reflexivity. }
  destruct (generatePlates_appended normalize fl (orderNumberOf (Some body))
              (or_id order) groups st1) as (rows & _ & Hord & _).
  destruct (generatePlates normalize fl (orderNumberOf (Some body)) (or_id order)
              groups st1) as [g|err g|e g]; cbn [out_state g_store] in Hord.
  - intros H. rewrite <- Hord in Hin.
    destruct (finalize_order html env fl eventId (orderNumberOf (Some body))
                (customerEmailOf (Some body)) (or_id order) g o Hin Hid H) as [Hp Ho].
    eexists. split; [exact Ho|]. cbn. repeat split; try assumption.
    unfold listsItsPlates. cbn. rewrite Hp. reflexivity.
  - apply Hfail. reflexivity.
  - intros H. destruct (nothing_not_processed H).
Qed.

(** X19. A run that marks its delivery [processed] leaves the order of
    the payload complete: the store holds an order with the order number
    and the customer e-mail of the body, with status [paid], activated,
    and listing the ids of the plates that point to it (the 500 newest of
    them, the newest first). *)
Theorem processed_run_completes_the_order
  parse hmac normalize html validEmail env fl req st :
  marksProcessed (shopifyOrdersPaidWebhook parse hmac normalize html validEmail env fl
                    req st).2 ->
  exists o,
    In o (orders (shopifyOrdersPaidWebhook parse hmac normalize html validEmail env fl
                    req st).1.2)
    /\ or_orderNumber o = orderNumberOf (parse (rawBody req))
    /\ or_customerEmail o = customerEmailOf (parse (rawBody req))
    /\ or_status o = "paid"
    /\ or_activated o = true
    /\ listsItsPlates (shopifyOrdersPaidWebhook parse hmac normalize html validEmail env fl
                         req st).1.2 o.
Proof.
  unfold shopifyOrdersPaidWebhook.
  destruct (gates hmac env req).
  { intros H. destruct (nothing_not_processed H). }
  unfold createEvent.
  destruct (f_register fl) as [e|].
  { destruct (isDuplicateKeyError (Some e)); intros H; destruct (nothing_not_processed H). }
  destruct (existsb _ (events st)).
  { destruct (isDuplicateKeyError _); intros H; destruct (nothing_not_processed H). }
  apply processEvent_order.
Qed.

Lemma processed_run_completes_the_order_witness :
  exists o,
    In o (orders
            (shopifyOrdersPaidWebhook
               (parseAs "order" (packOfTwoOrder "client@example.com"))
               noHmac acceptUrl noHtml emailWithAt unverifiedEnv noFaults (delivery "order")
               emptyStore).1.2)
    /\ or_orderNumber o
       = orderNumberOf
           (parseAs "order" (packOfTwoOrder "client@example.com")
              (rawBody (delivery "order")))
    /\ or_customerEmail o
       = customerEmailOf
           (parseAs "order" (packOfTwoOrder "client@example.com")
              (rawBody (delivery "order")))
    /\ or_status o = "paid"
    /\ or_activated o = true
    /\ listsItsPlates
         (shopifyOrdersPaidWebhook
            (parseAs "order" (packOfTwoOrder "client@example.com"))
            noHmac acceptUrl noHtml emailWithAt unverifiedEnv noFaults (delivery "order")
            emptyStore).1.2 o.
Proof.
  apply processed_run_completes_the_order.
  exists 0%nat, [("status", JStr "processed"); ("orderNumber", JStr "1001");
                 ("createdPlatesCount", JNum 4)].
  split; [vm_compute; left; reflexivity|reflexivity].
Defined.

(* ---------------------------------------------------------------------- *)
(** ** The purge of the delivery records                                    *)
(* ---------------------------------------------------------------------- *)

Lemma filter_filter_sub (A : Type) (p q : A -> bool) (l : list A) :
  (forall x, q x = true -> p x = true) ->
  List.filter q (List.filter p l) = List.filter q l.
Proof.
  intros H. induction l as [|x l IH]; [reflexivity|].
  cbn [List.filter]. destruct (p x) eqn:Ep.
  - cbn [List.filter]. rewrite IH. reflexivity.
  - rewrite IH. destruct (q x) eqn:Eq; [|reflexivity].
    rewrite (H x Eq) in Ep. discriminate Ep.
Qed.

(** X20. A later purge subsumes an earlier one: purging at an instant and
    then again at the same or a later instant, with the same retention,
    leaves the store that the later purge alone leaves.  In particular a
    purge run twice changes nothing the second time. *)
Theorem later_purge_subsumes_earlier createdAt keepDays now1 now2 cutoff1 cutoff2 st :
  now1 <= now2 ->
  cutoffOf now1 keepDays = Ok cutoff1 ->
  cutoffOf now2 keepDays = Ok cutoff2 ->
  purgeOnce createdAt None now2 keepDays (purgeOnce createdAt None now1 keepDays st).2
  = purgeOnce createdAt None now2 keepDays st.
Proof.
  intros Hle H1 H2. unfold purgeOnce. rewrite H1, H2. unfold deleteEvents.
  cbn [snd events orders plates next_id]. f_equal. f_equal.
  apply filter_filter_sub. intros ev Hkeep.
  assert (Hc : cutoff1 <= cutoff2).
  { unfold cutoffOf in H1, H2.
    destruct (Z.abs _ >? _) in H1; [discriminate|].
    destruct (Z.abs _ >? _) in H2; [discriminate|].
    injection H1 as <-. injection H2 as <-. lia. }
  destruct (isFinal ev); [|rewrite andb_false_r; reflexivity].
  rewrite andb_true_r in *. apply negb_true_iff in Hkeep. apply negb_true_iff.
  apply Z.ltb_ge in Hkeep. apply Z.ltb_ge. lia.
Qed.

Lemma later_purge_subsumes_earlier_witness :
  purgeOnce (fun id => Z.of_nat id * 1000) None 2592005000 30
    (purgeOnce (fun id => Z.of_nat id * 1000) None 2592002000 30
       (MkStore
          [MkEvent 0 "shopify" "w0" "orders/paid" None "processed" None;
           MkEvent 1 "shopify" "w1" "orders/paid" None "received" None;
           MkEvent 3 "shopify" "w3" "orders/paid" None "failed" None;
           MkEvent 7 "shopify" "w7" "orders/paid" None "processed" None]
          [] [] 8)).2
  = purgeOnce (fun id => Z.of_nat id * 1000) None 2592005000 30
      (MkStore
         [MkEvent 0 "shopify" "w0" "orders/paid" None "processed" None;
          MkEvent 1 "shopify" "w1" "orders/paid" None "received" None;
          MkEvent 3 "shopify" "w3" "orders/paid" None "failed" None;
          MkEvent 7 "shopify" "w7" "orders/paid" None "processed" None]
         [] [] 8).
Proof.
  apply (later_purge_subsumes_earlier _ 30 2592002000 2592005000 2000 5000).
  - lia.
  - reflexivity.
  - reflexivity.
Defined.

Lemma purgeRun_spec label createdAt fault now keepDays st :
  orders (purgeRun label createdAt fault now keepDays st).1 = orders st
  /\ plates (purgeRun label createdAt fault now keepDays st).1 = plates st
  /\ next_id (purgeRun label createdAt fault now keepDays st).1 = next_id st
  /\ exists keep,
       events (purgeRun label createdAt fault now keepDays st).1
       = List.filter keep (events st)
       /\ forall ev, isFinal ev = false -> keep ev = true.
Proof.
  unfold purgeRun, purgeOnce, deleteEvents.
  assert (Hsame : exists keep,
             events st = List.filter keep (events st)
             /\ forall ev, isFinal ev = false -> keep ev = true).
  { exists (fun _ => true). split; [|reflexivity].
    symmetry. apply forallb_filter_id. apply forallb_forall. reflexivity. }
  destruct (cutoffOf now keepDays) as [cutoff|e]; [|cbn; auto].
  destruct fault as [e|]; cbn [fst snd events orders plates next_id]; [auto|].
  repeat split. eexists. split; [reflexivity|].
  intros ev Hev. cbv beta. rewrite Hev, andb_false_r. reflexivity.
Qed.

Lemma startWebhookEventsPurge_spec createdAt keepDays boot ticks st :
  orders (startWebhookEventsPurge createdAt keepDays boot ticks st).1 = orders st
  /\ plates (startWebhookEventsPurge createdAt keepDays boot ticks st).1 = plates st
  /\ next_id (startWebhookEventsPurge createdAt keepDays boot ticks st).1 = next_id st
  /\ exists keep,
       events (startWebhookEventsPurge createdAt keepDays boot ticks st).1
       = List.filter keep (events st)
       /\ forall ev, isFinal ev = false -> keep ev = true.
Proof.
  unfold startWebhookEventsPurge.
  pose proof (purgeRun_spec "Webhook events purge failed (boot)" createdAt
                (tk_fault boot) (tk_now boot) (default 30 keepDays) st) as H0.
  destruct (purgeRun "Webhook events purge failed (boot)" createdAt (tk_fault boot)
              (tk_now boot) (default 30 keepDays) st) as [st0 fx0].
  cbn [fst] in H0. revert st0 fx0 H0.
  induction ticks as [|tk ticks IH]; intros st0 fx0 H0; [exact H0|].
  cbn [fold_left].
  pose proof (purgeRun_spec "Webhook events purge failed (interval)" createdAt
                (tk_fault tk) (tk_now tk) (default 30 keepDays) st0) as H1.
  destruct (purgeRun "Webhook events purge failed (interval)" createdAt (tk_fault tk)
              (tk_now tk) (default 30 keepDays) st0) as [st1 fx1].
  cbn [fst] in H1. apply IH.
  destruct H0 as (Ho0 & Hp0 & Hn0 & k0 & He0 & Hk0).
  destruct H1 as (Ho1 & Hp1 & Hn1 & k1 & He1 & Hk1).
  repeat split; try congruence.
  exists (fun ev => k0 ev && k1 ev). split.
  - rewrite He1, He0. clear. induction (events st) as [|ev l IHl]; [reflexivity|].
    cbn [List.filter]. destruct (k0 ev); cbn [List.filter andb]; [|exact IHl].
    destruct (k1 ev); rewrite IHl; reflexivity.
  - intros ev Hev. rewrite (Hk0 ev Hev), (Hk1 ev Hev). reflexivity.
Qed.

Lemma NoDup_map_filter (A B : Type) (f : A -> B) (p : A -> bool) (l : list A) :
  NoDup (map f l) -> NoDup (map f (List.filter p l)).
Proof.
  induction l as [|x l IH]; [auto|].
  cbn [map List.filter]. intros H. apply NoDup_cons in H as [Hx Hl].
  destruct (p x); [|auto]. cbn [map]. apply NoDup_cons. split; [|auto].
  intros Hin. apply Hx. apply list_elem_of_In in Hin. apply list_elem_of_In.
  apply in_map_iff in Hin as (y & Hy & Hin). apply List.filter_In in Hin as [Hin _].
  rewrite <- Hy. apply in_map. exact Hin.
Qed.

Lemma Forall_map_filter (A B : Type) (P : B -> Prop) (f : A -> B) (p : A -> bool) (l : list A) :
  Forall P (map f l) -> Forall P (map f (List.filter p l)).
Proof.
  induction l as [|x l IH]; [auto|].
  cbn [map List.filter]. intros H. apply Forall_cons in H as [Hx Hl].
  destruct (p x); [|auto]. cbn [map]. constructor; auto.
Qed.

(** X21. The purge, however often it fires and whatever failures it
    meets, only removes delivery records that reached [processed] or
    [failed]: orders, plates and the id counter are as before, every
    record left was there before, every record in another state is still
    there, and a well-formed store stays well formed. *)
Theorem purge_removes_final_records_only createdAt keepDays boot ticks st :
  orders (startWebhookEventsPurge createdAt keepDays boot ticks st).1 = orders st
  /\ plates (startWebhookEventsPurge createdAt keepDays boot ticks st).1 = plates st
  /\ next_id (startWebhookEventsPurge createdAt keepDays boot ticks st).1 = next_id st
  /\ (forall ev,
        In ev (events (startWebhookEventsPurge createdAt keepDays boot ticks st).1) ->
        In ev (events st))
  /\ (forall ev,
        In ev (events st) ->
        ev_status ev <> "processed" -> ev_status ev <> "failed" ->
        In ev (events (startWebhookEventsPurge createdAt keepDays boot ticks st).1))
  /\ (wellFormed st ->
      wellFormed (startWebhookEventsPurge createdAt keepDays boot ticks st).1).
Proof.
  destruct (startWebhookEventsPurge_spec createdAt keepDays boot ticks st)
    as (Ho & Hp & Hn & keep & He & Hk).
  split; [exact Ho|]. split; [exact Hp|]. split; [exact Hn|]. split; [|split].
  - intros ev Hin. rewrite He in Hin. apply List.filter_In in Hin. tauto.
  - intros ev Hin H1 H2. rewrite He. apply List.filter_In. split; [exact Hin|].
    apply Hk. unfold isFinal. cbn [existsb].
    apply String.eqb_neq in H1, H2. rewrite H1, H2. reflexivity.
  - intros (W1 & W2 & W3 & W4 & W5 & W6 & W7 & W8 & W9).
    unfold wellFormed, webhookIds, sourceKeys, slugs in *.
    rewrite Ho, Hp, Hn, He.
    repeat split; try assumption.
    + apply NoDup_map_filter. exact W1.
    + apply Forall_map_filter. exact W6.
Qed.

(** X22. A delivery whose record is kept is not processed again: when
    the store holds a record that is neither [processed] nor [failed]
    under a delivery id, then after the purge has fired any number of
    times a request under that delivery id that passes the gates is
    refused at the registration; it is answered 500, since the rejection
    of the unique index is not recognised as a duplicate, and it changes
    nothing and has no effect. *)
Theorem open_delivery_is_not_processed_again
  createdAt keepDays boot ticks st ev parse hmac normalize html validEmail env fl req :
  In ev (events st) ->
  ev_status ev <> "processed" ->
  ev_status ev <> "failed" ->
  gates hmac env req = None ->
  getShopifyHeader req "x-shopify-webhook-id" = Some (ev_webhookId ev) ->
  f_register fl = None ->
  shopifyOrdersPaidWebhook parse hmac normalize html validEmail env fl req
    (startWebhookEventsPurge createdAt keepDays boot ticks st).1
  = (Responded 500, (startWebhookEventsPurge createdAt keepDays boot ticks st).1, []).
Proof.
  intros Hin H1 H2 Hgates Hw Hreg.
  destruct (startWebhookEventsPurge_spec createdAt keepDays boot ticks st)
    as (_ & _ & _ & keep & He & Hk).
  unfold shopifyOrdersPaidWebhook. rewrite Hgates, Hw.
  change (default "" (Some (ev_webhookId ev))) with (ev_webhookId ev).
  unfold createEvent. rewrite Hreg.
  rewrite (existsb_eqb_true _ ev_webhookId).
  - rewrite (proj1 uniqueViolation_unclassified). reflexivity.
  - apply in_map. rewrite He. apply List.filter_In. split; [exact Hin|].
    apply Hk. unfold isFinal. cbn [existsb].
    apply String.eqb_neq in H1, H2. rewrite H1, H2. reflexivity.
Qed.

Lemma open_delivery_is_not_processed_again_witness :
  shopifyOrdersPaidWebhook
    (parseAs "order" (packOfTwoOrder "client@example.com"))
    noHmac acceptUrl noHtml emailWithAt unverifiedEnv noFaults (delivery "order")
    (startWebhookEventsPurge (fun _ => 0) None (MkTick 9000000000000 None)
       [MkTick 9100000000000 None]
       (MkStore [MkEvent 0 "shopify" "w1" "orders/paid" None "received" None]
          [] [] 1)).1
  = (Responded 500,
     (startWebhookEventsPurge (fun _ => 0) None (MkTick 9000000000000 None)
        [MkTick 9100000000000 None]
        (MkStore [MkEvent 0 "shopify" "w1" "orders/paid" None "received" None]
           [] [] 1)).1,
     []).
Proof.
  apply (open_delivery_is_not_processed_again _ _ _ _ _
           (MkEvent 0 "shopify" "w1" "orders/paid" None "received" None)).
  - left. reflexivity.
  - discriminate.
  - discriminate.
  - reflexivity.
  - reflexivity.
  - reflexivity.
Defined.

(* ---------------------------------------------------------------------- *)
(** ** Runs that end in an exception                                        *)
(* ---------------------------------------------------------------------- *)

Lemma finalize_rejected html env fl eventId o email oid g e :
  (finalize html env fl eventId o email oid g).1.1 = Rejected e ->
  events (finalize html env fl eventId o email oid g).1.2 = events (g_store g)
  /\ (finalize html env fl eventId o email oid g).2 = [].
Proof.
  unfold finalize.
  destruct (findPlates (f_findFinal fl) oid (g_store g)) as [final|e']; [|auto].
  match goal with |- context [updateOrder ?a ?v ?b ?c ?d] =>
    pose proof (updateOrder_frame a v b c d) as [He _];
    destruct (updateOrder a v b c d) as [[ord|e'] st1] end; cbn [fst snd] in *; [|auto].
  destruct (markEvent _ _ _ _). discriminate.
Qed.

Lemma processEvent_rejected parse normalize html validEmail env fl req eventId st e :
  (processEvent parse normalize html validEmail env fl req eventId st).1.1 = Rejected e ->
  events (processEvent parse normalize html validEmail env fl req eventId st).1.2 = events st
  /\ (processEvent parse normalize html validEmail env fl req eventId st).2 = [].
Proof.
  unfold processEvent.
  destruct (parse (rawBody req)) as [body|].
  2:{ destruct (markEvent _ _ _ _). discriminate. }
  destruct (_ || _); [destruct (markEvent _ _ _ _); discriminate|].
  destruct (extractGroups (Some body)) as [groups|e']; [|auto].
  destruct groups as [|grp groups'] eqn:Eg; [destruct (markEvent _ _ _ _); discriminate|].
  rewrite <- Eg. clear Eg.
  destruct (existsb _ groups); [destruct (markEvent _ _ _ _); discriminate|].
  destruct (findOrder _ _ st) as [existing|e']; [|auto].
  assert (Hgen : forall o email (order : Order) st1,
            events st1 = events st ->
            (match generatePlates normalize fl o (or_id order) groups st1 with
             | GThrew e g => (Rejected e, g_store g, [])
             | GFailed error g =>
                 let '(st', fx) :=
                   markEvent (f_mark fl) (Some eventId)
                     [("status", JStr "failed"); ("orderNumber", JStr o);
                      ("error", JStr error)] (g_store g) in
                 (Responded 200, st', fx)
             | GDone g => finalize html env fl eventId o email (or_id order) g
             end).1.1 = Rejected e ->
            events (match generatePlates normalize fl o (or_id order) groups st1 with
                    | GThrew e g => (Rejected e, g_store g, [])
                    | GFailed error g =>
                        let '(st', fx) :=
                          markEvent (f_mark fl) (Some eventId)
                            [("status", JStr "failed"); ("orderNumber", JStr o);
                             ("error", JStr error)] (g_store g) in
                        (Responded 200, st', fx)
                    | GDone g => finalize html env fl eventId o email (or_id order) g
                    end).1.2 = events st
            /\ (match generatePlates normalize fl o (or_id order) groups st1 with
                | GThrew e g => (Rejected e, g_store g, [])
                | GFailed error g =>
                    let '(st', fx) :=
                      markEvent (f_mark fl) (Some eventId)
                        [("status", JStr "failed"); ("orderNumber", JStr o);
                         ("error", JStr error)] (g_store g) in
                    (Responded 200, st', fx)
                | GDone g => finalize html env fl eventId o email (or_id order) g
                end).2 = []).
  { intros o email order st1 H1.
    pose proof (generatePlates_frame normalize fl o (or_id order) groups st1) as Hf.
    destruct (generatePlates normalize fl o (or_id order) groups st1) as [g|err g|e' g];
      cbn [out_state] in Hf.
    - intros H. destruct (finalize_rejected _ _ _ _ _ _ _ _ _ H) as [He Hx].
      split; [congruence|exact Hx].
    - destruct (markEvent _ _ _ _). discriminate.
    - intros _. cbn. split; [congruence|reflexivity]. }
  destruct existing as [doc|].
  - match goal with |- context [updateOrder ?a ?v ?b ?c ?d] =>
      pose proof (updateOrder_frame a v b c d) as [He _];
      destruct (updateOrder a v b c d) as [[order|e'] st1] end; cbn [fst snd] in *; [|auto].
    apply Hgen. exact He.
  - match goal with |- context [createOrder ?a ?v ?b ?c ?d] =>
      pose proof (createOrder_frame a v b c d) as [He _];
      destruct (createOrder a v b c d) as [[order|e'] st1] end; cbn [fst snd] in *; [|auto].
    apply Hgen. exact He.
Qed.

(** X23. An exception that escapes the handler leaves the delivery
    registered and unexplained: whenever a run ends with an uncaught
    exception, the delivery records it leaves are those it found followed
    by the record it registered, still in the state [received], and no
    ledger write, log line or notification was issued. *)
Theorem escaped_exception_leaves_record_received
  parse hmac normalize html validEmail env fl req st :
  match (shopifyOrdersPaidWebhook parse hmac normalize html validEmail env fl req st).1.1 with
  | Rejected _ =>
      events (shopifyOrdersPaidWebhook parse hmac normalize html validEmail env fl req st).1.2
      = (events st ++ [receivedEvent req st])%list
      /\ (shopifyOrdersPaidWebhook parse hmac normalize html validEmail env fl req st).2 = []
  | Responded _ => True
  end.
Proof.
  unfold shopifyOrdersPaidWebhook.
  destruct (gates hmac env req) as [r|] eqn:Eg.
  { apply gates_status in Eg as [-> | ->]; exact I. }
  unfold createEvent.
  destruct (f_register fl) as [e|].
  { destruct (isDuplicateKeyError (Some e)); exact I. }
  destruct (existsb _ (events st)).
  { destruct (isDuplicateKeyError _); exact I. }
  match goal with |- context [processEvent _ _ _ _ _ _ _ ?id ?s] =>
    pose proof (processEvent_rejected parse normalize html validEmail env fl req id s) as H;
    destruct (processEvent parse normalize html validEmail env fl req id s) as [[[x|e] st'] fx]
  end; cbn [fst snd] in *; [exact I|].
  destruct (H e eq_refl) as [He Hx]. split; [exact He|exact Hx].
Qed.

Lemma escaped_exception_leaves_record_received_witness :
  (shopifyOrdersPaidWebhook
     (parseAs "order" (packOfTwoOrder "client@example.com"))
     noHmac acceptUrl noHtml emailWithAt unverifiedEnv (failingCreation plainFailure)
     (delivery "order") emptyStore).1.1
  = Rejected plainFailure
  /\ events
       (shopifyOrdersPaidWebhook
          (parseAs "order" (packOfTwoOrder "client@example.com"))
          noHmac acceptUrl noHtml emailWithAt unverifiedEnv (failingCreation plainFailure)
          (delivery "order") emptyStore).1.2
     = (events emptyStore ++ [receivedEvent (delivery "order") emptyStore])%list
  /\ (shopifyOrdersPaidWebhook
        (parseAs "order" (packOfTwoOrder "client@example.com"))
        noHmac acceptUrl noHtml emailWithAt unverifiedEnv (failingCreation plainFailure)
        (delivery "order") emptyStore).2 = [].
Proof.
  split; [reflexivity|].
  exact (escaped_exception_leaves_record_received
           (parseAs "order" (packOfTwoOrder "client@example.com"))
           noHmac acceptUrl noHtml emailWithAt unverifiedEnv (failingCreation plainFailure)
           (delivery "order") emptyStore).
Defined.

(* ---------------------------------------------------------------------- *)
(** ** Instances                                                            *)
(* ---------------------------------------------------------------------- *)

Lemma run_reports_the_rows_it_added_witness :
  reportedCount
    (shopifyOrdersPaidWebhook
       (parseAs "order" (packOfTwoOrder "client@example.com"))
       noHmac acceptUrl noHtml emailWithAt unverifiedEnv noFaults (delivery "order")
       emptyStore).2 4
  /\ Z.of_nat (length (plates emptyStore)) + 4
     = Z.of_nat
         (length
            (plates
               (shopifyOrdersPaidWebhook
                  (parseAs "order" (packOfTwoOrder "client@example.com"))
                  noHmac acceptUrl noHtml emailWithAt unverifiedEnv noFaults (delivery "order")
                  emptyStore).1.2)).
Proof.
  assert (H : reportedCount
                (shopifyOrdersPaidWebhook
                   (parseAs "order" (packOfTwoOrder "client@example.com"))
                   noHmac acceptUrl noHtml emailWithAt unverifiedEnv noFaults (delivery "order")
                   emptyStore).2 4).
  { exists 0%nat, [("status", JStr "processed"); ("orderNumber", JStr "1001");
                   ("createdPlatesCount", JNum 4)].
    split; [vm_compute; left; reflexivity|reflexivity]. }
  split; [exact H|].
  exact (proj1 (run_reports_the_rows_it_added
                  (parseAs "order" (packOfTwoOrder "client@example.com"))
                  noHmac acceptUrl noHtml emailWithAt unverifiedEnv noFaults (delivery "order")
                  emptyStore) 4 H).
Defined.

Lemma refusals_leave_no_trace_witness :
  (shopifyOrdersPaidWebhook (fun _ => None) noHmac acceptUrl noHtml emailWithAt unverifiedEnv
     (failingRegistration plainFailure) (delivery "{}") emptyStore).1.1
  = Responded 500
  /\ (500 = 200
      \/ ((500 = 401 \/ 500 = 500)
          /\ (shopifyOrdersPaidWebhook (fun _ => None) noHmac acceptUrl noHtml emailWithAt
                unverifiedEnv (failingRegistration plainFailure) (delivery "{}")
                emptyStore).1.2 = emptyStore
          /\ (shopifyOrdersPaidWebhook (fun _ => None) noHmac acceptUrl noHtml emailWithAt
                unverifiedEnv (failingRegistration plainFailure) (delivery "{}")
                emptyStore).2 = [])).
Proof.
  split; [reflexivity|].
  exact (refusals_leave_no_trace (fun _ => None) noHmac acceptUrl noHtml emailWithAt unverifiedEnv
           (failingRegistration plainFailure) (delivery "{}") emptyStore).
Defined.

Lemma extractGroups_is_an_ordered_selection_witness :
  extractGroups
    (Some (paidOrder 1001 "client@example.com"
             [googleLine "li_77" 1 "2 Plaques" reviewLink [];
              googleLine "li_78" 1 "10 Plaques" reviewLink []]))
  = Throw (Error_ "NO PACK SIZE")
  /\ exists before item after,
       lineItemsOf
         (Some (paidOrder 1001 "client@example.com"
                  [googleLine "li_77" 1 "2 Plaques" reviewLink [];
                   googleLine "li_78" 1 "10 Plaques" reviewLink []]))
       = (before ++ item :: after)%list
       /\ (forall i, In i before -> ~ raises i)
       /\ extractItem item = Raise (Error_ "NO PACK SIZE").
Proof.
  split; [reflexivity|].
  exact (proj2 (extractGroups_is_an_ordered_selection
                  (Some (paidOrder 1001 "client@example.com"
                           [googleLine "li_77" 1 "2 Plaques" reviewLink [];
                            googleLine "li_78" 1 "10 Plaques" reviewLink []])))).
Defined.

(* ---------------------------------------------------------------------- *)
(** ** A run that meets no failure                                          *)
(* ---------------------------------------------------------------------- *)

Lemma head_filter_Some (A : Type) (p : A -> bool) (l : list A) (x : A) :
  In x l -> p x = true -> exists y, head (List.filter p l) = Some y.
Proof.
  intros Hin Hp.
  assert (Hf : In x (List.filter p l)) by (apply List.filter_In; auto).
  destruct (List.filter p l) as [|y t]; [destruct Hf|]. exists y. reflexivity.
Qed.

Lemma head_filter_None_existsb (A : Type) (p : A -> bool) (l : list A) :
  head (List.filter p l) = None -> existsb p l = false.
Proof.
  intros H. apply not_true_is_false. intros Hex.
  apply existsb_exists in Hex as (x & Hin & Hp).
  destruct (head_filter_Some A p l x Hin Hp) as [y Hy]. congruence.
Qed.

Lemma head_rev_None (A : Type) (l : list A) : head (rev l) = None -> l = [].
Proof.
  intros H. rewrite <- (rev_involutive l).
  destruct (rev l); [reflexivity|discriminate].
Qed.

Lemma upsert_succeeds number email st :
  exists order st1,
    match head (rev (List.filter (fun o => String.eqb (or_orderNumber o) number)
                       (orders st))) with
    | Some doc =>
        updateOrder None None (or_id doc)
          (fun o => MkOrder (or_id o) (or_orderNumber o) email "paid"
                      (or_plates o) (or_activated o)) st
    | None => createOrder None None number email st
    end = (Ok order, st1)
    /\ plates st1 = plates st
    /\ (exists o, In o (orders st1) /\ or_id o = or_id order).
Proof.
  destruct (head (rev (List.filter _ (orders st)))) as [doc|] eqn:Eh.
  - apply head_rev_In, List.filter_In in Eh as [Hin _].
    unfold updateOrder.
    destruct (head_filter_Some _ (fun o => (or_id o =? or_id doc)%nat) (orders st) doc Hin
                (Nat.eqb_refl _)) as [o0 Ho0].
    rewrite Ho0. do 2 eexists. split; [reflexivity|]. split; [reflexivity|].
    apply head_filter_In in Ho0 as [Hin0 Hid0]. apply Nat.eqb_eq in Hid0.
    eexists. cbn. split.
    + apply in_map_iff. exists o0. split; [reflexivity|exact Hin0].
    + rewrite Hid0, Nat.eqb_refl. reflexivity.
  - apply head_rev_None in Eh.
    unfold createOrder. rewrite (head_filter_None_existsb _ _ (orders st)).
    2:{ rewrite Eh. reflexivity. }
    do 2 eexists. split; [reflexivity|]. split; [reflexivity|].
    eexists. cbn. split; [apply in_or_app; right; left; reflexivity|reflexivity].
Qed.

Lemma finalize_succeeds html env fl eventId number email oid g :
  f_findFinal fl = None ->
  f_finalizeOrder fl = None ->
  (exists o, In o (orders (g_store g)) /\ or_id o = oid) ->
  (finalize html env fl eventId number email oid g).1.1 = Responded 200
  /\ plates (finalize html env fl eventId number email oid g).1.2 = plates (g_store g)
  /\ marksProcessed (finalize html env fl eventId number email oid g).2.
Proof.
  intros Hf Hu (o & Hin & Hid).
  pose proof (finalize_leaves html env fl eventId number email oid g) as (Hp & _).
  pose proof (finalize_ledger_write html env fl eventId number email oid g) as Hl.
  assert (Hout : (finalize html env fl eventId number email oid g).1.1 = Responded 200).
  { unfold finalize, findPlates, updateOrder. rewrite Hf, Hu.
    destruct (head_filter_Some _ (fun x => (or_id x =? oid)%nat) (orders (g_store g)) o Hin)
      as [o0 Ho0]; [apply Nat.eqb_eq; exact Hid|].
    rewrite Ho0. destruct (markEvent _ _ _ _). reflexivity. }
  split; [exact Hout|]. split; [exact Hp|].
  destruct (finalize html env fl eventId number email oid g) as [[out st'] fx].
  cbn [fst snd] in *. subst out. destruct Hl as (_ & rest & ->).
  eexists _, _. split; [left; reflexivity|reflexivity].
Qed.

(** X24. A first run that meets no failure creates every unit: when a
    request passes the gates under a delivery id not seen before, the
    body names an order number and a customer e-mail that the validation
    of the order accepts, every extracted group has a line item id and a
    destination that the validation accepts, no unit of the groups has a
    plate yet, no storage call fails and the slugs drawn are new and
    distinct, then the handler answers 200, marks the delivery processed,
    and the store holds a plate for every unit of every group. *)
Theorem clean_run_creates_every_unit
  parse hmac normalize html validEmail env fl req st webhookId body groups :
  gates hmac env req = None ->
  getShopifyHeader req "x-shopify-webhook-id" = Some webhookId ->
  ~ In webhookId (webhookIds st) ->
  noStorageFaults fl ->
  cleanAttempts (f_attempts fl) st ->
  NoDup (sourceKeys st) ->
  parse (rawBody req) = Some body ->
  orderNumberOf (Some body) <> "" ->
  customerEmailOf (Some body) <> "" ->
  validEmail (customerEmailOf (Some body)) = true ->
  extractGroups (Some body) = Ok groups ->
  groups <> [] ->
  Forall (validGroup normalize) groups ->
  (forall k, unitKey (orderNumberOf (Some body)) groups k -> ~ In k (sourceKeys st)) ->
  (shopifyOrdersPaidWebhook parse hmac normalize html validEmail env fl req st).1.1
  = Responded 200
  /\ marksProcessed
       (shopifyOrdersPaidWebhook parse hmac normalize html validEmail env fl req st).2
  /\ allUnitsPresent (orderNumberOf (Some body)) groups
       (shopifyOrdersPaidWebhook parse hmac normalize html validEmail env fl req st).1.2.
Proof.
  intros Hgates Hw Hnew (Hreg & Hmark & Hfind & Hsave & Hplates & Hfinal & Hfin)
    Hclean Hnd Hparse Hnum Hmail Hemail Hgroups Hne Hvalid Hfresh.
  unfold shopifyOrdersPaidWebhook. rewrite Hgates, Hw.
  change (default "" (Some webhookId)) with webhookId.
  unfold createEvent. rewrite Hreg.
  rewrite (existsb_eqb_false _ ev_webhookId webhookId (events st) Hnew).
  set (st0 := MkStore _ (orders st) (plates st) (S (next_id st))).
  unfold processEvent. rewrite Hparse.
  fold (orderNumberOf (Some body)). fold (customerEmailOf (Some body)).
  apply String.eqb_neq in Hnum, Hmail. rewrite Hnum, Hmail. cbn [orb].
  rewrite Hgroups.
  destruct groups as [|grp groups'] eqn:Eg; [congruence|]. rewrite <- Eg in *. clear Eg Hne.
  rewrite (pack_size_branch_unreachable _ _ Hgroups).
  unfold findOrder, validateOrder. rewrite Hfind, Hsave, Hemail.
  destruct (upsert_succeeds (orderNumberOf (Some body)) (customerEmailOf (Some body)) st0)
    as (order & st1 & -> & Hp1 & Ho1).
  assert (Hclean1 : cleanAttempts (f_attempts fl) st1).
  { unfold cleanAttempts, slugs in *. rewrite Hp1. exact Hclean. }
  assert (Hnd1 : NoDup (sourceKeys st1)).
  { unfold sourceKeys in *. rewrite Hp1. exact Hnd. }
  assert (Hcov : snapshotCovers (orderNumberOf (Some body)) (or_id order) groups st1).
  { intros k Hk Hin. exfalso. apply (Hfresh k Hk).
    unfold sourceKeys in *. rewrite Hp1 in Hin. exact Hin. }
  destruct (generatePlates_clean normalize fl (orderNumberOf (Some body)) (or_id order)
              groups st1 Hnd1 Hplates Hclean1 Hvalid Hcov) as (g & Hgen & _ & Hall).
  destruct (generatePlates_appended normalize fl (orderNumberOf (Some body)) (or_id order)
              groups st1) as (rows & _ & Hord & _).
  rewrite Hgen in *. cbn [out_state g_store] in Hord.
  rewrite <- Hord in Ho1.
  destruct (finalize_succeeds html env fl (next_id st) (orderNumberOf (Some body))
              (customerEmailOf (Some body)) (or_id order) g Hfinal Hfin Ho1)
    as (Hout & Hp & Hm).
  split; [exact Hout|]. split; [exact Hm|].
  unfold allUnitsPresent, sourceKeys in *. rewrite Hp. exact Hall.
Qed.

Lemma clean_run_creates_every_unit_witness :
  (shopifyOrdersPaidWebhook
     (parseAs "order" (packOfTwoOrder "client@example.com"))
     noHmac acceptUrl noHtml emailWithAt unverifiedEnv noFaults (delivery "order")
     emptyStore).1.1 = Responded 200
  /\ marksProcessed
       (shopifyOrdersPaidWebhook
          (parseAs "order" (packOfTwoOrder "client@example.com"))
          noHmac acceptUrl noHtml emailWithAt unverifiedEnv noFaults (delivery "order")
          emptyStore).2
  /\ allUnitsPresent (orderNumberOf (Some (packOfTwoOrder "client@example.com")))
       [MkGroup reviewLink 4 "li_77"]
       (shopifyOrdersPaidWebhook
          (parseAs "order" (packOfTwoOrder "client@example.com"))
          noHmac acceptUrl noHtml emailWithAt unverifiedEnv noFaults (delivery "order")
          emptyStore).1.2.
Proof.
  apply (clean_run_creates_every_unit
           (parseAs "order" (packOfTwoOrder "client@example.com"))
           noHmac acceptUrl noHtml emailWithAt unverifiedEnv noFaults (delivery "order")
           emptyStore "w1").
  - reflexivity.
  - reflexivity.
  - cbn. tauto.
  - repeat split.
  - apply freshAttempts_clean. reflexivity.
  - constructor.
  - reflexivity.
  - discriminate.
  - discriminate.
  - reflexivity.
  - reflexivity.
  - discriminate.
  - repeat constructor; [discriminate|]. do 2 eexists. reflexivity.
  - intros k _ [].
Defined.

(* ---------------------------------------------------------------------- *)
(** ** The delivery record tells how the run ended                          *)
(* ---------------------------------------------------------------------- *)

Lemma mark_own_record id data st rec :
  In rec (events st) ->
  ev_id rec = id ->
  In (applyEventData data rec) (events (markEvent None (Some id) data st).1).
Proof.
  intros Hin Hid. unfold markEvent, updateEvent.
  replace (existsb (fun ev => (ev_id ev =? id)%nat) (events st)) with true.
  - cbn. apply in_map_iff. exists rec. rewrite Hid, Nat.eqb_refl. auto.
  - symmetry. apply existsb_exists. exists rec. rewrite Hid, Nat.eqb_refl. auto.
Qed.

Lemma failed_recorded eventId (data : list (string * JSON)) st rec :
  In rec (events st) ->
  ev_id rec = eventId ->
  ev_status (applyEventData data rec) = "failed" ->
  ev_webhookId (applyEventData data rec) = ev_webhookId rec ->
  exists ev,
    In ev (events (let '(st', fx) := markEvent None (Some eventId) data st in
                   (Responded 200, st', fx)).1.2)
    /\ ev_id ev = eventId
    /\ ev_webhookId ev = ev_webhookId rec
    /\ (ev_status ev = "failed" \/ ev_status ev = "processed").
Proof.
  intros Hin Hid Hs Hw.
  pose proof (mark_own_record eventId data st rec Hin Hid) as H.
  destruct (markEvent None (Some eventId) data st) as [st' fx]. cbn [fst snd] in *.
  exists (applyEventData data rec). rewrite applyEventData_id. auto.
Qed.

Lemma processEvent_recorded parse normalize html validEmail env fl req eventId st rec :
  f_mark fl = None ->
  In rec (events st) ->
  ev_id rec = eventId ->
  match (processEvent parse normalize html validEmail env fl req eventId st).1.1 with
  | Responded _ =>
      exists ev,
        In ev (events (processEvent parse normalize html validEmail env fl req eventId st).1.2)
        /\ ev_id ev = eventId
        /\ ev_webhookId ev = ev_webhookId rec
        /\ (ev_status ev = "failed" \/ ev_status ev = "processed")
  | Rejected _ => True
  end.
Proof.
  intros Hmark Hin Hid. unfold processEvent. rewrite Hmark.
  assert (Hfail : forall data st0,
            events st0 = events st ->
            ev_status (applyEventData data rec) = "failed" ->
            ev_webhookId (applyEventData data rec) = ev_webhookId rec ->
            match (let '(st', fx) := markEvent None (Some eventId) data st0 in
                   (Responded 200, st', fx)).1.1 with
            | Responded _ =>
                exists ev,
                  In ev (events (let '(st', fx) := markEvent None (Some eventId) data st0 in
                                 (Responded 200, st', fx)).1.2)
                  /\ ev_id ev = eventId
                  /\ ev_webhookId ev = ev_webhookId rec
                  /\ (ev_status ev = "failed" \/ ev_status ev = "processed")
            | Rejected _ => True
            end).
  { intros data st0 He Hs Hw.
    assert (Hin0 : In rec (events st0)) by (rewrite He; exact Hin).
    pose proof (failed_recorded eventId data st0 rec Hin0 Hid Hs Hw) as H.
    destruct (markEvent None (Some eventId) data st0). exact H. }
  destruct (parse (rawBody req)) as [body|].
  2:{ apply Hfail; reflexivity. }
  destruct (_ || _); [apply Hfail; reflexivity|].
  destruct (extractGroups (Some body)) as [groups|e]; [|exact I].
  destruct groups as [|grp groups'] eqn:Eg; [apply Hfail; reflexivity|].
  rewrite <- Eg. clear Eg.
  destruct (existsb _ groups); [apply Hfail; reflexivity|].
  destruct (findOrder _ _ st) as [existing|e]; [|exact I].
  assert (Hgen : forall o email (order : Order) st1,
            events st1 = events st ->
            match (match generatePlates normalize fl o (or_id order) groups st1 with
                   | GThrew e g => (Rejected e, g_store g, [])
                   | GFailed error g =>
                       let '(st', fx) :=
                         markEvent None (Some eventId)
                           [("status", JStr "failed"); ("orderNumber", JStr o);
                            ("error", JStr error)] (g_store g) in
                       (Responded 200, st', fx)
                   | GDone g => finalize html env fl eventId o email (or_id order) g
                   end).1.1 with
            | Responded _ =>
                exists ev,
                  In ev (events
                           (match generatePlates normalize fl o (or_id order) groups st1 with
                            | GThrew e g => (Rejected e, g_store g, [])
                            | GFailed error g =>
                                let '(st', fx) :=
                                  markEvent None (Some eventId)
                                    [("status", JStr "failed"); ("orderNumber", JStr o);
                                     ("error", JStr error)] (g_store g) in
                                (Responded 200, st', fx)
                            | GDone g => finalize html env fl eventId o email (or_id order) g
                            end).1.2)
                  /\ ev_id ev = eventId
                  /\ ev_webhookId ev = ev_webhookId rec
                  /\ (ev_status ev = "failed" \/ ev_status ev = "processed")
            | Rejected _ => True
            end).
  { intros o email order st1 H1.
    pose proof (generatePlates_frame normalize fl o (or_id order) groups st1) as Hf.
    destruct (generatePlates normalize fl o (or_id order) groups st1) as [g|err g|e' g];
      cbn [out_state] in Hf.
    - pose proof (finalize_status html env fl eventId o email (or_id order) g) as Hs.
      pose proof (finalize_marks_processed html env fl eventId o email (or_id order) g) as Hm.
      destruct (finalize html env fl eventId o email (or_id order) g) as [[[s|e'] st'] fx];
        cbn [fst snd] in *; [|exact I].
      subst s. eexists. split.
      + apply (Hm st' fx rec eq_refl Hmark); [congruence|exact Hid].
      + cbn. auto.
    - apply Hfail; [congruence|reflexivity|reflexivity].
    - exact I. }
  destruct existing as [doc|].
  - match goal with |- context [updateOrder ?a ?v ?b ?c ?d] =>
      pose proof (updateOrder_frame a v b c d) as [He _];
      destruct (updateOrder a v b c d) as [[order|e'] st1] end; cbn [fst snd] in *;
      [|exact I].
    apply Hgen. exact He.
  - match goal with |- context [createOrder ?a ?v ?b ?c ?d] =>
      pose proof (createOrder_frame a v b c d) as [He _];
      destruct (createOrder a v b c d) as [[order|e'] st1] end; cbn [fst snd] in *;
      [|exact I].
    apply Hgen. exact He.
Qed.

(** X25. The delivery record tells how the run ended: for a request that
    passes the gates under a delivery id not seen before, with the
    registration and the ledger writes meeting no failure, a run that
    answers leaves its record in [failed] or [processed], and a run that
    ends in an exception leaves it in [received]. *)
Theorem record_tells_how_the_run_ended
  parse hmac normalize html validEmail env fl req st webhookId :
  gates hmac env req = None ->
  getShopifyHeader req "x-shopify-webhook-id" = Some webhookId ->
  ~ In webhookId (webhookIds st) ->
  f_register fl = None ->
  f_mark fl = None ->
  match (shopifyOrdersPaidWebhook parse hmac normalize html validEmail env fl req st).1.1 with
  | Responded status =>
      status = 200
      /\ exists ev,
           In ev (events (shopifyOrdersPaidWebhook parse hmac normalize html validEmail env fl
                            req st).1.2)
           /\ ev_id ev = next_id st
           /\ ev_webhookId ev = webhookId
           /\ (ev_status ev = "failed" \/ ev_status ev = "processed")
  | Rejected _ =>
      In (receivedEvent req st)
         (events (shopifyOrdersPaidWebhook parse hmac normalize html validEmail env fl
                    req st).1.2)
      /\ ev_webhookId (receivedEvent req st) = webhookId
  end.
Proof.
  intros Hgates Hw Hnew Hreg Hmark.
  unfold shopifyOrdersPaidWebhook. rewrite Hgates, Hw.
  change (default "" (Some webhookId)) with webhookId.
  unfold createEvent. rewrite Hreg.
  rewrite (existsb_eqb_false _ ev_webhookId webhookId (events st) Hnew).
  set (rec := MkEvent (next_id st) "shopify" webhookId
                (default "" (getShopifyHeader req "x-shopify-topic")) None "received" None).
  set (st0 := MkStore (events st ++ [rec]) (orders st) (plates st) (S (next_id st))).
  assert (Hin : In rec (events st0)) by (apply in_or_app; right; left; reflexivity).
  pose proof (processEvent_recorded parse normalize html validEmail env fl
                req (next_id st) st0 rec
                Hmark Hin eq_refl) as Hrec.
  pose proof (processEvent_status parse normalize html validEmail env fl
                req (next_id st) st0) as Hst.
  pose proof (processEvent_rejected parse normalize html validEmail env fl
                req (next_id st) st0) as Hrej.
  destruct (processEvent parse normalize html validEmail env fl req (next_id st) st0)
    as [[[s|e] st'] fx]; cbn [fst snd] in *.
  - split; [exact Hst|exact Hrec].
  - destruct (Hrej e eq_refl) as [He _]. rewrite He.
    unfold receivedEvent. rewrite Hw. split; [exact Hin|reflexivity].
Qed.

Lemma record_tells_how_the_run_ended_witness :
  (shopifyOrdersPaidWebhook (parseAs "order" unsupportedPackOrder)
     noHmac acceptUrl noHtml emailWithAt unverifiedEnv noFaults (delivery "order") emptyStore).1.1
  = Rejected (Error_ "NO PACK SIZE")
  /\ In (receivedEvent (delivery "order") emptyStore)
        (events
           (shopifyOrdersPaidWebhook (parseAs "order" unsupportedPackOrder)
              noHmac acceptUrl noHtml emailWithAt unverifiedEnv noFaults (delivery "order")
              emptyStore).1.2)
  /\ ev_webhookId (receivedEvent (delivery "order") emptyStore) = "w1".
Proof.
  split; [reflexivity|].
  refine (record_tells_how_the_run_ended (parseAs "order" unsupportedPackOrder)
            noHmac acceptUrl noHtml emailWithAt unverifiedEnv noFaults (delivery "order")
            emptyStore "w1" _ _ _ _ _).
  - reflexivity.
  - reflexivity.
  - cbn. tauto.
  - reflexivity.
  - reflexivity.
Defined.
